(** * ConvoConnect: room lifecycle of the backend (Convo_Backend/index.js)

    A shallow embedding of the Express handlers that create, join, leave,
    rename and inspect chat rooms, of the message handler and of the
    room-code generator, over an explicit model of the Mongoose collections
    they touch (db.js).

    Conventions of the embedding.
    - A collection is the list of its documents in insertion order; every
      document carries its [_id], allocated from a counter of the store.
    - A handler is a function from the store (and the request) to the new
      store and the HTTP response; one handler runs at a time.
    - [Date.now()] and [Math.random()] are inputs of the request, and so
      is the order in which a sorted query returns documents with equal
      sort keys, which the query does not fix.
    - Strings are ASCII strings; object ids and user ids are numbers; a
      JSON number is a rational.
    - The [catch] branches (status 500) are reached only when the store
      throws, which the model of the store never does. *)

From Stdlib Require Import List String Ascii ZArith QArith Qround Bool Arith Lia.
From Stdlib Require Import Permutation Sorted.
Import ListNotations.

Local Open Scope string_scope.
Local Open Scope nat_scope.

(** ** JavaScript strings

    Strings of code units below 128; the functions below are the ASCII part
    of their JavaScript namesakes. *)

Module JsString.

(** ASCII white space and line terminators removed by [String.prototype.trim]. *)
Definition isWhiteSpace (c : ascii) : bool :=
  let n := nat_of_ascii c in
  ((9 <=? n) && (n <=? 13)) || (n =? 32).

Fixpoint trimStart (s : string) : string :=
  match s with
  | EmptyString => EmptyString
  | String c t => if isWhiteSpace c then trimStart t else s
  end.

Fixpoint trimEnd (s : string) : string :=
  match s with
  | EmptyString => EmptyString
  | String c t =>
      match trimEnd t with
      | EmptyString => if isWhiteSpace c then EmptyString else String c EmptyString
      | t' => String c t'
      end
  end.

Definition trim (s : string) : string := trimEnd (trimStart s).

Definition upperChar (c : ascii) : ascii :=
  let n := nat_of_ascii c in
  if (97 <=? n) && (n <=? 122) then ascii_of_nat (n - 32) else c.

Fixpoint mapChars (f : ascii -> ascii) (s : string) : string :=
  match s with
  | EmptyString => EmptyString
  | String c t => String (f c) (mapChars f t)
  end.

(** [String.prototype.toUpperCase] on ASCII. *)
Definition toUpperCase (s : string) : string := mapChars upperChar s.

(** JavaScript truthiness of a possibly-absent string: [!s] is true for
    [undefined] and for the empty string. *)
Definition falsy (s : option string) : bool :=
  match s with
  | None => true
  | Some EmptyString => true
  | Some _ => false
  end.

(** [s[i]] followed by string concatenation: an index out of range reads
    [undefined], which [+=] appends as the text "undefined". *)
Definition charAt (s : string) (i : Z) : string :=
  if (i <? 0)%Z then "undefined"
  else match String.get (Z.to_nat i) s with
       | Some c => String c EmptyString
       | None => "undefined"
       end.

Fixpoint allChars (p : ascii -> bool) (s : string) : bool :=
  match s with
  | EmptyString => true
  | String c t => p c && allChars p t
  end.

Fixpoint memChar (c : ascii) (s : string) : bool :=
  match s with
  | EmptyString => false
  | String d t => Ascii.eqb c d || memChar c t
  end.

End JsString.
Import JsString.

(** ** Documents (db.js) *)

Inductive Role := owner_role | moderator_role | member_role.
Inductive Status := online | offline.

Definition Role_eqb (a b : Role) : bool :=
  match a, b with
  | owner_role, owner_role | moderator_role, moderator_role
  | member_role, member_role => true
  | _, _ => false
  end.

Record User := mkUser {
  user_id : nat;
  user_name : string;
  user_email : string;
  user_avatar : option string
}.

Record Room := mkRoom {
  room_id : nat;
  room_name : string;
  description : string;
  roomCode : string;
  owner : nat;
  maxMembers : Q;
  isPrivate : bool
}.

Record Message := mkMessage {
  msg_id : nat;
  msg_room : nat;
  msg_author : nat;
  content : string;
  createdAt : Z
}.

Record RoomMember := mkRoomMember {
  rm_id : nat;
  rm_room : nat;
  rm_user : nat;
  role : Role;
  status : Status;
  joinedAt : Z
}.

(** A message as pushed to the sockets of a room and returned to the sender:
    the document with its author populated ([null] when no such user). *)
Record PopulatedMessage := mkPopulatedMessage {
  pm_doc : Message;
  pm_author : option User
}.

Record PopulatedMember := mkPopulatedMember {
  pmem_doc : RoomMember;
  pmem_user : option User
}.

(** The store: the four collections, the id counter, and the log of the
    events emitted on the socket server ([io.to(room).emit]), each with the
    room id of its request. *)
Record Db := mkDb {
  users : list User;
  rooms : list Room;
  roomMembers : list RoomMember;
  messages : list Message;
  nextId : nat;
  emitted : list (nat * PopulatedMessage)
}.

Definition emptyDb (us : list User) : Db := mkDb us [] [] [] 0 [].

(** ** Queries and updates of the collections *)

Definition User_findById (db : Db) (uid : nat) : option User :=
  find (fun u => user_id u =? uid) (users db).

Definition Room_findById (db : Db) (rid : nat) : option Room :=
  find (fun r => room_id r =? rid) (rooms db).

Definition Room_findOneByCode (rs : list Room) (code : string) : option Room :=
  find (fun r => String.eqb (roomCode r) code) rs.

Definition inRoom (rid : nat) (m : RoomMember) : bool := rm_room m =? rid.

Definition isMembership (rid uid : nat) (m : RoomMember) : bool :=
  (rm_room m =? rid) && (rm_user m =? uid).

Definition RoomMember_findOne (db : Db) (rid uid : nat) : option RoomMember :=
  find (isMembership rid uid) (roomMembers db).

Definition RoomMember_find (db : Db) (rid : nat) : list RoomMember :=
  filter (inRoom rid) (roomMembers db).

Definition RoomMember_countDocuments (db : Db) (rid : nat) : Z :=
  Z.of_nat (List.length (RoomMember_find db rid)).

(** [.sort({ joinedAt: 1 })]: ascending on [joinedAt], the only sort key.
    The order of two documents with equal keys is left to the store; it is
    the parameter [tie], where [tie m x] says that [m] is returned before
    [x].  Every ascending arrangement of the documents is the result of
    some [tie] (lemma [every_ascending_order]). *)
Definition TieOrder (A : Type) : Type := A -> A -> bool.

(** Two orders of equal keys: the order of the collection, and its reverse. *)
Definition collectionOrder {A : Type} : TieOrder A := fun _ _ => true.
Definition reverseOrder {A : Type} : TieOrder A := fun _ _ => false.

(** The order of equal keys that follows a given list of documents, which
    are told apart by their ids. *)
Fixpoint indexOf (n : nat) (ns : list nat) : nat :=
  match ns with
  | [] => 0
  | m :: t => if m =? n then 0 else S (indexOf n t)
  end.

Definition rankIn {A : Type} (idf : A -> nat) (l : list A) (x : A) : nat :=
  indexOf (idf x) (map idf l).

Definition orderOf {A : Type} (idf : A -> nat) (l : list A) : TieOrder A :=
  fun x y => rankIn idf l x <? rankIn idf l y.

Definition joinedBefore (tie : TieOrder RoomMember) (m x : RoomMember) : bool :=
  (joinedAt m <? joinedAt x)%Z || ((joinedAt m =? joinedAt x)%Z && tie m x).

Fixpoint insertByJoinedAt (tie : TieOrder RoomMember) (m : RoomMember)
    (l : list RoomMember) : list RoomMember :=
  match l with
  | [] => [m]
  | x :: t => if joinedBefore tie m x then m :: x :: t
              else x :: insertByJoinedAt tie m t
  end.

Fixpoint sortByJoinedAt (tie : TieOrder RoomMember) (l : list RoomMember)
  : list RoomMember :=
  match l with
  | [] => []
  | m :: t => insertByJoinedAt tie m (sortByJoinedAt tie t)
  end.

(** ** The room-code generator (index.js, generateRoomCode) *)

Definition characters : string := "ABCDEFGHJKLMNPQRSTUVWXYZ23456789".
Definition length : nat := 6.

(** A value of [Math.random()]: a number in the interval [0, 1). *)
Definition inUnitInterval (q : Q) : bool := Qle_bool 0 q && negb (Qle_bool 1 q).

Record Random := mkRandom {
  rval : Q;
  rval_ok : inUnitInterval rval = true
}.

(** The inner [for] loop: [n] more characters are appended to [code], the
    draws being read from position [pos] of the stream on. *)
Fixpoint drawCode (rnd : nat -> Random) (pos n : nat) (code : string) : string :=
  match n with
  | 0 => code
  | S n' =>
      let index := Qfloor (rval (rnd pos) * inject_Z (Z.of_nat (String.length characters))) in
      drawCode rnd (S pos) n' (code ++ charAt characters index)
  end.

(** The [while (true)] loop, unrolled [fuel] times: [None] says that the
    loop is still running after [fuel] candidates. *)
Fixpoint generateRoomCode (fuel : nat) (rs : list Room) (rnd : nat -> Random) (pos : nat)
  : option string :=
  match fuel with
  | 0 => None
  | S fuel' =>
      let code := drawCode rnd pos length "" in
      match Room_findOneByCode rs code with
      | None => Some code
      | Some _ => generateRoomCode fuel' rs rnd (pos + length)
      end
  end.

(** The [k]-th candidate drawn by the loop. *)
Definition candidate (rnd : nat -> Random) (pos k : nat) : string :=
  drawCode rnd (pos + k * length) length "".

Definition half : Random := mkRandom (1 # 2) eq_refl.
Definition zero : Random := mkRandom 0 eq_refl.

(** ** HTTP responses *)

Inductive Response (A : Type) : Type :=
| Json (status : nat) (body : A)
| Failure (status : nat) (message : string).
Arguments Json {A} status body.
Arguments Failure {A} status message.

(** The failure kinds of the specification, as the handlers answer them. *)
Definition ValidationError {A} (msg : string) : Response A := Failure 400 msg.
Definition NotFound {A} : Response A := Failure 404 "Room not found".
Definition Full {A} : Response A := Failure 400 "Room is full".
Definition Forbidden {A} : Response A := Failure 403 "You are not a member of this room".
Definition NotMember {A} (st : nat) : Response A := Failure st "You are not a member of this room".

(** Body of the answer of the leave handler: [{ deleted: true }] or
    [{ deleted: false, roomId, newOwnerId }]. *)
Inductive LeaveBody :=
| Deleted
| Remaining (roomId newOwnerId : nat).

(** ** Writes *)

Definition Room_save (db : Db) (r : Room) : Db :=
  mkDb (users db)
       (map (fun x => if room_id x =? room_id r then r else x) (rooms db))
       (roomMembers db) (messages db) (nextId db) (emitted db).

Definition RoomMember_save (db : Db) (m : RoomMember) : Db :=
  mkDb (users db) (rooms db)
       (map (fun x => if rm_id x =? rm_id m then m else x) (roomMembers db))
       (messages db) (nextId db) (emitted db).

Definition RoomMember_deleteOne (db : Db) (m : RoomMember) : Db :=
  mkDb (users db) (rooms db)
       (filter (fun x => negb (rm_id x =? rm_id m)) (roomMembers db))
       (messages db) (nextId db) (emitted db).

Definition setOwner (r : Room) (uid : nat) : Room :=
  mkRoom (room_id r) (room_name r) (description r) (roomCode r) uid
         (maxMembers r) (isPrivate r).

Definition setName (r : Room) (name : string) : Room :=
  mkRoom (room_id r) name (description r) (roomCode r) (owner r)
         (maxMembers r) (isPrivate r).

Definition setRole (m : RoomMember) (ro : Role) : RoomMember :=
  mkRoomMember (rm_id m) (rm_room m) (rm_user m) ro (status m) (joinedAt m).

Definition setStatus (m : RoomMember) (st : Status) : RoomMember :=
  mkRoomMember (rm_id m) (rm_room m) (rm_user m) (role m) st (joinedAt m).

(** ** Handlers *)

(** [maxMembers || 50]: the number of the body unless it is absent or zero.
    The body is not validated and the schema takes any number: negative and
    fractional capacities are stored as they come. *)
Definition orFifty (maxM : option Q) : Q :=
  match maxM with
  | Some q => if Qeq_bool q 0 then 50%Q else q
  | None => 50%Q
  end.

(** POST /rooms.  [None]: the code generator has not returned within [fuel]
    candidates, nothing has been written and nothing answered. *)
Definition createRoom (db : Db) (userId : nat) (name descr : option string)
    (maxM : option Q) (rnd : nat -> Random) (fuel : nat) (now : Z)
  : option (Db * Response Room) :=
  match name with
  | None | Some EmptyString => Some (db, ValidationError "Room name is required")
  | Some nm =>
      match generateRoomCode fuel (rooms db) rnd 0 with
      | None => None
      | Some code =>
          let room :=
            mkRoom (nextId db) nm
                   (match descr with Some d => d | None => "" end)
                   code userId (orFifty maxM) false in
          let member :=
            mkRoomMember (S (nextId db)) (room_id room) userId owner_role online now in
          Some (mkDb (users db) (rooms db ++ [room]) (roomMembers db ++ [member])
                     (messages db) (S (S (nextId db))) (emitted db),
                Json 201 room)
      end
  end.

(** Lines 328-346 and 364-382, the same in both join handlers: capacity
    check, then reuse or creation of the membership. *)
Definition joinFound (db : Db) (room : Room) (roomId userId : nat) (now : Z)
  : Db * Response (Room * RoomMember) :=
  let memberCount := RoomMember_countDocuments db roomId in
  if Qle_bool (maxMembers room) (inject_Z memberCount) then (db, Full)
  else
    match RoomMember_findOne db roomId userId with
    | None =>
        let membership :=
          mkRoomMember (nextId db) roomId userId member_role online now in
        (mkDb (users db) (rooms db) (roomMembers db ++ [membership])
              (messages db) (S (nextId db)) (emitted db),
         Json 200 (room, membership))
    | Some membership =>
        let membership := setStatus membership online in
        (RoomMember_save db membership, Json 200 (room, membership))
    end.

(** Lines 317-326: validation and normalisation of the code, and lookup. *)
Definition lookupByCode (db : Db) (code : option string) : Response Room :=
  if falsy code || falsy (option_map trim code)
  then ValidationError "Room code is required"
  else
    match code with
    | None => ValidationError "Room code is required"
    | Some c =>
        match Room_findOneByCode (rooms db) (toUpperCase (trim c)) with
        | None => NotFound
        | Some room => Json 200 room
        end
    end.

(** POST /rooms/join-by-code *)
Definition joinByCode (db : Db) (userId : nat) (code : option string) (now : Z)
  : Db * Response (Room * RoomMember) :=
  match lookupByCode db code with
  | Failure st msg => (db, Failure st msg)
  | Json _ room => joinFound db room (room_id room) userId now
  end.

(** POST /rooms/:roomId/join *)
Definition joinById (db : Db) (roomId userId : nat) (now : Z)
  : Db * Response (Room * RoomMember) :=
  match Room_findById db roomId with
  | None => (db, NotFound)
  | Some room => joinFound db room roomId userId now
  end.

(** POST /rooms/:roomId/messages *)
Definition sendMessage (db : Db) (roomId userId : nat) (body : option string) (now : Z)
  : Db * Response PopulatedMessage :=
  if falsy body || falsy (option_map trim body)
  then (db, ValidationError "Message content is required")
  else
    match body with
    | None => (db, ValidationError "Message content is required")
    | Some c =>
        match Room_findById db roomId with
        | None => (db, NotFound)
        | Some room =>
            match RoomMember_findOne db roomId userId with
            | None => (db, NotMember 403)
            | Some membership =>
                let doc := mkMessage (nextId db) roomId userId (trim c) now in
                let message := mkPopulatedMessage doc (User_findById db userId) in
                (mkDb (users db) (rooms db) (roomMembers db)
                      (messages db ++ [doc]) (S (nextId db))
                      (emitted db ++ [(roomId, message)]),
                 Json 201 message)
            end
        end
    end.

(** [.populate("user", "name email")]: the user document reduced to its id,
    name and email, or [null]. *)
Definition populateUser (db : Db) (m : RoomMember) : PopulatedMember :=
  mkPopulatedMember m
    (option_map (fun u => mkUser (user_id u) (user_name u) (user_email u) None)
                (User_findById db (rm_user m))).

(** GET /rooms/:roomId/details *)
Definition details (tie : TieOrder RoomMember) (db : Db) (roomId userId : nat)
  : Response (Room * list PopulatedMember * RoomMember) :=
  match Room_findById db roomId with
  | None => NotFound
  | Some room =>
      match RoomMember_findOne db roomId userId with
      | None => Forbidden
      | Some membership =>
          let members :=
            map (populateUser db)
                (sortByJoinedAt tie (RoomMember_find db roomId)) in
          Json 200 (room, members, membership)
      end
  end.

(** PATCH /rooms/:roomId; [renameRoomSchema] wants a string of length >= 1. *)
Definition renameRoom (db : Db) (roomId userId : nat) (name : option string)
  : Db * Response Room :=
  match name with
  | None | Some EmptyString => (db, ValidationError "Invalid room data")
  | Some nm =>
      match Room_findById db roomId with
      | None => (db, NotFound)
      | Some room =>
          if negb (owner room =? userId)
          then (db, Failure 403 "Only the room creator can rename the room")
          else
            let room := setName room nm in
            (Room_save db room, Json 200 room)
      end
  end.

(** POST /rooms/:roomId/leave *)
Definition leaveRoom (tie : TieOrder RoomMember) (db : Db) (roomId userId : nat)
  : Db * Response LeaveBody :=
  match Room_findById db roomId with
  | None => (db, NotFound)
  | Some room =>
      match RoomMember_findOne db roomId userId with
      | None => (db, NotMember 400)
      | Some membership =>
          let membersInRoom := sortByJoinedAt tie (RoomMember_find db roomId) in
          if List.length membersInRoom =? 1 then
            (mkDb (users db)
                  (filter (fun r => negb (room_id r =? roomId)) (rooms db))
                  (filter (fun m => negb (rm_room m =? roomId)) (roomMembers db))
                  (filter (fun m => negb (msg_room m =? roomId)) (messages db))
                  (nextId db) (emitted db),
             Json 200 Deleted)
          else
            let '(db1, room1) :=
              if owner room =? userId then
                match find (fun m => negb (rm_user m =? userId)) membersInRoom with
                | Some newOwnerMembership =>
                    let room' := setOwner room (rm_user newOwnerMembership) in
                    (RoomMember_save (Room_save db room')
                                     (setRole newOwnerMembership owner_role),
                     room')
                | None => (db, room)
                end
              else (db, room) in
            (RoomMember_deleteOne db1 membership,
             Json 200 (Remaining (room_id room1) (owner room1)))
      end
  end.

(** ** Sequences of requests *)

Inductive Request :=
| Create (userId : nat) (name descr : option string) (maxM : option Q)
         (rnd : nat -> Random) (fuel : nat) (now : Z)
| JoinByCode (userId : nat) (code : option string) (now : Z)
| JoinById (roomId userId : nat) (now : Z)
| Leave (roomId userId : nat) (tie : TieOrder RoomMember)
| Rename (roomId userId : nat) (name : option string)
| SendMessage (roomId userId : nat) (body : option string) (now : Z).

Definition handle (db : Db) (rq : Request) : Db :=
  match rq with
  | Create u n d m rnd fuel now =>
      match createRoom db u n d m rnd fuel now with
      | Some (db', _) => db'
      | None => db
      end
  | JoinByCode u c now => fst (joinByCode db u c now)
  | JoinById r u now => fst (joinById db r u now)
  | Leave r u tie => fst (leaveRoom tie db r u)
  | Rename r u n => fst (renameRoom db r u n)
  | SendMessage r u b now => fst (sendMessage db r u b now)
  end.

Definition run (db : Db) (rqs : list Request) : Db := fold_left handle rqs db.

(** The states of the store that the handlers can produce. *)
Definition reachable (db : Db) : Prop :=
  exists us rqs, db = run (emptyDb us) rqs.

(** ** Invariants *)

(** A well-formed room code: six characters of the alphabet. *)
Definition wellFormedCode (code : string) : Prop :=
  String.length code = 6 /\ allChars (fun c => memChar c characters) code = true.

(** The order of the sorted member lists. *)
Definition earlier (a b : RoomMember) : Prop := (joinedAt a <= joinedAt b)%Z.

(** Replacement of the document whose key [f] is [k], as [save] does. *)
Definition replaceAt {A : Type} (f : A -> nat) (k : nat) (v : A) (l : list A) : list A :=
  map (fun x => if f x =? k then v else x) l.

Definition roomKey (r : Room) : nat * string * Q := (room_id r, roomCode r, maxMembers r).
Definition memberKey (m : RoomMember) : nat * nat * nat := (rm_id m, rm_room m, rm_user m).

Definition countIn (ms : list RoomMember) (rid : nat) : Z :=
  Z.of_nat (List.length (filter (inRoom rid) ms)).

(** The capacity bound that the joins keep: a room has its creator only, or
    the count before its last join was below the capacity. *)
Definition withinCapacity (count : Z) (capacity : Q) : Prop :=
  (count <= 1)%Z \/ (inject_Z (count - 1) < capacity)%Q.

(** Shape of the collections: fresh and unique ids, no membership without
    its room, one membership per (room, user), unique well-formed codes,
    and the capacity bound. *)
Record Structure (rs : list Room) (ms : list RoomMember) (n : nat) : Prop := {
  room_ids_fresh : forall r, In r rs -> room_id r < n;
  member_ids_fresh : forall m, In m ms -> rm_id m < n;
  room_ids_unique : NoDup (map room_id rs);
  member_ids_sorted : StronglySorted lt (map rm_id ms);
  member_room_exists :
    forall m, In m ms -> exists r, In r rs /\ room_id r = rm_room m;
  membership_unique :
    forall m m', In m ms -> In m' ms ->
      rm_room m = rm_room m' -> rm_user m = rm_user m' -> m = m';
  codes_unique : NoDup (map roomCode rs);
  codes_wellFormed : forall r, In r rs -> wellFormedCode (roomCode r);
  capacity_respected :
    forall r, In r rs -> withinCapacity (countIn ms (room_id r)) (maxMembers r)
}.

(** The cross-entity invariant on owners. *)
Record SingleOwner (rs : list Room) (ms : list RoomMember) : Prop := {
  owner_exists :
    forall r, In r rs ->
      exists m, In m ms /\ rm_room m = room_id r /\ role m = owner_role /\
                rm_user m = owner r;
  owner_unique :
    forall m m', In m ms -> In m' ms -> rm_room m = rm_room m' ->
      role m = owner_role -> role m' = owner_role -> m = m'
}.

Definition Inv (db : Db) : Prop :=
  Structure (rooms db) (roomMembers db) (nextId db) /\
  SingleOwner (rooms db) (roomMembers db).

Definition isOwnerOf (rid : nat) (m : RoomMember) : bool :=
  inRoom rid m && Role_eqb (role m) owner_role.

(** ** Example stores *)

(** A store in which the code "AAAAAA" is taken, and a stream of draws whose
    first candidate is "AAAAAA" and whose second is "SSSSSS". *)
Definition takenRooms : list Room :=
  [mkRoom 0 "Lobby" "" "AAAAAA" 1 50%Q false].

Definition twoDraws (i : nat) : Random := if i <? 6 then zero else half.

(** Two stores used as examples: a room "Test" created by user 1, joined by
    users 2 and 3, with one message; and a room with its creator only. *)
Definition demoUsers : list User := [mkUser 1 "ann" "ann@example.org" None].

Definition demoDb : Db :=
  run (emptyDb demoUsers)
      [Create 1 (Some "Test") None None (fun _ => half) 1 100%Z;
       JoinByCode 2 (Some " ssssss ") 101%Z;
       JoinById 0 3 102%Z;
       SendMessage 0 1 (Some " hi ") 103%Z].

Definition demoRoom : Room := mkRoom 0 "Test" "" "SSSSSS" 1 50%Q false.

Definition soloDb : Db :=
  run (emptyDb demoUsers)
      [Create 1 (Some "Test") None None (fun _ => half) 1 100%Z;
       SendMessage 0 1 (Some "hello") 101%Z].

(** A room created with the capacity -1, as the create handler accepts. *)
Definition crampedDb : Db :=
  run (emptyDb demoUsers)
      [Create 1 (Some "Test") None (Some (-1)%Q) (fun _ => half) 1 100%Z].

(** A room created with the capacity 1: full with its creator. *)
Definition fullDb : Db :=
  run (emptyDb demoUsers)
      [Create 1 (Some "Test") None (Some 1%Q) (fun _ => half) 1 100%Z].

(** A room created with the capacity 1.5, then joined by user 2. *)
Definition fractionalDb : Db :=
  run (emptyDb demoUsers)
      [Create 1 (Some "Test") None (Some 1.5%Q) (fun _ => half) 1 100%Z;
       JoinById 0 2 101%Z].

(** A room whose members 2 and 3 joined at the same date. *)
Definition tiedDb : Db :=
  run (emptyDb demoUsers)
      [Create 1 (Some "Test") None None (fun _ => half) 1 100%Z;
       JoinById 0 2 200%Z;
       JoinById 0 3 200%Z].

(** ** Message history and room list *)

(** Ascending sort on an integer key, as [.sort({ key: 1 })]; documents
    with equal keys come in the order [tie] of the store. *)
Section SortBy.

Context {A : Type} (key : A -> Z) (tie : TieOrder A).

Definition precedes (x y : A) : bool :=
  (key x <? key y)%Z || ((key x =? key y)%Z && tie x y).

Fixpoint insertBy (x : A) (l : list A) : list A :=
  match l with
  | [] => [x]
  | y :: t => if precedes x y then x :: y :: t else y :: insertBy x t
  end.

Fixpoint sortBy (l : list A) : list A :=
  match l with
  | [] => []
  | x :: t => insertBy x (sortBy t)
  end.

End SortBy.

(** [.populate("author", "name email")] *)
Definition populateAuthor (db : Db) (m : Message) : PopulatedMessage :=
  mkPopulatedMessage m
    (option_map (fun u => mkUser (user_id u) (user_name u) (user_email u) None)
                (User_findById db (msg_author m))).

Definition Message_find (db : Db) (rid : nat) : list Message :=
  filter (fun m => msg_room m =? rid) (messages db).

(** GET /rooms/:roomId/messages *)
Definition getMessages (tie : TieOrder Message) (db : Db) (roomId userId : nat)
  : Response (list PopulatedMessage) :=
  match Room_findById db roomId with
  | None => NotFound
  | Some room =>
      match RoomMember_findOne db roomId userId with
      | None => Forbidden
      | Some membership =>
          Json 200 (map (populateAuthor db)
                        (sortBy createdAt tie (Message_find db roomId)))
      end
  end.

(** The aggregation of GET /rooms: the memberships whose room is one of
    [roomIds], grouped by room, each group with its size; then the object
    [countsByRoom], here an association list. *)
Definition countsByRoom (db : Db) (roomIds : list nat) : list (nat * Z) :=
  let matched :=
    filter (fun m => existsb (Nat.eqb (rm_room m)) roomIds) (roomMembers db) in
  map (fun rid => (rid, Z.of_nat (List.length (filter (inRoom rid) matched))))
      (nodup Nat.eq_dec (map rm_room matched)).

(** [countsByRoom[key] || 0] *)
Definition membersCount (counts : list (nat * Z)) (rid : nat) : Z :=
  match find (fun c => fst c =? rid) counts with
  | Some (_, c) => c
  | None => 0%Z
  end.

(** GET /rooms.  The rooms are sorted by descending creation date; the
    [createdAt] stamp of the room documents, which the record [Room] does
    not carry, is the parameter [roomCreatedAt]. *)
Definition listRooms (roomCreatedAt : Room -> Z) (tie : TieOrder Room) (db : Db)
    (userId : nat)
  : Response (list (Room * Z)) :=
  let memberships := filter (fun m => rm_user m =? userId) (roomMembers db) in
  let roomIds := map rm_room memberships in
  if List.length roomIds =? 0 then Json 200 []
  else
    let counts := countsByRoom db roomIds in
    let rs :=
      sortBy (fun r => (- roomCreatedAt r)%Z) tie
             (filter (fun r => existsb (Nat.eqb (room_id r)) roomIds) (rooms db)) in
    Json 200 (map (fun room => (room, membersCount counts (room_id room))) rs).

(** ** Accounts: signup, signin, profile, authentication *)

(** A user document with its credential; [User] is the document as the
    other handlers read it. *)
Record Account := mkAccount {
  acc_user : User;
  passwordHash : string
}.

Record Accounts := mkAccounts {
  accounts : list Account;
  nextUserId : nat
}.

(** [{ id, name, email }]: the user of the signup and signin answers and the
    payload of the token. *)
Record Identity := mkIdentity {
  id_id : nat;
  id_name : string;
  id_email : string
}.

(** The libraries behind the account handlers: zod's email check, bcrypt
    (the salt of [hash] is an input) and jsonwebtoken with the server's
    secret. *)
Record Libraries := mkLibraries {
  zodEmail : string -> bool;
  bcryptHash : string -> string -> string;
  bcryptCompare : string -> string -> bool;
  jwtSign : Identity -> string;
  jwtVerify : string -> option Identity
}.

Definition identity (u : User) : Identity :=
  mkIdentity (user_id u) (user_name u) (user_email u).

(** generateToken *)
Definition generateToken (lib : Libraries) (u : User) : string :=
  jwtSign lib (identity u).

Definition User_findOneByEmail (a : Accounts) (email : string) : option Account :=
  find (fun x => String.eqb (user_email (acc_user x)) email) (accounts a).

Definition User_findOneByName (a : Accounts) (name : string) : option Account :=
  find (fun x => String.eqb (user_name (acc_user x)) name) (accounts a).

Definition Account_findById (a : Accounts) (uid : nat) : option Account :=
  find (fun x => user_id (acc_user x) =? uid) (accounts a).

Definition Account_save (a : Accounts) (x : Account) : Accounts :=
  mkAccounts (replaceAt (fun y => user_id (acc_user y)) (user_id (acc_user x)) x
                        (accounts a))
             (nextUserId a).

(** signupSchema *)
Definition signupSchema (lib : Libraries) (name email password : option string)
  : option (string * string * string) :=
  match name, email, password with
  | Some n, Some e, Some p =>
      if (1 <=? String.length n) && zodEmail lib e && (6 <=? String.length p)
      then Some (n, e, p) else None
  | _, _, _ => None
  end.

(** signinSchema *)
Definition signinSchema (lib : Libraries) (email password : option string)
  : option (string * string) :=
  match email, password with
  | Some e, Some p =>
      if zodEmail lib e && (1 <=? String.length p) then Some (e, p) else None
  | _, _ => None
  end.

(** POST /signup; the body of the answer is [{ message, user, token }]. *)
Definition signup (lib : Libraries) (a : Accounts)
    (name email password : option string) (salt : string)
  : Accounts * Response (string * Identity * string) :=
  match signupSchema lib name email password with
  | None => (a, Failure 400 "Invalid signup data")
  | Some (n, e, p) =>
      match User_findOneByEmail a e with
      | Some _ => (a, Failure 409 "Email already in use")
      | None =>
          match User_findOneByName a n with
          | Some _ => (a, Failure 409 "Username already in use")
          | None =>
              let passwordHash := bcryptHash lib p salt in
              let user := mkUser (nextUserId a) n e None in
              (mkAccounts (accounts a ++ [mkAccount user passwordHash])
                          (S (nextUserId a)),
               Json 201 ("User created", identity user, generateToken lib user))
          end
      end
  end.

(** POST /signin *)
Definition signin (lib : Libraries) (a : Accounts) (email password : option string)
  : Response (string * Identity * string) :=
  match signinSchema lib email password with
  | None => Failure 400 "Invalid signin data"
  | Some (e, p) =>
      match User_findOneByEmail a e with
      | None => Failure 401 "Invalid credentials"
      | Some x =>
          if negb (bcryptCompare lib p (passwordHash x))
          then Failure 401 "Invalid credentials"
          else Json 200 ("Signed in", identity (acc_user x),
                         generateToken lib (acc_user x))
      end
  end.

(** [{ id, name, email, avatar: user.avatar || null }] *)
Definition profile (u : User) : User :=
  mkUser (user_id u) (user_name u) (user_email u)
         (match user_avatar u with
          | Some EmptyString | None => None
          | Some av => Some av
          end).

(** GET /me *)
Definition getMe (a : Accounts) (userId : nat) : Response User :=
  match Account_findById a userId with
  | None => Failure 404 "User not found"
  | Some x => Json 200 (profile (acc_user x))
  end.

(** updateProfileSchema: both fields optional, the name of length >= 1 and
    the avatar of length <= 100. *)
Definition updateProfileSchema (name avatar : option string) : bool :=
  match name with
  | Some n => 1 <=? String.length n
  | None => true
  end &&
  match avatar with
  | Some av => String.length av <=? 100
  | None => true
  end.

(** PATCH /me *)
Definition updateProfile (a : Accounts) (userId : nat) (name avatar : option string)
  : Accounts * Response User :=
  if negb (updateProfileSchema name avatar)
  then (a, Failure 400 "Invalid profile data")
  else
    match Account_findById a userId with
    | None => (a, Failure 404 "User not found")
    | Some x =>
        let user := acc_user x in
        let renamed :=
          match name with
          | None | Some EmptyString => inl user
          | Some n =>
              if negb (String.eqb n (user_name user)) then
                match User_findOneByName a n with
                | Some existingName =>
                    if negb (user_id (acc_user existingName) =? user_id user)
                    then inr tt
                    else inl (mkUser (user_id user) n (user_email user)
                                     (user_avatar user))
                | None => inl (mkUser (user_id user) n (user_email user)
                                      (user_avatar user))
                end
              else inl user
          end in
        match renamed with
        | inr _ => (a, Failure 409 "Username already in use")
        | inl user =>
            let user :=
              match avatar with
              | Some av =>
                  mkUser (user_id user) (user_name user) (user_email user)
                         (match trim av with
                          | EmptyString => None
                          | t => Some t
                          end)
              | None => user
              end in
            (Account_save a (mkAccount user (passwordHash x)),
             Json 200 (profile user))
        end
    end.

(** [String.prototype.split] on a one-character separator. *)
Fixpoint split (sep : ascii) (s : string) : list string :=
  match s with
  | EmptyString => [EmptyString]
  | String c t =>
      if Ascii.eqb c sep then EmptyString :: split sep t
      else match split sep t with
           | [] => [String c EmptyString]
           | h :: r => String c h :: r
           end
  end.

Inductive AuthResult :=
| Next (user : Identity)
| Reject (status : nat) (message : string).

(** authMiddleware: [Next payload] stands for [req.user = payload; next()]. *)
Definition authMiddleware (lib : Libraries) (authHeader : option string) : AuthResult :=
  if falsy authHeader then Reject 401 "Missing Authorization header"
  else
    match authHeader with
    | None => Reject 401 "Missing Authorization header"
    | Some h =>
        match nth_error (split " " h) 1 with
        | None | Some EmptyString => Reject 401 "Invalid Authorization header"
        | Some token =>
            match jwtVerify lib token with
            | Some payload => Next payload
            | None => Reject 401 "Invalid or expired token"
            end
        end
    end.

(** Sequences of account requests. *)
Inductive AccountRequest :=
| Signup (name email password : option string) (salt : string)
| UpdateProfile (userId : nat) (name avatar : option string).

Definition handleAccount (lib : Libraries) (a : Accounts) (rq : AccountRequest)
  : Accounts :=
  match rq with
  | Signup n e p salt => fst (signup lib a n e p salt)
  | UpdateProfile u n av => fst (updateProfile a u n av)
  end.

Definition runAccounts (lib : Libraries) (rqs : list AccountRequest) : Accounts :=
  fold_left (handleAccount lib) rqs (mkAccounts [] 0).

(** ** Notions used by the further properties *)

Definition isFailure {A : Type} (r : Response A) : bool :=
  match r with
  | Failure _ _ => true
  | Json _ _ => false
  end.

(** What the stored messages satisfy. *)
Record MessagesOk (db : Db) : Prop := {
  message_ids_fresh : forall m, In m (messages db) -> msg_id m < nextId db;
  message_ids_sorted : StronglySorted lt (map msg_id (messages db));
  message_room_exists :
    forall m, In m (messages db) -> exists r, In r (rooms db) /\ room_id r = msg_room m;
  message_content :
    forall m, In m (messages db) ->
      content m <> EmptyString /\ trim (content m) = content m
}.

(** The fields of a room that no handler assigns after the creation. *)
Definition fixedFields (r : Room) : nat * string * Q * string * bool :=
  (room_id r, roomCode r, maxMembers r, description r, isPrivate r).

(** The membership that a join creates, and the store with it. *)
Definition newMembership (db : Db) (rid uid : nat) (now : Z) : RoomMember :=
  mkRoomMember (nextId db) rid uid member_role online now.

Definition withMembership (db : Db) (m : RoomMember) : Db :=
  mkDb (users db) (rooms db) (roomMembers db ++ [m]) (messages db)
       (S (nextId db)) (emitted db).

Definition isMember (db : Db) (rid uid : nat) : bool :=
  match RoomMember_findOne db rid uid with
  | Some _ => true
  | None => false
  end.

(** What the stored accounts satisfy. *)
Definition avatarOk (av : option string) : Prop :=
  match av with
  | None => True
  | Some t => t <> EmptyString /\ trim t = t /\ String.length t <= 100
  end.

Record AccountsOk (a : Accounts) : Prop := {
  account_ids_fresh :
    forall x, In x (accounts a) -> user_id (acc_user x) < nextUserId a;
  account_ids_unique : NoDup (map (fun x => user_id (acc_user x)) (accounts a));
  account_emails_unique : NoDup (map (fun x => user_email (acc_user x)) (accounts a));
  account_names_unique : NoDup (map (fun x => user_name (acc_user x)) (accounts a));
  account_names : forall x, In x (accounts a) -> user_name (acc_user x) <> EmptyString;
  account_avatars : forall x, In x (accounts a) -> avatarOk (user_avatar (acc_user x))
}.

Definition noSpace (s : string) : Prop :=
  allChars (fun c => negb (Ascii.eqb c " ")) s = true.

(** Stand-ins for the libraries, used in the examples only: every string
    with an "@" is an email, the hash of a password is the password, and the
    token of a user is the user's email. *)
Definition demoLib : Libraries :=
  mkLibraries
    (fun e => negb (allChars (fun c => negb (Ascii.eqb c "@")) e))
    (fun p salt => p)
    (fun p h => String.eqb p h)
    (fun i => id_email i)
    (fun t => if String.eqb t "ann@example.org"
              then Some (mkIdentity 0 "ann" "ann@example.org") else None).

Definition demoAccounts : Accounts :=
  runAccounts demoLib
    [Signup (Some "ann") (Some "ann@example.org") (Some "secret1") "s1";
     Signup (Some "bob") (Some "bob@example.org") (Some "secret2") "s2";
     UpdateProfile 1 None (Some "  BK ")].

(** The account [uid] with the email [e] and the hash [h] is in the store. *)
Definition holds (uid : nat) (e h : string) (a : Accounts) : Prop :=
  exists x, In x (accounts a) /\ user_id (acc_user x) = uid /\
            user_email (acc_user x) = e /\ passwordHash x = h.

Ltac split_inv H := destruct H as [?HS ?HO].

(** * Properties *)

Example draw_half : drawCode (fun _ => half) 0 length "" = "SSSSSS".
Proof. reflexivity. Qed.

Example draw_zero : drawCode (fun _ => zero) 0 length "" = "AAAAAA".
Proof. reflexivity. Qed.

(** ** Strings *)

Section StringFacts.

Lemma get_memChar (s : string) (n : nat) (c : ascii) :
  String.get n s = Some c -> memChar c s = true.
Proof.
  revert n; induction s as [|d t IH]; intros n H; simpl in *.
  - discriminate.
  - destruct n as [|n].
    + injection H as ->. now rewrite Ascii.eqb_refl.
    + rewrite (IH _ H). apply orb_true_r.
Qed.

Lemma get_in_range (s : string) (n : nat) :
  n < String.length s -> exists c, String.get n s = Some c.
Proof.
  revert n; induction s as [|d t IH]; intros n H; simpl in *.
  - lia.
  - destruct n as [|n]; [now exists d|]. apply IH. lia.
Qed.

Lemma charAt_in_range (s : string) (i : Z) :
  (0 <= i < Z.of_nat (String.length s))%Z ->
  exists c, charAt s i = String c EmptyString /\ memChar c s = true.
Proof.
  intros [Hlo Hhi]. unfold charAt.
  destruct (Z.ltb_spec i 0); [lia|].
  destruct (get_in_range s (Z.to_nat i)) as [c Hc]; [lia|].
  rewrite Hc. exists c. split; [reflexivity|]. now apply get_memChar with (n := Z.to_nat i).
Qed.

Lemma mapChars_fixed (f : ascii -> ascii) (p : ascii -> bool) (s : string) :
  (forall c, p c = true -> f c = c) ->
  allChars p s = true -> mapChars f s = s.
Proof.
  intros Hf. induction s as [|c s IH]; simpl; [reflexivity|].
  intros H. apply andb_true_iff in H as [Hc Hs].
  now rewrite (Hf _ Hc), (IH Hs).
Qed.

Lemma trimStart_fixed (s : string) :
  allChars (fun c => negb (isWhiteSpace c)) s = true -> trimStart s = s.
Proof.
  destruct s as [|c s]; simpl; [reflexivity|].
  intros H. apply andb_true_iff in H as [Hc _].
  now destruct (isWhiteSpace c).
Qed.

Lemma trimEnd_fixed (s : string) :
  allChars (fun c => negb (isWhiteSpace c)) s = true -> trimEnd s = s.
Proof.
  induction s as [|c s IH]; simpl; [reflexivity|].
  intros H. apply andb_true_iff in H as [Hc Hs].
  rewrite (IH Hs). destruct s; [|reflexivity].
  now destruct (isWhiteSpace c).
Qed.

Lemma trim_fixed (s : string) :
  allChars (fun c => negb (isWhiteSpace c)) s = true -> trim s = s.
Proof.
  intros H. unfold trim. rewrite (trimStart_fixed _ H). now apply trimEnd_fixed.
Qed.

Lemma allChars_impl (p q : ascii -> bool) (s : string) :
  (forall c, p c = true -> q c = true) ->
  allChars p s = true -> allChars q s = true.
Proof.
  intros Hpq. induction s as [|c s IH]; simpl; [reflexivity|].
  intros H. apply andb_true_iff in H as [Hc Hs].
  now rewrite (Hpq _ Hc), (IH Hs).
Qed.

Lemma memChar_spec (c : ascii) (s : string) :
  memChar c s = true <-> In c (list_ascii_of_string s).
Proof.
  induction s as [|d t IH]; simpl.
  - split; [discriminate|tauto].
  - rewrite orb_true_iff, IH, Ascii.eqb_eq. split; intros [H|H]; auto.
Qed.

(** The characters of the alphabet are upper-case letters and digits:
    neither lower-case nor white space. *)
Lemma characters_upper (c : ascii) :
  memChar c characters = true -> upperChar c = c.
Proof.
  intros H. apply memChar_spec in H. simpl in H.
  repeat (destruct H as [<-|H]; [reflexivity|]). contradiction.
Qed.

Lemma characters_not_space (c : ascii) :
  memChar c characters = true -> negb (isWhiteSpace c) = true.
Proof.
  intros H. apply memChar_spec in H. simpl in H.
  repeat (destruct H as [<-|H]; [reflexivity|]). contradiction.
Qed.

End StringFacts.

(** ** The generator *)

Lemma generateRoomCode_S (fuel : nat) (rs : list Room) (rnd : nat -> Random) (pos : nat) :
  generateRoomCode (S fuel) rs rnd pos =
    match Room_findOneByCode rs (drawCode rnd pos length "") with
    | None => Some (drawCode rnd pos length "")
    | Some _ => generateRoomCode fuel rs rnd (pos + length)
    end.
Proof. reflexivity. Qed.

Section Generator.

Variable rnd : nat -> Random.

Lemma index_in_range (r : Random) :
  (0 <= Qfloor (rval r * inject_Z (Z.of_nat (String.length characters)))
     < Z.of_nat (String.length characters))%Z.
Proof.
  destruct r as [q Hq]. simpl rval. unfold inUnitInterval in Hq.
  apply andb_true_iff in Hq as [Hlo Hhi].
  apply Qle_bool_iff in Hlo.
  apply negb_true_iff in Hhi.
  assert (Hlt : (q < 1)%Q).
  { apply Qnot_le_lt. intros H. apply Qle_bool_iff in H. congruence. }
  set (n := Z.of_nat (String.length characters)).
  assert (Hn : (0 < inject_Z n)%Q) by reflexivity.
  split.
  - change 0%Z with (Qfloor (inject_Z 0)) at 1. apply Qfloor_resp_le.
    change (inject_Z 0) with (0 * inject_Z n)%Q.
    apply Qmult_le_compat_r; [assumption|]. now apply Qlt_le_weak.
  - rewrite Zlt_Qlt.
    apply Qle_lt_trans with (y := (q * inject_Z n)%Q); [apply Qfloor_le|].
    setoid_replace (inject_Z n) with (1 * inject_Z n)%Q at 2 by ring.
    now apply Qmult_lt_compat_r.
Qed.

Lemma drawCode_spec (n pos : nat) (acc : string) :
  exists suffix,
    drawCode rnd pos n acc = acc ++ suffix /\
    String.length suffix = n /\
    allChars (fun c => memChar c characters) suffix = true.
Proof.
  revert pos acc. induction n as [|n IH]; intros pos acc.
  - exists EmptyString. split; [|split]; try reflexivity. simpl.
    induction acc as [|c acc IHacc]; simpl; [reflexivity|now rewrite <- IHacc].
  - change (drawCode rnd pos (S n) acc) with
      (drawCode rnd (S pos) n (acc ++ charAt characters
         (Qfloor (rval (rnd pos) * inject_Z (Z.of_nat (String.length characters)))))).
    destruct (charAt_in_range characters _ (index_in_range (rnd pos))) as (c & Hc & Hmem).
    destruct (IH (S pos) (acc ++ charAt characters
                (Qfloor (rval (rnd pos) * inject_Z (Z.of_nat (String.length characters))))))
      as (suf & Heq & Hlen & Hall).
    exists (String c suf). rewrite Heq, Hc. split; [|split].
    + clear. induction acc as [|d acc IHacc]; simpl; [reflexivity|now rewrite IHacc].
    + simpl. now rewrite Hlen.
    + cbn [allChars]. now rewrite Hmem, Hall.
Qed.

Lemma candidate_wellFormed (pos k : nat) : wellFormedCode (candidate rnd pos k).
Proof.
  unfold candidate.
  destruct (drawCode_spec length (pos + k * length) "") as (suf & Heq & Hlen & Hall).
  rewrite Heq. simpl. now split.
Qed.

Lemma generateRoomCode_candidate (fuel : nat) (rs : list Room) (pos : nat) (code : string) :
  generateRoomCode fuel rs rnd pos = Some code ->
  exists k, k < fuel /\ code = candidate rnd pos k /\
            Room_findOneByCode rs code = None.
Proof.
  revert pos. induction fuel as [|fuel IH]; intros pos H; [discriminate|].
  rewrite generateRoomCode_S in H.
  destruct (Room_findOneByCode rs (drawCode rnd pos length "")) eqn:E.
  - destruct (IH _ H) as (k & Hk & Hc & Hfree).
    exists (S k). split; [lia|]. split; [|assumption].
    rewrite Hc. unfold candidate. f_equal. unfold length. lia.
  - injection H as <-. exists 0. split; [lia|]. split; [|assumption].
    unfold candidate. now rewrite Nat.mul_0_l, Nat.add_0_r.
Qed.

Lemma generateRoomCode_steps (rs : list Room) (k pos fuel : nat) :
  (forall j, j < k -> Room_findOneByCode rs (candidate rnd pos j) <> None) ->
  generateRoomCode fuel rs rnd pos =
    match fuel - k with
    | 0 => None
    | S _ => generateRoomCode (fuel - k) rs rnd (pos + k * length)
    end.
Proof.
  revert pos fuel. induction k as [|k IH]; intros pos fuel Hcol.
  - rewrite Nat.sub_0_r, Nat.mul_0_l, Nat.add_0_r. now destruct fuel.
  - destruct fuel as [|fuel]; [reflexivity|].
    rewrite generateRoomCode_S.
    assert (H0 := Hcol 0 ltac:(lia)). unfold candidate in H0.
    rewrite Nat.mul_0_l, Nat.add_0_r in H0.
    destruct (Room_findOneByCode rs (drawCode rnd pos length "")); [|congruence].
    rewrite (IH (pos + length) fuel).
    + replace (S fuel - S k) with (fuel - k) by lia.
      replace (pos + length + k * length) with (pos + S k * length)
        by (unfold length; lia).
      reflexivity.
    + intros j Hj. specialize (Hcol (S j) ltac:(lia)).
      unfold candidate in *.
      now replace (pos + length + j * length) with (pos + S j * length)
        by (unfold length; lia).
Qed.

End Generator.

Lemma findOneByCode_none (rs : list Room) (code : string) :
  Room_findOneByCode rs code = None <-> (forall r, In r rs -> roomCode r <> code).
Proof.
  unfold Room_findOneByCode. split.
  - intros H r Hr Heq. apply (find_none _ _ H) in Hr. simpl in Hr.
    apply String.eqb_neq in Hr. contradiction.
  - intros H. destruct (find _ rs) eqn:E; [|reflexivity].
    apply find_some in E as [Hin Heq]. apply String.eqb_eq in Heq.
    now apply H in Hin.
Qed.

Lemma findOneByCode_some (rs : list Room) (code : string) (r : Room) :
  Room_findOneByCode rs code = Some r -> In r rs /\ roomCode r = code.
Proof.
  unfold Room_findOneByCode. intros H. apply find_some in H as [Hin Heq].
  now apply String.eqb_eq in Heq.
Qed.

(** ** Lists *)

Section ListFacts.

Context {A B : Type}.

Lemma in_map_key (f : A -> B) (l l' : list A) (x' : A) :
  map f l' = map f l -> In x' l' -> exists x, In x l /\ f x = f x'.
Proof.
  intros Hmap Hin. apply (in_map f) in Hin. rewrite Hmap in Hin.
  apply in_map_iff in Hin as (x & Hx & Hin). now exists x.
Qed.

Lemma NoDup_map_inj (f : A -> B) (l : list A) (x y : A) :
  NoDup (map f l) -> In x l -> In y l -> f x = f y -> x = y.
Proof.
  induction l as [|a l IH]; simpl; intros Hnd Hx Hy Hf; [contradiction|].
  inversion Hnd as [|? ? Hnotin Hnd']; subst.
  destruct Hx as [->|Hx], Hy as [->|Hy]; auto.
  - exfalso. apply Hnotin. rewrite Hf. now apply in_map.
  - exfalso. apply Hnotin. rewrite <- Hf. now apply in_map.
Qed.

Lemma NoDup_map_filter (f : A -> B) (q : A -> bool) (l : list A) :
  NoDup (map f l) -> NoDup (map f (filter q l)).
Proof.
  induction l as [|a l IH]; simpl; intros Hnd; [constructor|].
  inversion Hnd as [|? ? Hnotin Hnd']; subst.
  destruct (q a); simpl; auto. constructor; auto.
  intros Hin. apply Hnotin. apply in_map_iff in Hin as (x & Hx & Hin).
  apply filter_In in Hin as [Hin _]. rewrite <- Hx. now apply in_map.
Qed.

Lemma NoDup_map_snoc (f : A -> B) (l : list A) (a : A) :
  NoDup (map f l) -> (forall x, In x l -> f x <> f a) ->
  NoDup (map f (l ++ [a])%list).
Proof.
  intros Hnd Hfresh. rewrite map_app. simpl.
  apply NoDup_app.
  - assumption.
  - constructor; [intros []|constructor].
  - intros y Hy [<-|[]]. apply in_map_iff in Hy as (x & Hx & Hin).
    now apply (Hfresh x Hin).
Qed.

Lemma filter_map_commute (p : A -> bool) (g : A -> A) (l : list A) :
  (forall x, In x l -> p (g x) = p x) ->
  filter p (map g l) = map g (filter p l).
Proof.
  induction l as [|a l IH]; simpl; intros H; [reflexivity|].
  rewrite (H a (or_introl eq_refl)), IH by auto.
  now destruct (p a).
Qed.

Lemma filter_filter_le (p q : A -> bool) (l : list A) :
  List.length (filter p (filter q l)) <= List.length (filter p l).
Proof.
  induction l as [|a l IH]; simpl; [lia|].
  destruct (q a); simpl; destruct (p a); simpl; lia.
Qed.

Lemma filter_snoc (p : A -> bool) (l : list A) (a : A) :
  filter p (l ++ [a])%list = (filter p l ++ (if p a then [a] else []))%list.
Proof. rewrite filter_app. reflexivity. Qed.

Lemma filter_none (p : A -> bool) (l : list A) :
  (forall x, In x l -> p x = false) -> filter p l = [].
Proof.
  induction l as [|a l IH]; simpl; intros H; [reflexivity|].
  rewrite (H a (or_introl eq_refl)). auto.
Qed.

Lemma find_hd_filter (p : A -> bool) (l : list A) :
  find p l = hd_error (filter p l).
Proof.
  induction l as [|a l IH]; simpl; [reflexivity|].
  now destruct (p a).
Qed.

Lemma NoDup_all_equal (l : list A) :
  NoDup l -> (forall x y, In x l -> In y l -> x = y) -> List.length l <= 1.
Proof.
  intros Hnd Heq. destruct l as [|a [|b l]]; simpl; try lia.
  exfalso. inversion Hnd as [|? ? Hnotin _]; subst. apply Hnotin.
  rewrite (Heq a b); simpl; auto.
Qed.

Lemma filter_singleton (p : A -> bool) (l : list A) (a : A) :
  NoDup l -> In a l -> p a = true ->
  (forall x, In x l -> p x = true -> x = a) ->
  filter p l = [a].
Proof.
  induction l as [|b l IH]; simpl; intros Hnd Hin Hp Huniq; [contradiction|].
  inversion Hnd as [|? ? Hnotin Hnd']; subst.
  destruct (p b) eqn:Hb.
  - assert (b = a) by auto. subst b. f_equal.
    destruct (filter p l) as [|c t] eqn:E; [reflexivity|].
    assert (Hc : In c (filter p l)) by (rewrite E; now left).
    apply filter_In in Hc as [Hc Hpc].
    assert (c = a) by auto. subst c. contradiction.
  - destruct Hin as [->|Hin]; [congruence|]. apply IH; auto.
Qed.

End ListFacts.

Lemma StronglySorted_lt_snoc (l : list nat) (n : nat) :
  StronglySorted lt l -> (forall x, In x l -> x < n) ->
  StronglySorted lt (l ++ [n])%list.
Proof.
  induction l as [|a l IH]; simpl; intros Hs Hlt.
  - constructor; constructor.
  - inversion Hs as [|? ? Hs' Hall]; subst. constructor; [apply IH; auto|].
    apply Forall_app. split; [assumption|]. constructor; auto.
Qed.

Lemma StronglySorted_lt_NoDup (l : list nat) : StronglySorted lt l -> NoDup l.
Proof.
  induction 1 as [|a l Hs IH Hall]; constructor; auto.
  intros Hin. rewrite Forall_forall in Hall. apply Hall in Hin. lia.
Qed.

Lemma StronglySorted_map_filter {A : Type} (f : A -> nat) (q : A -> bool) (l : list A) :
  StronglySorted lt (map f l) -> StronglySorted lt (map f (filter q l)).
Proof.
  induction l as [|a l IH]; simpl; intros Hs; [constructor|].
  inversion Hs as [|? ? Hs' Hall]; subst.
  destruct (q a); simpl; auto. constructor; auto.
  rewrite Forall_forall in *. intros x Hx. apply Hall.
  apply in_map_iff in Hx as (y & <- & Hy). apply filter_In in Hy as [Hy _].
  now apply in_map.
Qed.

(** ** The sort of the member lists *)

Section SortFacts.

Variable tie : TieOrder RoomMember.

Lemma joinedBefore_earlier (m x : RoomMember) :
  joinedBefore tie m x = true -> earlier m x.
Proof.
  unfold joinedBefore, earlier. intros H.
  apply orb_true_iff in H as [H|H]; [apply Z.ltb_lt in H; lia|].
  apply andb_true_iff in H as [H _]. apply Z.eqb_eq in H. lia.
Qed.

Lemma not_joinedBefore_earlier (m x : RoomMember) :
  joinedBefore tie m x = false -> earlier x m.
Proof.
  unfold joinedBefore, earlier. intros H.
  apply orb_false_iff in H as [H _]. apply Z.ltb_ge in H. exact H.
Qed.

Lemma insert_perm (m : RoomMember) (l : list RoomMember) :
  Permutation (insertByJoinedAt tie m l) (m :: l).
Proof.
  induction l as [|x t IH]; simpl; [reflexivity|].
  destruct (joinedBefore tie m x); [reflexivity|].
  rewrite IH. apply perm_swap.
Qed.

Lemma sort_perm (l : list RoomMember) : Permutation (sortByJoinedAt tie l) l.
Proof.
  induction l as [|m t IH]; simpl; [reflexivity|].
  rewrite insert_perm. now constructor.
Qed.

Lemma sort_In (l : list RoomMember) (x : RoomMember) :
  In x (sortByJoinedAt tie l) <-> In x l.
Proof.
  split; apply Permutation_in; [apply sort_perm|symmetry; apply sort_perm].
Qed.

Lemma sort_length (l : list RoomMember) :
  List.length (sortByJoinedAt tie l) = List.length l.
Proof. apply Permutation_length, sort_perm. Qed.

Lemma insert_sorted (m : RoomMember) (l : list RoomMember) :
  StronglySorted earlier l -> StronglySorted earlier (insertByJoinedAt tie m l).
Proof.
  induction l as [|x t IH]; simpl; intros Hs.
  - constructor; constructor.
  - inversion Hs as [|? ? Hs' Hall]; subst.
    destruct (joinedBefore tie m x) eqn:Hb.
    + apply joinedBefore_earlier in Hb.
      constructor; [assumption|]. constructor; [assumption|].
      rewrite Forall_forall in *. intros y Hy. specialize (Hall y Hy).
      unfold earlier in *. lia.
    + apply not_joinedBefore_earlier in Hb.
      constructor; [auto|].
      rewrite Forall_forall in *. intros y Hy.
      apply (Permutation_in _ (insert_perm m t)) in Hy as [<-|Hy].
      * assumption.
      * auto.
Qed.

Lemma sort_sorted (l : list RoomMember) :
  StronglySorted earlier (sortByJoinedAt tie l).
Proof.
  induction l as [|m t IH]; simpl; [constructor|]. now apply insert_sorted.
Qed.

Lemma sort_NoDup (l : list RoomMember) : NoDup l -> NoDup (sortByJoinedAt tie l).
Proof.
  intros H. apply (Permutation_NoDup (Permutation_sym (sort_perm l)) H).
Qed.

(** The first document of a sorted list that passes a test has the least
    key among those that pass it. *)
Lemma find_sorted_least (p : RoomMember -> bool) (l : list RoomMember)
    (x : RoomMember) :
  StronglySorted earlier l -> find p l = Some x ->
  forall y, In y l -> p y = true -> earlier x y.
Proof.
  induction l as [|a l IH]; simpl; intros Hs Hfind y Hy Hp; [contradiction|].
  inversion Hs as [|? ? Hs' Hall]; subst. rewrite Forall_forall in Hall.
  destruct (p a) eqn:Ha.
  - injection Hfind as <-. destruct Hy as [<-|Hy]; [unfold earlier; lia|auto].
  - destruct Hy as [<-|Hy]; [congruence|]. eapply IH; eauto.
Qed.

End SortFacts.

(** A store that returns equal keys in the order of the collection. *)
Section StableSort.

Variable tie : TieOrder RoomMember.
Hypothesis tie_stable : forall a b, tie a b = true.

Lemma joinedBefore_stable (m x : RoomMember) :
  joinedBefore tie m x = (joinedAt m <=? joinedAt x)%Z.
Proof.
  unfold joinedBefore. rewrite tie_stable, andb_true_r.
  destruct (Z.ltb_spec (joinedAt m) (joinedAt x)),
           (Z.eqb_spec (joinedAt m) (joinedAt x)),
           (Z.leb_spec (joinedAt m) (joinedAt x)); simpl; try reflexivity; lia.
Qed.

Lemma insert_cons (m x : RoomMember) (t : list RoomMember) :
  insertByJoinedAt tie m (x :: t) =
    if (joinedAt m <=? joinedAt x)%Z then m :: x :: t
    else x :: insertByJoinedAt tie m t.
Proof. simpl. now rewrite joinedBefore_stable. Qed.

Lemma filter_insert (p : RoomMember -> bool) (m : RoomMember) (l : list RoomMember) :
  StronglySorted earlier l ->
  filter p (insertByJoinedAt tie m l) =
    if p m then insertByJoinedAt tie m (filter p l) else filter p l.
Proof.
  induction l as [|x t IH]; intros Hs.
  - simpl. now destruct (p m).
  - inversion Hs as [|? ? Hs' Hall]; subst. rewrite insert_cons.
    destruct (Z.leb_spec (joinedAt m) (joinedAt x)) as [Hle|Hgt].
    + simpl. destruct (p m) eqn:Hm; [|reflexivity].
      destruct (p x) eqn:Hx.
      * rewrite insert_cons.
        destruct (Z.leb_spec (joinedAt m) (joinedAt x)); [reflexivity|lia].
      * destruct (filter p t) as [|y u] eqn:E; [reflexivity|].
        rewrite insert_cons.
        assert (Hy : In y (filter p t)) by (rewrite E; now left).
        apply filter_In in Hy as [Hy _].
        rewrite Forall_forall in Hall. specialize (Hall y Hy). unfold earlier in Hall.
        destruct (Z.leb_spec (joinedAt m) (joinedAt y)); [reflexivity|lia].
    + simpl. rewrite (IH Hs'). destruct (p x) eqn:Hx, (p m) eqn:Hm; try reflexivity.
      rewrite insert_cons.
      destruct (Z.leb_spec (joinedAt m) (joinedAt x)); [lia|reflexivity].
Qed.

(** Filtering commutes with a sort that keeps the order of the collection. *)
Lemma filter_sort (p : RoomMember -> bool) (l : list RoomMember) :
  filter p (sortByJoinedAt tie l) = sortByJoinedAt tie (filter p l).
Proof.
  induction l as [|m t IH]; simpl; [reflexivity|].
  rewrite filter_insert by apply sort_sorted. rewrite IH. now destruct (p m).
Qed.

(** The head of such a sorted list is the first document of the collection
    among those with the least key. *)
Lemma sort_head (l : list RoomMember) (x : RoomMember) (t : list RoomMember) :
  sortByJoinedAt tie l = x :: t ->
  exists l1 l2, l = (l1 ++ x :: l2)%list /\
    (forall y, In y l1 -> (joinedAt x < joinedAt y)%Z) /\
    (forall y, In y l2 -> (joinedAt x <= joinedAt y)%Z).
Proof.
  revert x t. induction l as [|a l IH]; simpl; intros x t H; [discriminate|].
  destruct (sortByJoinedAt tie l) as [|y u] eqn:E.
  - assert (l = []) by (apply length_zero_iff_nil; now rewrite <- (sort_length tie), E).
    subst l. simpl in H. injection H as <- <-.
    exists [], []. repeat split; intros ? [].
  - destruct (IH y u eq_refl) as (l1 & l2 & Hl & H1 & H2).
    rewrite insert_cons in H.
    destruct (Z.leb_spec (joinedAt a) (joinedAt y)) as [Hle|Hgt].
    + injection H as <- <-. exists [], l. repeat split; [intros ? []|].
      intros z Hz. rewrite Hl in Hz. apply in_app_or in Hz as [Hz|[<-|Hz]].
      * specialize (H1 z Hz). lia.
      * assumption.
      * specialize (H2 z Hz). lia.
    + injection H as <- <-. exists (a :: l1), l2. rewrite Hl. repeat split; auto.
      intros z [<-|Hz]; auto.
Qed.

End StableSort.

(** ** Invariants of the store *)

Section FindFacts.

Variable db : Db.

Lemma findById_some (rid : nat) (r : Room) :
  Room_findById db rid = Some r -> In r (rooms db) /\ room_id r = rid.
Proof.
  unfold Room_findById. intros H. apply find_some in H as [Hin Heq].
  now apply Nat.eqb_eq in Heq.
Qed.

Lemma findById_none (rid : nat) :
  Room_findById db rid = None -> forall r, In r (rooms db) -> room_id r <> rid.
Proof.
  unfold Room_findById. intros H r Hin. apply (find_none _ _ H) in Hin.
  now apply Nat.eqb_neq in Hin.
Qed.

Lemma findOne_some (rid uid : nat) (m : RoomMember) :
  RoomMember_findOne db rid uid = Some m ->
  In m (roomMembers db) /\ rm_room m = rid /\ rm_user m = uid.
Proof.
  unfold RoomMember_findOne, isMembership. intros H.
  apply find_some in H as [Hin Heq]. apply andb_true_iff in Heq as [H1 H2].
  apply Nat.eqb_eq in H1, H2. auto.
Qed.

Lemma findOne_none (rid uid : nat) :
  RoomMember_findOne db rid uid = None ->
  forall m, In m (roomMembers db) -> rm_room m = rid -> rm_user m <> uid.
Proof.
  unfold RoomMember_findOne, isMembership. intros H m Hin Hr Hu.
  apply (find_none _ _ H) in Hin. subst.
  now rewrite !Nat.eqb_refl in Hin.
Qed.

Lemma findOne_is_some (rid uid : nat) (m : RoomMember) :
  In m (roomMembers db) -> rm_room m = rid -> rm_user m = uid ->
  exists m', RoomMember_findOne db rid uid = Some m'.
Proof.
  intros Hin Hr Hu. destruct (RoomMember_findOne db rid uid) eqn:E; [eauto|].
  exfalso. now apply (findOne_none _ _ E m Hin Hr).
Qed.

Lemma find_in_room (rid : nat) (m : RoomMember) :
  In m (RoomMember_find db rid) <-> In m (roomMembers db) /\ rm_room m = rid.
Proof.
  unfold RoomMember_find, inRoom. rewrite filter_In, Nat.eqb_eq. tauto.
Qed.

End FindFacts.

(** The capacity bound survives a shrinking count, and one more member
    below the capacity. *)
Lemma withinCapacity_mono (c c' : Z) (q : Q) :
  (c' <= c)%Z -> withinCapacity c q -> withinCapacity c' q.
Proof.
  intros Hle [H|H]; [left; lia|right].
  apply Qle_lt_trans with (inject_Z (c - 1)); [|assumption].
  rewrite <- Zle_Qle. lia.
Qed.

Lemma withinCapacity_succ (c : Z) (q : Q) :
  (inject_Z c < q)%Q -> withinCapacity (c + 1) q.
Proof. intros H. right. now replace (c + 1 - 1)%Z with c by lia. Qed.

Lemma Qle_bool_false (a b : Q) : Qle_bool a b = false <-> (b < a)%Q.
Proof.
  split; intros H.
  - apply Qnot_le_lt. intros Hle. apply Qle_bool_iff in Hle. congruence.
  - destruct (Qle_bool a b) eqn:E; [|reflexivity].
    apply Qle_bool_iff in E. exfalso. apply (Qlt_not_le _ _ H E).
Qed.

(** The two outcomes of the capacity check [memberCount >= room.maxMembers]. *)
Lemma full_guard (c : Z) (q : Q) :
  {(q <= inject_Z c)%Q /\ Qle_bool q (inject_Z c) = true} +
  {(inject_Z c < q)%Q /\ Qle_bool q (inject_Z c) = false}.
Proof.
  destruct (Qle_bool q (inject_Z c)) eqn:E; [left|right]; (split; [|reflexivity]).
  - now apply Qle_bool_iff.
  - now apply Qle_bool_false.
Qed.

Section StructureFacts.

Variables (rs : list Room) (ms : list RoomMember) (n : nat).
Hypothesis HS : Structure rs ms n.

Lemma room_id_inj (r r' : Room) :
  In r rs -> In r' rs -> room_id r = room_id r' -> r = r'.
Proof. apply NoDup_map_inj, (room_ids_unique _ _ _ HS). Qed.

Lemma member_ids_unique : NoDup (map rm_id ms).
Proof. apply StronglySorted_lt_NoDup, (member_ids_sorted _ _ _ HS). Qed.

Lemma member_id_inj (m m' : RoomMember) :
  In m ms -> In m' ms -> rm_id m = rm_id m' -> m = m'.
Proof. apply NoDup_map_inj, member_ids_unique. Qed.

Lemma members_NoDup : NoDup ms.
Proof. apply (NoDup_map_inv rm_id), member_ids_unique. Qed.

Lemma Structure_mono (n' : nat) : n <= n' -> Structure rs ms n'.
Proof.
  intros Hle. destruct HS. constructor; auto.
  - intros r Hr. specialize (room_ids_fresh0 r Hr). lia.
  - intros m Hm. specialize (member_ids_fresh0 m Hm). lia.
Qed.

(** Updates that keep the keys of the rooms and of the memberships, and
    possibly drop memberships. *)
Lemma Structure_update (rs' : list Room) (g : RoomMember -> RoomMember)
    (q : RoomMember -> bool) :
  map roomKey rs' = map roomKey rs ->
  (forall m, In m ms -> memberKey (g m) = memberKey m) ->
  Structure rs' (filter q (map g ms)) n.
Proof.
  intros Hkey Hg.
  assert (Hrooms : forall r', In r' rs' -> exists r, In r rs /\ roomKey r = roomKey r')
    by (intros r'; now apply in_map_key).
  assert (Hids : map room_id rs' = map room_id rs).
  { change room_id with (fun r => fst (fst (roomKey r))).
    rewrite <- (map_map roomKey (fun k => fst (fst k)) rs'), Hkey.
    now rewrite map_map. }
  assert (Hcodes : map roomCode rs' = map roomCode rs).
  { change roomCode with (fun r => snd (fst (roomKey r))).
    rewrite <- (map_map roomKey (fun k => snd (fst k)) rs'), Hkey.
    now rewrite map_map. }
  assert (Hmem : forall m', In m' (filter q (map g ms)) ->
                   exists m, In m ms /\ m' = g m /\ memberKey m' = memberKey m).
  { intros m' H. apply filter_In in H as [H _]. apply in_map_iff in H as (m & <- & Hm).
    exists m. auto. }
  assert (Hmids : map rm_id (map g ms) = map rm_id ms).
  { rewrite map_map. apply map_ext_in. intros m Hm. specialize (Hg m Hm).
    unfold memberKey in Hg. congruence. }
  destruct HS. constructor.
  - intros r' Hr'. destruct (Hrooms r' Hr') as (r & Hr & Hk).
    unfold roomKey in Hk. injection Hk as <- _ _. auto.
  - intros m' Hm'. destruct (Hmem m' Hm') as (m & Hm & _ & Hk).
    unfold memberKey in Hk. injection Hk as -> _ _. auto.
  - now rewrite Hids.
  - apply StronglySorted_map_filter. now rewrite Hmids.
  - intros m' Hm'. destruct (Hmem m' Hm') as (m & Hm & _ & Hk).
    unfold memberKey in Hk. injection Hk as _ -> _.
    destruct (member_room_exists0 m Hm) as (r & Hr & Hid).
    apply (in_map room_id) in Hr. rewrite <- Hids in Hr.
    apply in_map_iff in Hr as (r' & Hid' & Hr'). exists r'. split; congruence.
  - intros m1' m2' H1 H2 Hr Hu.
    destruct (Hmem m1' H1) as (a & Ha & -> & Hka).
    destruct (Hmem m2' H2) as (b & Hb & -> & Hkb).
    unfold memberKey in Hka, Hkb. injection Hka as _ Hra Hua. injection Hkb as _ Hrb Hub.
    f_equal. apply membership_unique0; congruence.
  - now rewrite Hcodes.
  - intros r' Hr'. destruct (Hrooms r' Hr') as (r & Hr & Hk).
    unfold roomKey in Hk. injection Hk as _ <- _. auto.
  - intros r' Hr'. destruct (Hrooms r' Hr') as (r & Hr & Hk).
    unfold roomKey in Hk. injection Hk as <- _ <-.
    specialize (capacity_respected0 r Hr).
    apply (withinCapacity_mono _ _ _) with (2 := capacity_respected0).
    unfold countIn.
    assert (List.length (filter (inRoom (room_id r)) (filter q (map g ms)))
            <= List.length (filter (inRoom (room_id r)) ms)); [|lia].
    rewrite filter_filter_le.
    rewrite filter_map_commute, length_map; [lia|].
    intros m Hm. specialize (Hg m Hm). unfold memberKey in Hg. unfold inRoom.
    congruence.
Qed.

Lemma Structure_delete_room (rid : nat) :
  Structure (filter (fun r => negb (room_id r =? rid)) rs)
            (filter (fun m => negb (rm_room m =? rid)) ms) n.
Proof.
  destruct HS. constructor.
  - intros r Hr. apply filter_In in Hr as [Hr _]. auto.
  - intros m Hm. apply filter_In in Hm as [Hm _]. auto.
  - now apply NoDup_map_filter.
  - now apply StronglySorted_map_filter.
  - intros m Hm. apply filter_In in Hm as [Hm Hne].
    destruct (member_room_exists0 m Hm) as (r & Hr & Hid).
    exists r. split; [|assumption]. apply filter_In. split; [assumption|].
    now rewrite Hid.
  - intros m m' Hm Hm'. apply filter_In in Hm as [Hm _], Hm' as [Hm' _]. auto.
  - now apply NoDup_map_filter.
  - intros r Hr. apply filter_In in Hr as [Hr _]. auto.
  - intros r Hr. apply filter_In in Hr as [Hr _].
    specialize (capacity_respected0 r Hr).
    apply (withinCapacity_mono _ _ _) with (2 := capacity_respected0).
    unfold countIn.
    pose proof (filter_filter_le (inRoom (room_id r))
                  (fun m => negb (rm_room m =? rid)) ms). lia.
Qed.

Lemma count_snoc (rid : nat) (m : RoomMember) :
  countIn (ms ++ [m]) rid =
    (countIn ms rid + (if (rm_room m =? rid)%nat then 1 else 0))%Z.
Proof.
  unfold countIn. rewrite filter_snoc, length_app. unfold inRoom.
  destruct (rm_room m =? rid); simpl; lia.
Qed.

Lemma Structure_new_member (room : Room) (m : RoomMember) :
  In room rs -> rm_room m = room_id room -> rm_id m = n ->
  (inject_Z (countIn ms (room_id room)) < maxMembers room)%Q ->
  (forall x, In x ms -> rm_room x = rm_room m -> rm_user x <> rm_user m) ->
  Structure rs (ms ++ [m]) (S n).
Proof.
  intros Hroom Hrid Hmid Hcount Hnew. destruct HS. constructor.
  - intros r Hr. specialize (room_ids_fresh0 r Hr). lia.
  - intros x Hx. apply in_app_or in Hx as [Hx|[<-|[]]].
    + specialize (member_ids_fresh0 x Hx). lia.
    + lia.
  - assumption.
  - rewrite map_app. simpl. apply StronglySorted_lt_snoc; [assumption|].
    intros i Hi. apply in_map_iff in Hi as (x & <- & Hx). rewrite Hmid. auto.
  - intros x Hx. apply in_app_or in Hx as [Hx|[<-|[]]]; [auto|].
    exists room. auto.
  - intros x y Hx Hy Hr Hu.
    apply in_app_or in Hx as [Hx|[<-|[]]]; apply in_app_or in Hy as [Hy|[<-|[]]]; auto.
    + exfalso. now apply (Hnew x Hx).
    + exfalso. apply (Hnew y Hy); congruence.
  - assumption.
  - assumption.
  - intros r Hr. rewrite count_snoc. specialize (capacity_respected0 r Hr).
    destruct (Nat.eqb_spec (rm_room m) (room_id r)) as [Heq|Hne];
      [|now rewrite Z.add_0_r].
    assert (r = room) by (apply room_id_inj; congruence). subst r.
    now apply withinCapacity_succ.
Qed.

Lemma Structure_new_room (room : Room) (m : RoomMember) :
  room_id room = n -> rm_id m = S n -> rm_room m = n ->
  wellFormedCode (roomCode room) ->
  (forall r, In r rs -> roomCode r <> roomCode room) ->
  Structure (rs ++ [room]) (ms ++ [m]) (S (S n)).
Proof.
  intros Hrid Hmid Hmroom Hwf Hfree.
  assert (Hold : forall x, In x ms -> rm_room x < n).
  { intros x Hx. destruct (member_room_exists _ _ _ HS x Hx) as (r & Hr & <-).
    now apply (room_ids_fresh _ _ _ HS). }
  destruct HS. constructor.
  - intros r Hr. apply in_app_or in Hr as [Hr|[<-|[]]].
    + specialize (room_ids_fresh0 r Hr). lia.
    + lia.
  - intros x Hx. apply in_app_or in Hx as [Hx|[<-|[]]].
    + specialize (member_ids_fresh0 x Hx). lia.
    + lia.
  - apply NoDup_map_snoc; [assumption|].
    intros r Hr. specialize (room_ids_fresh0 r Hr). lia.
  - rewrite map_app. simpl. apply StronglySorted_lt_snoc; [assumption|].
    intros i Hi. apply in_map_iff in Hi as (x & <- & Hx).
    specialize (member_ids_fresh0 x Hx). lia.
  - intros x Hx. apply in_app_or in Hx as [Hx|[<-|[]]].
    + destruct (member_room_exists0 x Hx) as (r & Hr & Hid).
      exists r. split; [apply in_or_app; now left|assumption].
    + exists room. split; [apply in_or_app; right; now left|congruence].
  - intros x y Hx Hy Hr Hu.
    apply in_app_or in Hx as [Hx|[<-|[]]]; apply in_app_or in Hy as [Hy|[<-|[]]]; auto.
    + specialize (Hold x Hx). lia.
    + specialize (Hold y Hy). lia.
  - apply NoDup_map_snoc; assumption.
  - intros r Hr. apply in_app_or in Hr as [Hr|[<-|[]]]; auto.
  - intros r Hr. rewrite count_snoc. apply in_app_or in Hr as [Hr|[<-|[]]].
    + specialize (capacity_respected0 r Hr). specialize (room_ids_fresh0 r Hr).
      destruct (Nat.eqb_spec (rm_room m) (room_id r)); [lia|].
      now rewrite Z.add_0_r.
    + assert (Hzero : countIn ms (room_id room) = 0%Z).
      { unfold countIn. rewrite filter_none; [reflexivity|].
        intros x Hx. specialize (Hold x Hx).
        unfold inRoom. apply Nat.eqb_neq. lia. }
      rewrite Hzero. left. destruct (rm_room m =? room_id room); lia.
Qed.

End StructureFacts.

Section UpdateFacts.

Context {A : Type} (f : A -> nat).

Lemma replaceAt_In (k : nat) (v : A) (l : list A) (y : A) :
  In y (replaceAt f k v l) ->
  (y = v /\ exists x, In x l /\ f x = k) \/ (In y l /\ f y <> k).
Proof.
  unfold replaceAt. intros H. apply in_map_iff in H as (x & Hx & Hin).
  destruct (Nat.eqb_spec (f x) k); subst; eauto.
Qed.

Lemma replaceAt_keep (k : nat) (v : A) (l : list A) (x : A) :
  In x l -> f x <> k -> In x (replaceAt f k v l).
Proof.
  intros Hin Hne. unfold replaceAt. apply in_map_iff. exists x.
  split; [|assumption]. now destruct (Nat.eqb_spec (f x) k).
Qed.

Lemma replaceAt_hit (k : nat) (v : A) (l : list A) (x : A) :
  In x l -> f x = k -> In v (replaceAt f k v l).
Proof.
  intros Hin Heq. unfold replaceAt. apply in_map_iff. exists x.
  split; [|assumption]. now destruct (Nat.eqb_spec (f x) k).
Qed.

Lemma replaceAt_same {B : Type} (key : A -> B) (k : nat) (v : A) (l : list A) :
  (forall x, In x l -> f x = k -> key v = key x) ->
  map key (replaceAt f k v l) = map key l.
Proof.
  intros H. unfold replaceAt. rewrite map_map. apply map_ext_in.
  intros x Hx. destruct (Nat.eqb_spec (f x) k); auto.
Qed.

End UpdateFacts.

Lemma filter_true {A : Type} (l : list A) : filter (fun _ => true) l = l.
Proof. induction l as [|a l IH]; simpl; [reflexivity|now rewrite IH]. Qed.

Section OwnerFacts.

Variables (rs : list Room) (ms : list RoomMember) (n : nat).
Hypothesis HS : Structure rs ms n.
Hypothesis HO : SingleOwner rs ms.

Lemma Structure_drop (q : RoomMember -> bool) : Structure rs (filter q ms) n.
Proof.
  pose proof (Structure_update rs ms n HS rs (fun x => x) q eq_refl
                (fun _ _ => eq_refl)) as H.
  now rewrite map_id in H.
Qed.

Lemma Structure_replace_member (m m' : RoomMember) :
  In m ms -> memberKey m' = memberKey m ->
  Structure rs (replaceAt rm_id (rm_id m') m' ms) n.
Proof.
  intros Hin Hk.
  pose proof (Structure_update rs ms n HS rs
                (fun x => if rm_id x =? rm_id m' then m' else x)
                (fun _ => true) eq_refl) as H.
  rewrite filter_true in H. apply H.
  intros x Hx. destruct (Nat.eqb_spec (rm_id x) (rm_id m')) as [Heq|]; [|reflexivity].
  assert (x = m); [|congruence].
  apply (member_id_inj rs ms n HS); auto.
  unfold memberKey in Hk. congruence.
Qed.

(** The membership of the user recorded as owner is the owner membership. *)
Lemma owner_membership (r : Room) (m : RoomMember) :
  In r rs -> In m ms -> rm_room m = room_id r -> rm_user m = owner r ->
  role m = owner_role.
Proof.
  intros Hr Hm Hroom Huser.
  destruct (owner_exists _ _ HO r Hr) as (m0 & Hm0 & Hr0 & Hrole & Hu0).
  assert (m0 = m); [|congruence].
  apply (membership_unique _ _ _ HS); congruence.
Qed.

Lemma SingleOwner_same_roles (rs' : list Room) (g : RoomMember -> RoomMember) :
  map (fun r => (room_id r, owner r)) rs' = map (fun r => (room_id r, owner r)) rs ->
  (forall m, In m ms -> rm_room (g m) = rm_room m /\ rm_user (g m) = rm_user m /\
                        role (g m) = role m) ->
  SingleOwner rs' (map g ms).
Proof.
  intros Hkey Hg. constructor.
  - intros r' Hr'. destruct (in_map_key _ _ _ _ Hkey Hr') as (r & Hr & Hk).
    injection Hk as Hid Hown.
    destruct (owner_exists _ _ HO r Hr) as (m & Hm & Hroom & Hrole & Hu).
    destruct (Hg m Hm) as (H1 & H2 & H3).
    exists (g m). split; [now apply in_map|]. repeat split; congruence.
  - intros m1 m2 H1 H2 Hroom Hr1 Hr2.
    apply in_map_iff in H1 as (a & <- & Ha), H2 as (b & <- & Hb).
    destruct (Hg a Ha) as (? & ? & ?), (Hg b Hb) as (? & ? & ?).
    f_equal. apply (owner_unique _ _ HO); congruence.
Qed.

Lemma SingleOwner_new_member (m : RoomMember) :
  role m <> owner_role -> SingleOwner rs (ms ++ [m]).
Proof.
  intros Hrole. constructor.
  - intros r Hr. destruct (owner_exists _ _ HO r Hr) as (m0 & Hm0 & H).
    exists m0. split; [apply in_or_app; now left|assumption].
  - intros x y Hx Hy Hroom Hrx Hry.
    apply in_app_or in Hx as [Hx|[<-|[]]]; apply in_app_or in Hy as [Hy|[<-|[]]];
      try contradiction; auto.
    now apply (owner_unique _ _ HO).
Qed.

Lemma SingleOwner_new_room (room : Room) (m : RoomMember) :
  room_id room = n -> rm_room m = n -> role m = owner_role ->
  rm_user m = owner room ->
  SingleOwner (rs ++ [room]) (ms ++ [m]).
Proof.
  intros Hrid Hroom Hrole Huser.
  assert (Hold : forall x, In x ms -> rm_room x < n).
  { intros x Hx. destruct (member_room_exists _ _ _ HS x Hx) as (r & Hr & <-).
    now apply (room_ids_fresh _ _ _ HS). }
  constructor.
  - intros r Hr. apply in_app_or in Hr as [Hr|[<-|[]]].
    + destruct (owner_exists _ _ HO r Hr) as (m0 & Hm0 & H).
      exists m0. split; [apply in_or_app; now left|assumption].
    + exists m. split; [apply in_or_app; right; now left|]. repeat split; congruence.
  - intros x y Hx Hy Hr Hrx Hry.
    apply in_app_or in Hx as [Hx|[<-|[]]]; apply in_app_or in Hy as [Hy|[<-|[]]]; auto.
    + now apply (owner_unique _ _ HO).
    + specialize (Hold x Hx). lia.
    + specialize (Hold y Hy). lia.
Qed.

Lemma SingleOwner_delete_room (rid : nat) :
  SingleOwner (filter (fun r => negb (room_id r =? rid)) rs)
              (filter (fun m => negb (rm_room m =? rid)) ms).
Proof.
  constructor.
  - intros r Hr. apply filter_In in Hr as [Hr Hne].
    destruct (owner_exists _ _ HO r Hr) as (m & Hm & Hroom & H).
    exists m. split; [|auto]. apply filter_In. split; [assumption|].
    now rewrite Hroom.
  - intros x y Hx Hy. apply filter_In in Hx as [Hx _], Hy as [Hy _].
    now apply (owner_unique _ _ HO).
Qed.

(** A member other than the recorded owner leaves. *)
Lemma SingleOwner_member_leaves (room : Room) (membership : RoomMember) :
  In room rs -> In membership ms -> rm_room membership = room_id room ->
  rm_user membership <> owner room ->
  SingleOwner rs (filter (fun x => negb (rm_id x =? rm_id membership)) ms).
Proof.
  intros Hroom Hmem Hr Hu. constructor.
  - intros r Hin. destruct (owner_exists _ _ HO r Hin) as (m & Hm & Hmr & Hrole & Hmu).
    exists m. split; [|auto]. apply filter_In. split; [assumption|].
    apply negb_true_iff, Nat.eqb_neq. intros Heq.
    assert (m = membership) by (apply (member_id_inj rs ms n HS); auto). subst m.
    assert (r = room) by (apply (room_id_inj rs ms n HS); congruence). subst r.
    congruence.
  - intros x y Hx Hy. apply filter_In in Hx as [Hx _], Hy as [Hy _].
    now apply (owner_unique _ _ HO).
Qed.

(** The owner leaves and the member [new] of the same room takes over. *)
Lemma SingleOwner_transfer (room : Room) (membership new : RoomMember) :
  In room rs -> In membership ms -> In new ms ->
  rm_room membership = room_id room -> rm_user membership = owner room ->
  rm_room new = room_id room -> rm_user new <> rm_user membership ->
  SingleOwner
    (replaceAt room_id (room_id room) (setOwner room (rm_user new)) rs)
    (filter (fun x => negb (rm_id x =? rm_id membership))
            (replaceAt rm_id (rm_id new) (setRole new owner_role) ms)).
Proof.
  intros Hroom Hmem Hnew Hmr Hmu Hnr Hnu.
  assert (Hids : rm_id new <> rm_id membership).
  { intros Heq. apply Hnu. f_equal. now apply (member_id_inj rs ms n HS). }
  assert (Hrole : role membership = owner_role) by now apply (owner_membership room).
  assert (Hin' : forall y,
    In y (filter (fun x => negb (rm_id x =? rm_id membership))
            (replaceAt rm_id (rm_id new) (setRole new owner_role) ms)) ->
    y = setRole new owner_role \/
    (In y ms /\ rm_id y <> rm_id new /\ rm_id y <> rm_id membership)).
  { intros y Hy. apply filter_In in Hy as [Hy Hq].
    apply negb_true_iff, Nat.eqb_neq in Hq.
    apply replaceAt_In in Hy as [[-> _]|[Hy Hne]]; auto. }
  assert (Hkeep : forall x, In x ms -> rm_room x <> room_id room ->
    In x (filter (fun x => negb (rm_id x =? rm_id membership))
            (replaceAt rm_id (rm_id new) (setRole new owner_role) ms))).
  { intros x Hx Hne. apply filter_In. split.
    - apply replaceAt_keep; [assumption|]. intros Heq.
      assert (x = new) by (apply (member_id_inj rs ms n HS); auto). congruence.
    - apply negb_true_iff, Nat.eqb_neq. intros Heq.
      assert (x = membership) by (apply (member_id_inj rs ms n HS); auto). congruence. }
  constructor.
  - intros r' Hr'. apply replaceAt_In in Hr' as [[-> _]|[Hr' Hne]].
    + exists (setRole new owner_role). split; [|simpl; auto].
      apply filter_In. split.
      * now apply (replaceAt_hit rm_id _ _ _ new).
      * simpl. now apply negb_true_iff, Nat.eqb_neq.
    + destruct (owner_exists _ _ HO r' Hr') as (m & Hm & Hmroom & H).
      exists m. split; [|auto]. apply Hkeep; congruence.
  - intros x y Hx Hy Hxy Hrx Hry.
    apply Hin' in Hx as [->|(Hx & Hx1 & Hx2)], Hy as [->|(Hy & Hy1 & Hy2)]; auto.
    + exfalso. apply Hy2. f_equal. apply (owner_unique _ _ HO); auto.
      simpl in Hxy. congruence.
    + exfalso. apply Hx2. f_equal. apply (owner_unique _ _ HO); auto.
      simpl in Hxy. congruence.
    + now apply (owner_unique _ _ HO).
Qed.

Lemma Structure_transfer (room : Room) (membership new : RoomMember) (uid : nat) :
  In room rs -> In new ms ->
  Structure
    (replaceAt room_id (room_id room) (setOwner room uid) rs)
    (filter (fun x => negb (rm_id x =? rm_id membership))
            (replaceAt rm_id (rm_id new) (setRole new owner_role) ms)) n.
Proof.
  intros Hroom Hnew. apply (Structure_update rs ms n HS).
  - apply replaceAt_same. intros x Hx Heq.
    assert (x = room) by (apply (room_id_inj rs ms n HS); auto). now subst x.
  - intros x Hx. destruct (Nat.eqb_spec (rm_id x) (rm_id new)); [|reflexivity].
    assert (x = new) by (apply (member_id_inj rs ms n HS); auto). now subst x.
Qed.

(** In a room with more than one member somebody other than [uid] is
    found by the search for a successor. *)
Lemma successor_exists (tie : TieOrder RoomMember) (rid uid : nat)
    (membership : RoomMember) :
  In membership ms -> rm_room membership = rid -> rm_user membership = uid ->
  List.length (sortByJoinedAt tie (filter (inRoom rid) ms)) <> 1 ->
  exists new,
    find (fun m => negb (rm_user m =? uid)) (sortByJoinedAt tie (filter (inRoom rid) ms))
      = Some new /\
    In new ms /\ rm_room new = rid /\ rm_user new <> uid.
Proof.
  intros Hmem Hr Hu Hlen.
  set (l := sortByJoinedAt tie (filter (inRoom rid) ms)) in *.
  assert (Hl : forall x, In x l <-> In x ms /\ rm_room x = rid).
  { intros x. unfold l. rewrite sort_In, filter_In. unfold inRoom.
    now rewrite Nat.eqb_eq. }
  destruct (find (fun m => negb (rm_user m =? uid)) l) as [new|] eqn:E.
  - apply find_some in E as [Hin Hne]. apply Hl in Hin as [Hin Hroom].
    apply negb_true_iff, Nat.eqb_neq in Hne. exists new. auto.
  - exfalso. apply Hlen.
    assert (Hnd : NoDup l).
    { apply (Permutation_NoDup (l := filter (inRoom rid) ms)).
      - symmetry. apply sort_perm.
      - apply NoDup_filter, (members_NoDup rs ms n HS). }
    assert (Hle : List.length l <= 1).
    { apply NoDup_all_equal; [assumption|]. intros x y Hx Hy.
      pose proof (find_none _ _ E x Hx) as Hxu. pose proof (find_none _ _ E y Hy) as Hyu.
      simpl in Hxu, Hyu. apply negb_false_iff, Nat.eqb_eq in Hxu, Hyu.
      apply Hl in Hx as [Hx Hxr], Hy as [Hy Hyr].
      apply (membership_unique _ _ _ HS); congruence. }
    assert (In membership l) by (apply Hl; auto).
    destruct l; simpl in *; [contradiction|lia].
Qed.

End OwnerFacts.

(** ** The handlers preserve the invariants *)

Lemma Inv_emptyDb (us : list User) : Inv (emptyDb us).
Proof.
  split; constructor; simpl; intros; try contradiction; constructor.
Qed.

Lemma createRoom_Inv (db : Db) userId name descr maxM rnd fuel now db' resp :
  Inv db -> createRoom db userId name descr maxM rnd fuel now = Some (db', resp) ->
  Inv db'.
Proof.
  intros HI H. unfold createRoom in H.
  destruct name as [[|c nm]|]; try (injection H as <- _; exact HI).
  destruct (generateRoomCode fuel (rooms db) rnd 0) as [code|] eqn:E; [|discriminate].
  injection H as <- _. split_inv HI.
  apply generateRoomCode_candidate in E as (k & _ & -> & Hfree).
  split; simpl.
  - apply Structure_new_room; auto.
    + apply candidate_wellFormed.
    + simpl. now apply findOneByCode_none.
  - now apply (SingleOwner_new_room _ _ (nextId db)).
Qed.

Lemma joinFound_Inv (db : Db) (room : Room) (rid uid : nat) (now : Z) :
  Inv db -> In room (rooms db) -> room_id room = rid ->
  Inv (fst (joinFound db room rid uid now)).
Proof.
  intros HI Hroom Hrid. unfold joinFound.
  destruct (full_guard (RoomMember_countDocuments db rid) (maxMembers room))
    as [[_ ->]|[Hlt ->]]; [exact HI|].
  split_inv HI.
  destruct (RoomMember_findOne db rid uid) as [m|] eqn:E; simpl.
  - apply findOne_some in E as (Hm & Hmr & Hmu). split.
    + now apply (Structure_replace_member _ _ _ HS m).
    + pose proof (SingleOwner_same_roles _ _ HO (rooms db)
                    (fun x => if rm_id x =? rm_id (setStatus m online)
                              then setStatus m online else x) eq_refl) as H.
      apply H. intros x Hx. simpl.
      destruct (Nat.eqb_spec (rm_id x) (rm_id m)); auto.
      assert (x = m) by (apply (member_id_inj _ _ _ HS); auto). now subst x.
  - split.
    + apply (Structure_new_member _ _ _ HS room); simpl; auto.
      * subst rid. exact Hlt.
      * intros x Hx Hxr. now apply (findOne_none db rid uid E).
    + apply (SingleOwner_new_member _ _ HO). simpl. discriminate.
Qed.

Lemma lookupByCode_some (db : Db) (code : option string) (st : nat) (room : Room) :
  lookupByCode db code = Json st room ->
  exists c, code = Some c /\ trim c <> EmptyString /\ In room (rooms db) /\
            roomCode room = toUpperCase (trim c).
Proof.
  unfold lookupByCode. destruct code as [c|]; [|discriminate].
  destruct (falsy (Some c) || falsy (option_map trim (Some c))) eqn:F; [discriminate|].
  apply orb_false_iff in F as [_ F]. simpl in F.
  destruct (Room_findOneByCode (rooms db) (toUpperCase (trim c))) as [r|] eqn:E;
    [|discriminate].
  intros H. injection H as _ <-. apply findOneByCode_some in E as [Hin Hcode].
  exists c. repeat split; auto. intros Hempty. rewrite Hempty in F. discriminate.
Qed.

Lemma joinByCode_Inv (db : Db) (uid : nat) (code : option string) (now : Z) :
  Inv db -> Inv (fst (joinByCode db uid code now)).
Proof.
  intros HI. unfold joinByCode.
  destruct (lookupByCode db code) as [st room|] eqn:E; [|exact HI].
  apply lookupByCode_some in E as (c & _ & _ & Hin & _).
  now apply joinFound_Inv.
Qed.

Lemma joinById_Inv (db : Db) (rid uid : nat) (now : Z) :
  Inv db -> Inv (fst (joinById db rid uid now)).
Proof.
  intros HI. unfold joinById.
  destruct (Room_findById db rid) as [room|] eqn:E; [|exact HI].
  apply findById_some in E as [Hin Hid]. now apply joinFound_Inv.
Qed.

Lemma sendMessage_Inv (db : Db) (rid uid : nat) (body : option string) (now : Z) :
  Inv db -> Inv (fst (sendMessage db rid uid body now)).
Proof.
  intros HI. unfold sendMessage.
  destruct (falsy body || falsy (option_map trim body)); [exact HI|].
  destruct body as [c|]; [|exact HI].
  destruct (Room_findById db rid); [|exact HI].
  destruct (RoomMember_findOne db rid uid); [|exact HI].
  split_inv HI. split; simpl; [|assumption].
  apply (Structure_mono _ _ _ HS). lia.
Qed.

Lemma renameRoom_Inv (db : Db) (rid uid : nat) (name : option string) :
  Inv db -> Inv (fst (renameRoom db rid uid name)).
Proof.
  intros HI. unfold renameRoom.
  destruct name as [[|c nm]|]; try exact HI.
  destruct (Room_findById db rid) as [room|] eqn:E; [|exact HI].
  destruct (negb (owner room =? uid)); [exact HI|].
  apply findById_some in E as [Hin Hid]. split_inv HI.
  set (room' := setName room (String c nm)).
  assert (Hsame : forall {B} (key : Room -> B), key room' = key room ->
            map key (replaceAt room_id (room_id room') room' (rooms db)) =
            map key (rooms db)).
  { intros B key Hk. apply replaceAt_same. intros x Hx Heq.
    assert (x = room) by (apply (room_id_inj _ _ _ HS); auto). now subst x. }
  split; simpl; fold (replaceAt room_id (room_id room') room' (rooms db)).
  - pose proof (Structure_update _ _ _ HS
                  (replaceAt room_id (room_id room') room' (rooms db))
                  (fun x => x) (fun _ => true) (Hsame _ roomKey eq_refl)
                  (fun _ _ => eq_refl)) as H.
    now rewrite filter_true, map_id in H.
  - pose proof (SingleOwner_same_roles _ _ HO
                  (replaceAt room_id (room_id room') room' (rooms db))
                  (fun x => x) (Hsame _ (fun r => (room_id r, owner r)) eq_refl)) as H.
    rewrite map_id in H. apply H. auto.
Qed.

Lemma leaveRoom_Inv (tie : TieOrder RoomMember) (db : Db) (rid uid : nat) :
  Inv db -> Inv (fst (leaveRoom tie db rid uid)).
Proof.
  intros HI. unfold leaveRoom.
  destruct (Room_findById db rid) as [room|] eqn:Er; [|exact HI].
  destruct (RoomMember_findOne db rid uid) as [membership|] eqn:Em; [|exact HI].
  apply findById_some in Er as [Hroom Hid].
  apply findOne_some in Em as (Hmem & Hmr & Hmu).
  split_inv HI. unfold RoomMember_find.
  destruct (Nat.eqb_spec
              (List.length (sortByJoinedAt tie (filter (inRoom rid) (roomMembers db)))) 1)
    as [Hone|Hmany].
  - split; simpl.
    + now apply Structure_delete_room.
    + now apply SingleOwner_delete_room.
  - destruct (Nat.eqb_spec (owner room) uid) as [Hown|Hown].
    + destruct (successor_exists _ _ _ HS tie rid uid membership Hmem Hmr Hmu Hmany)
        as (new & -> & Hnew & Hnr & Hnu).
      split; simpl.
      * now apply (Structure_transfer _ _ _ HS).
      * apply (SingleOwner_transfer _ _ _ HS HO); auto; congruence.
    + split; simpl.
      * now apply Structure_drop.
      * apply (SingleOwner_member_leaves _ _ _ HS HO room); auto; congruence.
Qed.

Lemma handle_Inv (db : Db) (rq : Request) : Inv db -> Inv (handle db rq).
Proof.
  intros HI. destruct rq; simpl.
  - destruct (createRoom db userId name descr maxM rnd fuel now) as [[db' resp]|] eqn:E;
      [|exact HI].
    now apply (createRoom_Inv _ _ _ _ _ _ _ _ _ _ HI E).
  - now apply joinByCode_Inv.
  - now apply joinById_Inv.
  - now apply leaveRoom_Inv.
  - now apply renameRoom_Inv.
  - now apply sendMessage_Inv.
Qed.

Lemma run_Inv (rqs : list Request) (db : Db) : Inv db -> Inv (run db rqs).
Proof.
  revert db. induction rqs as [|rq rqs IH]; intros db HI; simpl; [exact HI|].
  apply IH. now apply handle_Inv.
Qed.

Lemma reachable_Inv (db : Db) : reachable db -> Inv db.
Proof. intros (us & rqs & ->). apply run_Inv, Inv_emptyDb. Qed.

Lemma reachable_step (db : Db) (rq : Request) :
  reachable db -> reachable (handle db rq).
Proof.
  intros (us & rqs & ->). exists us, (rqs ++ [rq])%list.
  unfold run. now rewrite fold_left_app.
Qed.

(** ** Lookups in a well-formed store *)

Lemma StronglySorted_after {A : Type} (f : A -> nat) (l1 l2 : list A) (x : A) :
  StronglySorted lt (map f (l1 ++ x :: l2)%list) ->
  forall y, In y l2 -> f x < f y.
Proof.
  induction l1 as [|a l1 IH]; simpl; intros Hs y Hy.
  - inversion Hs as [|? ? _ Hall]; subst. rewrite Forall_forall in Hall.
    apply Hall. now apply in_map.
  - inversion Hs; subst. now apply IH.
Qed.

Section Lookups.

Variable db : Db.
Hypothesis HS : Structure (rooms db) (roomMembers db) (nextId db).

Lemma findById_unique (r : Room) :
  In r (rooms db) -> Room_findById db (room_id r) = Some r.
Proof.
  intros Hin. destruct (Room_findById db (room_id r)) as [r'|] eqn:E.
  - apply findById_some in E as [Hin' Hid]. f_equal.
    now apply (room_id_inj _ _ _ HS).
  - exfalso. now apply (findById_none db _ E r Hin).
Qed.

Lemma findOne_unique (m : RoomMember) :
  In m (roomMembers db) -> RoomMember_findOne db (rm_room m) (rm_user m) = Some m.
Proof.
  intros Hin. destruct (findOne_is_some db _ _ m Hin eq_refl eq_refl) as (m' & E).
  rewrite E. apply findOne_some in E as (Hin' & Hr & Hu). f_equal.
  now apply (membership_unique _ _ _ HS).
Qed.

Lemma findOneByCode_unique (r : Room) :
  In r (rooms db) -> Room_findOneByCode (rooms db) (roomCode r) = Some r.
Proof.
  intros Hin. destruct (Room_findOneByCode (rooms db) (roomCode r)) as [r'|] eqn:E.
  - apply findOneByCode_some in E as [Hin' Hcode]. f_equal.
    now apply (NoDup_map_inj roomCode (rooms db)); [apply (codes_unique _ _ _ HS)| | |].
  - exfalso. now apply (proj1 (findOneByCode_none _ _) E r Hin).
Qed.

(** The successor found by the leave handler has the least date among
    the other members of the room. *)
Lemma successor_minimal (tie : TieOrder RoomMember) (rid uid : nat)
    (new : RoomMember) :
  find (fun m => negb (rm_user m =? uid))
       (sortByJoinedAt tie (filter (inRoom rid) (roomMembers db))) = Some new ->
  forall y, In y (roomMembers db) -> rm_room y = rid -> rm_user y <> uid ->
    (joinedAt new <= joinedAt y)%Z.
Proof.
  intros Hfind y Hy Hyr Hyu.
  apply (find_sorted_least _ _ _ (sort_sorted tie _) Hfind).
  - apply sort_In, filter_In. split; [assumption|]. now apply Nat.eqb_eq.
  - now apply negb_true_iff, Nat.eqb_neq.
Qed.

(** When the store returns equal dates in the order of the collection, the
    successor is, among the other members with its date, the one stored
    first. *)
Lemma successor_stored_first (tie : TieOrder RoomMember) (rid uid : nat)
    (new : RoomMember) :
  (forall a b, tie a b = true) ->
  find (fun m => negb (rm_user m =? uid))
       (sortByJoinedAt tie (filter (inRoom rid) (roomMembers db))) = Some new ->
  forall y, In y (roomMembers db) -> rm_room y = rid -> rm_user y <> uid ->
    joinedAt y = joinedAt new -> rm_id new <= rm_id y.
Proof.
  intros Htie Hfind y Hy Hyr Hyu Hdate.
  rewrite find_hd_filter, (filter_sort tie Htie) in Hfind.
  set (others := filter (fun m => negb (rm_user m =? uid))
                        (filter (inRoom rid) (roomMembers db))) in *.
  destruct (sortByJoinedAt tie others) as [|x t] eqn:E; [discriminate|].
  injection Hfind as ->.
  destruct (sort_head tie Htie _ _ _ E) as (l1 & l2 & Hl & H1 & H2).
  assert (Hin : In y others).
  { unfold others. rewrite !filter_In. unfold inRoom. repeat split; auto.
    - now apply Nat.eqb_eq.
    - now apply negb_true_iff, Nat.eqb_neq. }
  assert (Hsorted : StronglySorted lt (map rm_id others)).
  { unfold others. do 2 apply StronglySorted_map_filter.
    apply (member_ids_sorted _ _ _ HS). }
  rewrite Hl in Hin, Hsorted. apply in_app_or in Hin as [Hin|[<-|Hin]].
  - specialize (H1 y Hin). lia.
  - lia.
  - pose proof (StronglySorted_after rm_id l1 l2 new Hsorted y Hin). lia.
Qed.

End Lookups.

(** * The claims *)

(** ** Room codes *)

Lemma characters_unambiguous (c : ascii) :
  memChar c characters = true -> negb (memChar c "0O1I") = true.
Proof.
  intros H. apply memChar_spec in H. simpl in H.
  repeat (destruct H as [<-|H]; [reflexivity|]). contradiction.
Qed.

(** C7. Every code returned by the generator has exactly six characters,
    each of them taken from the alphabet [characters], which contains none
    of the ambiguous characters 0, O, 1 and I, and the code is the room code
    of no room existing at the time of the call. *)
Theorem generateRoomCode_postcondition
    (fuel : nat) (rs : list Room) (rnd : nat -> Random) (pos : nat) (code : string) :
  generateRoomCode fuel rs rnd pos = Some code ->
  String.length code = 6 /\
  allChars (fun c => memChar c characters) code = true /\
  allChars (fun c => negb (memChar c "0O1I")) code = true /\
  (forall r, In r rs -> roomCode r <> code).
Proof.
  intros H. apply generateRoomCode_candidate in H as (k & _ & -> & Hfree).
  destruct (candidate_wellFormed rnd pos k) as [Hlen Hall].
  repeat split; try assumption.
  - revert Hall. apply allChars_impl, characters_unambiguous.
  - now apply findOneByCode_none.
Qed.

Lemma generateRoomCode_postcondition_witness :
  generateRoomCode 2 takenRooms twoDraws 0 = Some "SSSSSS" /\
  String.length "SSSSSS" = 6 /\
  allChars (fun c => memChar c characters) "SSSSSS" = true /\
  allChars (fun c => negb (memChar c "0O1I")) "SSSSSS" = true /\
  (forall r, In r takenRooms -> roomCode r <> "SSSSSS").
Proof.
  split; [reflexivity|].
  apply (generateRoomCode_postcondition 2 takenRooms twoDraws 0 "SSSSSS").
  reflexivity.
Defined.

(** C6, as stated, fails: no number of attempts bounds the loop.  With the
    code "AAAAAA" taken and a stream of draws that keeps proposing "AAAAAA",
    the generator has not returned after any number of candidates, and it
    has no other way to end. *)
Lemma generateRoomCode_unbounded :
  ~ exists maxAttempts, forall rs rnd,
      generateRoomCode maxAttempts rs rnd 0 <> None.
Proof.
  assert (Hloop : forall fuel pos,
            generateRoomCode fuel takenRooms (fun _ => zero) pos = None).
  { induction fuel as [|fuel IH]; intros pos; [reflexivity|].
    rewrite generateRoomCode_S.
    replace (drawCode (fun _ => zero) pos length "") with "AAAAAA" by reflexivity.
    apply IH. }
  intros (bound & H). exact (H takenRooms (fun _ => zero) (Hloop bound 0)).
Qed.

(** C6, amended. The generator retries on every collision, for as long as
    candidates collide: when the first [k] candidates are taken and the next
    one is free, it is still running after [k] candidates and returns that
    free candidate at attempt [k + 1], whatever [k] is.  No outcome of the
    loop stands for a failure. *)
Theorem generateRoomCode_retries
    (rs : list Room) (rnd : nat -> Random) (pos k : nat) :
  (forall j, j < k -> Room_findOneByCode rs (candidate rnd pos j) <> None) ->
  Room_findOneByCode rs (candidate rnd pos k) = None ->
  forall fuel,
    generateRoomCode fuel rs rnd pos =
      if fuel <=? k then None else Some (candidate rnd pos k).
Proof.
  intros Hcol Hfree fuel.
  rewrite (generateRoomCode_steps rnd rs k pos fuel Hcol).
  destruct (Nat.leb_spec fuel k) as [Hle|Hgt].
  - now replace (fuel - k) with 0 by lia.
  - destruct (fuel - k) as [|f] eqn:E; [lia|].
    rewrite generateRoomCode_S. unfold candidate in Hfree. now rewrite Hfree.
Qed.

Lemma generateRoomCode_retries_witness :
  (forall j, j < 1 -> Room_findOneByCode takenRooms (candidate twoDraws 0 j) <> None) /\
  Room_findOneByCode takenRooms (candidate twoDraws 0 1) = None /\
  generateRoomCode 1 takenRooms twoDraws 0 = None /\
  generateRoomCode 2 takenRooms twoDraws 0 = Some "SSSSSS".
Proof.
  assert (H0 : forall j, j < 1 ->
            Room_findOneByCode takenRooms (candidate twoDraws 0 j) <> None).
  { intros j Hj. replace j with 0 by lia. vm_compute. discriminate. }
  assert (H1 : Room_findOneByCode takenRooms (candidate twoDraws 0 1) = None)
    by reflexivity.
  split; [exact H0|]. split; [exact H1|]. split.
  - exact (generateRoomCode_retries takenRooms twoDraws 0 1 H0 H1 1).
  - exact (generateRoomCode_retries takenRooms twoDraws 0 1 H0 H1 2).
Defined.

(** ** Ownership and leaving *)

Lemma demoDb_reachable : reachable demoDb.
Proof. exists demoUsers. eexists. reflexivity. Defined.

Lemma Role_eqb_eq (a b : Role) : Role_eqb a b = true <-> a = b.
Proof. destruct a, b; simpl; split; congruence. Qed.

(** C1. In every state reached by a sequence of requests (create, join by
    code, join by id, leave, rename, and also send), every room of the store
    has exactly one membership with role owner, and the user of that
    membership is the owner recorded in the room. *)
Theorem single_owner_invariant (db : Db) (r : Room) :
  reachable db -> In r (rooms db) ->
  exists m, filter (isOwnerOf (room_id r)) (roomMembers db) = [m] /\
            rm_user m = owner r.
Proof.
  intros Hreach Hr. destruct (reachable_Inv _ Hreach) as [HS HO].
  destruct (owner_exists _ _ HO r Hr) as (m & Hm & Hroom & Hrole & Huser).
  exists m. split; [|assumption].
  apply filter_singleton.
  - apply (members_NoDup _ _ _ HS).
  - assumption.
  - unfold isOwnerOf, inRoom. rewrite Hroom, Nat.eqb_refl, Hrole. reflexivity.
  - intros x Hx Hp. unfold isOwnerOf, inRoom in Hp.
    apply andb_true_iff in Hp as [Hxr Hxo].
    apply Nat.eqb_eq in Hxr. apply Role_eqb_eq in Hxo.
    apply (owner_unique _ _ HO); congruence.
Qed.

Lemma single_owner_invariant_witness :
  reachable demoDb /\ In demoRoom (rooms demoDb) /\
  exists m, filter (isOwnerOf (room_id demoRoom)) (roomMembers demoDb) = [m] /\
            rm_user m = owner demoRoom.
Proof.
  split; [exact demoDb_reachable|]. split; [simpl; auto|].
  apply (single_owner_invariant demoDb demoRoom demoDb_reachable).
  simpl. auto.
Defined.

(** C2. When the only member of a room leaves, the answer is
    [{ deleted: true }], and afterwards the store holds no message of the
    room, no membership of the room and no room with that id; a later
    request for the details of that room id is answered "Room not found". *)
Theorem last_leave_deletes_everything (tie : TieOrder RoomMember)
    (db : Db) (rid uid : nat) (room : Room) (membership : RoomMember) :
  Room_findById db rid = Some room ->
  RoomMember_find db rid = [membership] ->
  rm_user membership = uid ->
  snd (leaveRoom tie db rid uid) = Json 200 Deleted /\
  (forall m, In m (messages (fst (leaveRoom tie db rid uid))) -> msg_room m <> rid) /\
  (forall m, In m (roomMembers (fst (leaveRoom tie db rid uid))) -> rm_room m <> rid) /\
  (forall r, In r (rooms (fst (leaveRoom tie db rid uid))) -> room_id r <> rid) /\
  (forall tie' requester,
     details tie' (fst (leaveRoom tie db rid uid)) rid requester = NotFound).
Proof.
  intros Hroom Hone Huser.
  assert (Hin : In membership (roomMembers db) /\ rm_room membership = rid).
  { apply find_in_room. rewrite Hone. now left. }
  destruct Hin as [Hin Hmr].
  destruct (findOne_is_some db rid uid membership Hin Hmr Huser) as (m' & Hm').
  assert (Hsorted : sortByJoinedAt tie [membership] = [membership]) by reflexivity.
  unfold leaveRoom. rewrite Hroom, Hm', Hone, Hsorted. simpl.
  repeat split.
  - intros m Hm. apply filter_In in Hm as [_ Hm].
    now apply negb_true_iff, Nat.eqb_neq in Hm.
  - intros m Hm. apply filter_In in Hm as [_ Hm].
    now apply negb_true_iff, Nat.eqb_neq in Hm.
  - intros r Hr. apply filter_In in Hr as [_ Hr].
    now apply negb_true_iff, Nat.eqb_neq in Hr.
  - intros tie' requester. unfold details, Room_findById. simpl.
    destruct (find _ _) as [r|] eqn:E; [|reflexivity].
    apply find_some in E as [Hr Hid]. apply filter_In in Hr as [_ Hr].
    rewrite Hid in Hr. discriminate.
Qed.

Lemma last_leave_deletes_everything_witness :
  Room_findById soloDb 0 = Some demoRoom /\
  RoomMember_find soloDb 0 = [mkRoomMember 1 0 1 owner_role online 100%Z] /\
  snd (leaveRoom collectionOrder soloDb 0 1) = Json 200 Deleted /\
  (forall m, In m (messages (fst (leaveRoom collectionOrder soloDb 0 1))) ->
     msg_room m <> 0) /\
  (forall m, In m (roomMembers (fst (leaveRoom collectionOrder soloDb 0 1))) ->
     rm_room m <> 0) /\
  (forall r, In r (rooms (fst (leaveRoom collectionOrder soloDb 0 1))) -> room_id r <> 0) /\
  (forall tie' requester,
     details tie' (fst (leaveRoom collectionOrder soloDb 0 1)) 0 requester = NotFound).
Proof.
  split; [reflexivity|]. split; [reflexivity|].
  apply (last_leave_deletes_everything collectionOrder soloDb 0 1 demoRoom
           (mkRoomMember 1 0 1 owner_role online 100%Z));
    reflexivity.
Defined.

(** C3, as stated, fails: the handler sorts the members on [joinedAt] alone
    and names no second key, so the order of members with equal dates is
    the store's.  In [tiedDb] the members 2 and 3 joined at the same date;
    when the owner leaves, the successor is user 2 if the store returns
    equal dates in the order of the collection, and user 3 if it returns
    them in the reverse order. *)
Lemma successor_not_determined :
  ~ (forall (tie tie' : TieOrder RoomMember) db rid uid room,
       reachable db -> Room_findById db rid = Some room -> owner room = uid ->
       2 <= List.length (RoomMember_find db rid) ->
       snd (leaveRoom tie db rid uid) = snd (leaveRoom tie' db rid uid)).
Proof.
  intros H.
  assert (Hr : reachable tiedDb) by (exists demoUsers; eexists; reflexivity).
  assert (Hlen : 2 <= List.length (RoomMember_find tiedDb 0)) by (simpl; lia).
  specialize (H collectionOrder reverseOrder tiedDb 0 1 demoRoom Hr eq_refl eq_refl Hlen).
  vm_compute in H. discriminate H.
Qed.

(** C3, amended. When the owner of a room with at least two memberships
    leaves, the successor is a remaining member whose joining date is the
    least among the remaining members: the first of them in the sorted list
    that the store returns.  The answer names the successor, the room's
    owner field is set to the successor, the successor's membership takes
    the role owner and is otherwise unchanged, and the membership of the
    leaving user is deleted.  Among remaining members with the same least
    date the store's order decides; if the store returns equal dates in the
    order of the collection, it is the one stored first. *)
Theorem ownership_transfer (tie : TieOrder RoomMember) (db : Db) (rid uid : nat)
    (room : Room) :
  reachable db ->
  Room_findById db rid = Some room -> owner room = uid ->
  2 <= List.length (RoomMember_find db rid) ->
  exists membership new,
    RoomMember_findOne db rid uid = Some membership /\
    In new (RoomMember_find db rid) /\ rm_user new <> uid /\
    (forall y, In y (RoomMember_find db rid) -> rm_user y <> uid ->
       (joinedAt new <= joinedAt y)%Z) /\
    find (fun m => negb (rm_user m =? uid))
         (sortByJoinedAt tie (RoomMember_find db rid)) = Some new /\
    ((forall a b, tie a b = true) ->
     forall y, In y (RoomMember_find db rid) -> rm_user y <> uid ->
       joinedAt y = joinedAt new -> rm_id new <= rm_id y) /\
    snd (leaveRoom tie db rid uid) = Json 200 (Remaining rid (rm_user new)) /\
    Room_findById (fst (leaveRoom tie db rid uid)) rid
      = Some (mkRoom rid (room_name room) (description room) (roomCode room)
                     (rm_user new) (maxMembers room) (isPrivate room)) /\
    RoomMember_findOne (fst (leaveRoom tie db rid uid)) rid (rm_user new)
      = Some (mkRoomMember (rm_id new) rid (rm_user new) owner_role
                           (status new) (joinedAt new)) /\
    RoomMember_findOne (fst (leaveRoom tie db rid uid)) rid uid = None /\
    (forall m, In m (roomMembers (fst (leaveRoom tie db rid uid))) ->
       rm_id m <> rm_id membership).
Proof.
  intros Hreach Hfind Hown Hlen.
  pose proof (reachable_Inv _ Hreach) as HI. destruct HI as [HS HO].
  pose proof (findById_some _ _ _ Hfind) as [Hroom Hid].
  destruct (owner_exists _ _ HO room Hroom) as (m0 & Hm0 & Hm0r & _ & Hm0u).
  destruct (findOne_is_some db rid uid m0 Hm0) as (membership & Hmem);
    [congruence|congruence|].
  pose proof (findOne_some _ _ _ _ Hmem) as (Hin & Hmr & Hmu).
  assert (Hmany : List.length (sortByJoinedAt tie (filter (inRoom rid) (roomMembers db))) <> 1).
  { rewrite sort_length. unfold RoomMember_find in Hlen. lia. }
  destruct (successor_exists _ _ _ HS tie rid uid membership Hin Hmr Hmu Hmany)
    as (new & Hsucc & Hnew & Hnr & Hnu).
  assert (Heq : leaveRoom tie db rid uid =
    (RoomMember_deleteOne
       (RoomMember_save (Room_save db (setOwner room (rm_user new)))
                        (setRole new owner_role)) membership,
     Json 200 (Remaining rid (rm_user new)))).
  { unfold leaveRoom. rewrite Hfind, Hmem. unfold RoomMember_find.
    apply Nat.eqb_neq in Hmany. rewrite Hmany.
    rewrite (proj2 (Nat.eqb_eq _ _) Hown), Hsucc. simpl. now rewrite Hid. }
  pose proof (leaveRoom_Inv tie db rid uid (conj HS HO)) as HI'.
  rewrite Heq in *. destruct HI' as [HS' _]. simpl fst in *. simpl snd.
  set (db' := RoomMember_deleteOne _ membership) in *.
  assert (Hids : rm_id new <> rm_id membership).
  { intros Hx. apply Hnu. rewrite <- Hmu. f_equal.
    now apply (member_id_inj _ _ _ HS). }
  assert (Hnew' : In (setRole new owner_role) (roomMembers db')).
  { apply filter_In. split.
    - now apply (replaceAt_hit rm_id _ _ _ new).
    - simpl. now apply negb_true_iff, Nat.eqb_neq. }
  exists membership, new.
  split; [exact Hmem|]. split; [apply find_in_room; auto|]. split; [assumption|].
  split; [|split; [|split; [|split; [|split; [|split; [|split]]]]]].
  - intros y Hy Hyu. apply find_in_room in Hy as [Hy Hyr].
    now apply (successor_minimal db tie rid uid).
  - exact Hsucc.
  - intros Htie y Hy Hyu Hdate. apply find_in_room in Hy as [Hy Hyr].
    now apply (successor_stored_first db HS tie rid uid new Htie Hsucc).
  - reflexivity.
  - rewrite <- Hid.
    apply (findById_unique db' HS' (setOwner room (rm_user new))).
    now apply (replaceAt_hit room_id _ _ _ room).
  - rewrite <- Hnr.
    apply (findOne_unique db' HS' (setRole new owner_role)). exact Hnew'.
  - destruct (RoomMember_findOne db' rid uid) as [x|] eqn:E; [|reflexivity].
    exfalso. apply findOne_some in E as (Hx & Hxr & Hxu).
    apply filter_In in Hx as [Hx Hxid]. apply negb_true_iff, Nat.eqb_neq in Hxid.
    apply replaceAt_In in Hx as [[-> _]|[Hx _]].
    + simpl in Hxu. contradiction.
    + simpl in Hx. apply Hxid. f_equal.
      apply (membership_unique _ _ _ HS); solve [assumption | congruence].
  - intros m Hm. apply filter_In in Hm as [_ Hm].
    now apply negb_true_iff, Nat.eqb_neq in Hm.
Qed.

Lemma ownership_transfer_witness :
  reachable tiedDb /\
  Room_findById tiedDb 0 = Some demoRoom /\ owner demoRoom = 1 /\
  2 <= List.length (RoomMember_find tiedDb 0) /\
  snd (leaveRoom collectionOrder tiedDb 0 1) = Json 200 (Remaining 0 2) /\
  snd (leaveRoom reverseOrder tiedDb 0 1) = Json 200 (Remaining 0 3) /\
  exists membership new,
    RoomMember_findOne tiedDb 0 1 = Some membership /\
    In new (RoomMember_find tiedDb 0) /\ rm_user new <> 1 /\
    (forall y, In y (RoomMember_find tiedDb 0) -> rm_user y <> 1 ->
       (joinedAt new <= joinedAt y)%Z) /\
    find (fun m => negb (rm_user m =? 1))
         (sortByJoinedAt collectionOrder (RoomMember_find tiedDb 0)) = Some new /\
    ((forall a b : RoomMember, collectionOrder a b = true) ->
     forall y, In y (RoomMember_find tiedDb 0) -> rm_user y <> 1 ->
       joinedAt y = joinedAt new -> rm_id new <= rm_id y) /\
    snd (leaveRoom collectionOrder tiedDb 0 1) = Json 200 (Remaining 0 (rm_user new)) /\
    Room_findById (fst (leaveRoom collectionOrder tiedDb 0 1)) 0
      = Some (mkRoom 0 (room_name demoRoom) (description demoRoom) (roomCode demoRoom)
                     (rm_user new) (maxMembers demoRoom) (isPrivate demoRoom)) /\
    RoomMember_findOne (fst (leaveRoom collectionOrder tiedDb 0 1)) 0 (rm_user new)
      = Some (mkRoomMember (rm_id new) 0 (rm_user new) owner_role
                           (status new) (joinedAt new)) /\
    RoomMember_findOne (fst (leaveRoom collectionOrder tiedDb 0 1)) 0 1 = None /\
    (forall m, In m (roomMembers (fst (leaveRoom collectionOrder tiedDb 0 1))) ->
       rm_id m <> rm_id membership).
Proof.
  assert (Hr : reachable tiedDb) by (exists demoUsers; eexists; reflexivity).
  split; [exact Hr|]. split; [reflexivity|]. split; [reflexivity|].
  split; [simpl; lia|]. split; [reflexivity|]. split; [reflexivity|].
  apply (ownership_transfer collectionOrder tiedDb 0 1 demoRoom Hr);
    [reflexivity|reflexivity|simpl; lia].
Defined.

(** ** Joining *)

Lemma joinFound_full (db : Db) (room : Room) (rid uid : nat) (now : Z) :
  snd (joinFound db room rid uid now) = Full <->
  (maxMembers room <= inject_Z (RoomMember_countDocuments db rid))%Q.
Proof.
  unfold joinFound.
  destruct (full_guard (RoomMember_countDocuments db rid) (maxMembers room))
    as [[Hge ->]|[Hlt ->]].
  - simpl. split; [intros _; exact Hge|reflexivity].
  - destruct (RoomMember_findOne db rid uid); simpl;
      (split; [discriminate|intros Hge; exfalso; apply (Qlt_not_le _ _ Hlt Hge)]).
Qed.

Lemma count_replace (db : Db) (m m' : RoomMember) (rid : nat) :
  Structure (rooms db) (roomMembers db) (nextId db) ->
  In m (roomMembers db) -> memberKey m' = memberKey m ->
  RoomMember_countDocuments (RoomMember_save db m') rid =
  RoomMember_countDocuments db rid.
Proof.
  intros HS Hin Hk. unfold RoomMember_countDocuments, RoomMember_find. simpl.
  rewrite filter_map_commute, length_map; [reflexivity|].
  intros x Hx. destruct (Nat.eqb_spec (rm_id x) (rm_id m')) as [Heq|]; [|reflexivity].
  unfold memberKey in Hk. injection Hk as Hid Hr Hu.
  assert (x = m) by (apply (member_id_inj _ _ _ HS); congruence). subst x.
  unfold inRoom. now rewrite Hr.
Qed.

Lemma joinFound_count (db : Db) (room : Room) (rid uid : nat) (now : Z) :
  Structure (rooms db) (roomMembers db) (nextId db) ->
  RoomMember_countDocuments (fst (joinFound db room rid uid now)) rid =
    RoomMember_countDocuments db rid \/
  (RoomMember_countDocuments (fst (joinFound db room rid uid now)) rid =
     (RoomMember_countDocuments db rid + 1)%Z /\
   (inject_Z (RoomMember_countDocuments db rid) < maxMembers room)%Q).
Proof.
  intros HS. unfold joinFound.
  destruct (full_guard (RoomMember_countDocuments db rid) (maxMembers room))
    as [[Hge ->]|[Hlt ->]]; [now left|].
  destruct (RoomMember_findOne db rid uid) as [m|] eqn:E.
  - left. apply findOne_some in E as (Hin & _). now apply (count_replace db m).
  - right. split; [|exact Hlt].
    unfold RoomMember_countDocuments, RoomMember_find. simpl.
    rewrite filter_snoc, length_app. unfold inRoom at 2. simpl.
    rewrite Nat.eqb_refl. simpl. lia.
Qed.

(** C4, as stated, fails: in the room of [crampedDb], whose capacity is -1
    and which has one member, a join is refused with "Room is full" although
    the count of memberships is not equal to the capacity. *)
Lemma join_full_beyond_equality :
  ~ (forall db rid uid now room,
       reachable db -> Room_findById db rid = Some room ->
       (snd (joinById db rid uid now) = Full <->
        (inject_Z (RoomMember_countDocuments db rid) == maxMembers room)%Q)).
Proof.
  intros H.
  assert (Hr : reachable crampedDb) by (exists demoUsers; eexists; reflexivity).
  destruct (H crampedDb 0 2 101%Z
              (mkRoom 0 "Test" "" "SSSSSS" 1 (-1)%Q false) Hr eq_refl) as [Hfull _].
  specialize (Hfull eq_refl). vm_compute in Hfull. discriminate Hfull.
Qed.

(** The count of a room can exceed a capacity that is not a whole number:
    the room of [fractionalDb], of capacity 1.5, has two members, and the
    next join is refused. *)
Example join_beyond_fractional_capacity :
  reachable fractionalDb /\
  Room_findById fractionalDb 0 = Some (mkRoom 0 "Test" "" "SSSSSS" 1 1.5%Q false) /\
  RoomMember_countDocuments fractionalDb 0 = 2%Z /\
  snd (joinById fractionalDb 0 3 102%Z) = Full.
Proof.
  split; [exists demoUsers; eexists; reflexivity|]. repeat split.
Qed.

(** C4, amended. For an existing room of a reachable state, a join (by id, or
    by a code that resolves to the room) fails with "Room is full" exactly
    when the count of memberships before the call is at least the capacity.
    The capacity is any number that the creation stored: the count is 1 (the
    creator alone), or the count less one is below the capacity; so for a
    capacity that is a whole number n >= 1 the count never exceeds n, and "at
    least" is "equal".  After a join the count is the count before, or one
    more, and then the count before was below the capacity. *)
Theorem join_capacity (db : Db) (rid uid : nat) (room : Room) (now : Z) :
  reachable db -> Room_findById db rid = Some room ->
  (snd (joinById db rid uid now) = Full <->
     (maxMembers room <= inject_Z (RoomMember_countDocuments db rid))%Q) /\
  (forall code, lookupByCode db code = Json 200 room ->
     (snd (joinByCode db uid code now) = Full <->
        (maxMembers room <= inject_Z (RoomMember_countDocuments db rid))%Q)) /\
  ((RoomMember_countDocuments db rid <= 1)%Z \/
   (inject_Z (RoomMember_countDocuments db rid - 1) < maxMembers room)%Q) /\
  (forall n : Z, (maxMembers room == inject_Z n)%Q -> (1 <= n)%Z ->
     (RoomMember_countDocuments db rid <= n)%Z /\
     ((maxMembers room <= inject_Z (RoomMember_countDocuments db rid))%Q <->
      RoomMember_countDocuments db rid = n)) /\
  (RoomMember_countDocuments (fst (joinById db rid uid now)) rid
     = RoomMember_countDocuments db rid \/
   (RoomMember_countDocuments (fst (joinById db rid uid now)) rid
      = (RoomMember_countDocuments db rid + 1)%Z /\
    (inject_Z (RoomMember_countDocuments db rid) < maxMembers room)%Q)) /\
  (forall code, lookupByCode db code = Json 200 room ->
     RoomMember_countDocuments (fst (joinByCode db uid code now)) rid
       = RoomMember_countDocuments db rid \/
     (RoomMember_countDocuments (fst (joinByCode db uid code now)) rid
        = (RoomMember_countDocuments db rid + 1)%Z /\
      (inject_Z (RoomMember_countDocuments db rid) < maxMembers room)%Q)).
Proof.
  intros Hreach Hfind. destruct (reachable_Inv _ Hreach) as [HS HO].
  pose proof (findById_some _ _ _ Hfind) as [Hroom Hid].
  assert (Hcap : withinCapacity (RoomMember_countDocuments db rid) (maxMembers room)).
  { rewrite <- Hid. apply (capacity_respected _ _ _ HS room Hroom). }
  split; [|split; [|split; [|split; [|split]]]].
  - unfold joinById. rewrite Hfind. apply joinFound_full.
  - intros code Hcode. unfold joinByCode. rewrite Hcode, Hid. apply joinFound_full.
  - exact Hcap.
  - intros n Hn Hpos.
    assert (Hle : (RoomMember_countDocuments db rid <= n)%Z).
    { destruct Hcap as [Hcap|Hcap]; [lia|].
      rewrite Hn in Hcap. rewrite <- Zlt_Qlt in Hcap. lia. }
    split; [exact Hle|]. rewrite Hn, <- Zle_Qle. lia.
  - unfold joinById. rewrite Hfind. now apply joinFound_count.
  - intros code Hcode. unfold joinByCode. rewrite Hcode, Hid. now apply joinFound_count.
Qed.

Lemma join_capacity_witness :
  reachable fullDb /\
  Room_findById fullDb 0 = Some (mkRoom 0 "Test" "" "SSSSSS" 1 1%Q false) /\
  snd (joinById fullDb 0 2 101%Z) = Full /\
  RoomMember_countDocuments fullDb 0 = 1%Z /\
  withinCapacity (RoomMember_countDocuments fractionalDb 0) 1.5%Q.
Proof.
  assert (Hr : reachable fullDb) by (exists demoUsers; eexists; reflexivity).
  assert (Hr' : reachable fractionalDb) by (exists demoUsers; eexists; reflexivity).
  destruct (join_capacity fullDb 0 2 (mkRoom 0 "Test" "" "SSSSSS" 1 1%Q false)
              101%Z Hr eq_refl) as (Hfull & _ & _ & Heq & _).
  destruct (join_capacity fractionalDb 0 3 (mkRoom 0 "Test" "" "SSSSSS" 1 1.5%Q false)
              102%Z Hr' eq_refl) as (_ & _ & Hcap & _).
  split; [exact Hr|]. split; [reflexivity|]. split; [|split].
  - apply Hfull. vm_compute. discriminate.
  - apply (Heq 1%Z); [reflexivity|lia|]. vm_compute. discriminate.
  - exact Hcap.
Defined.

(** C5: the code does not do what the claim says.  A user who holds a
    membership in a room whose count has reached the capacity and who joins
    again (by id, or by a code that resolves to the room) is answered "Room
    is full" and the store is left as it is: the capacity check precedes
    the search for the existing membership, whose reuse is the next branch
    of the same handler. *)
Theorem rejoin_refused_at_capacity
    (db : Db) (rid uid : nat) (room : Room) (m : RoomMember) (now : Z) :
  reachable db ->
  Room_findById db rid = Some room ->
  RoomMember_findOne db rid uid = Some m ->
  (maxMembers room <= inject_Z (RoomMember_countDocuments db rid))%Q ->
  joinById db rid uid now = (db, Full) /\
  (forall code, lookupByCode db code = Json 200 room ->
     joinByCode db uid code now = (db, Full)).
Proof.
  intros _ Hfind _ Hge.
  pose proof (findById_some _ _ _ Hfind) as [_ Hid].
  assert (Hjoin : joinFound db room rid uid now = (db, Full)).
  { unfold joinFound.
    destruct (full_guard (RoomMember_countDocuments db rid) (maxMembers room))
      as [[_ ->]|[Hlt _]]; [reflexivity|].
    exfalso. apply (Qlt_not_le _ _ Hlt Hge). }
  split.
  - unfold joinById. now rewrite Hfind.
  - intros code Hcode. unfold joinByCode. now rewrite Hcode, Hid.
Qed.

Lemma rejoin_refused_at_capacity_witness :
  reachable fullDb /\
  Room_findById fullDb 0 = Some (mkRoom 0 "Test" "" "SSSSSS" 1 1%Q false) /\
  RoomMember_findOne fullDb 0 1 = Some (mkRoomMember 1 0 1 owner_role online 100%Z) /\
  (1 <= inject_Z (RoomMember_countDocuments fullDb 0))%Q /\
  joinById fullDb 0 1 101%Z = (fullDb, Full) /\
  joinByCode fullDb 1 (Some "SSSSSS") 101%Z = (fullDb, Full).
Proof.
  assert (Hr : reachable fullDb) by (exists demoUsers; eexists; reflexivity).
  assert (Hge : (1 <= inject_Z (RoomMember_countDocuments fullDb 0))%Q)
    by (vm_compute; discriminate).
  split; [exact Hr|]. split; [reflexivity|]. split; [reflexivity|].
  split; [exact Hge|].
  destruct (rejoin_refused_at_capacity fullDb 0 1
              (mkRoom 0 "Test" "" "SSSSSS" 1 1%Q false)
              (mkRoomMember 1 0 1 owner_role online 100%Z) 101%Z
              Hr eq_refl eq_refl Hge) as [Hid Hcode].
  split; [exact Hid|]. apply Hcode. reflexivity.
Defined.

(** X22. In a room of a reachable state whose count of memberships is below
    its capacity, a user who already holds a membership and joins again (by
    id, or by a code that resolves to the room) gets the answer 200 with the
    room and the existing membership, marked online; no membership is
    created (the collection keeps its ids, rooms and users, and holds that
    single membership for the pair), and one more join gives the same
    membership and leaves the store as it is. *)
Theorem rejoin_idempotent
    (db : Db) (rid uid : nat) (room : Room) (m : RoomMember) (now now' : Z) :
  reachable db ->
  Room_findById db rid = Some room ->
  RoomMember_findOne db rid uid = Some m ->
  (inject_Z (RoomMember_countDocuments db rid) < maxMembers room)%Q ->
  joinById db rid uid now
    = (RoomMember_save db (setStatus m online), Json 200 (room, setStatus m online)) /\
  (forall code, lookupByCode db code = Json 200 room ->
     joinByCode db uid code now
       = (RoomMember_save db (setStatus m online),
          Json 200 (room, setStatus m online))) /\
  map memberKey (roomMembers (RoomMember_save db (setStatus m online)))
    = map memberKey (roomMembers db) /\
  filter (isMembership rid uid) (roomMembers (RoomMember_save db (setStatus m online)))
    = [setStatus m online] /\
  joinById (RoomMember_save db (setStatus m online)) rid uid now'
    = (RoomMember_save db (setStatus m online), Json 200 (room, setStatus m online)) /\
  setStatus m online
    = mkRoomMember (rm_id m) rid uid (role m) online (joinedAt m).
Proof.
  intros Hreach Hfind Hmem Hlt.
  destruct (reachable_Inv _ Hreach) as [HS HO].
  pose proof (findById_some _ _ _ Hfind) as [Hroom Hid].
  pose proof (findOne_some _ _ _ _ Hmem) as (Hin & Hmr & Hmu).
  set (m' := setStatus m online).
  set (db' := RoomMember_save db m').
  assert (Hfree : Qle_bool (maxMembers room)
                    (inject_Z (RoomMember_countDocuments db rid)) = false)
    by now apply Qle_bool_false.
  assert (Hjoin : joinFound db room rid uid now = (db', Json 200 (room, m'))).
  { unfold joinFound. now rewrite Hmem, Hfree. }
  assert (HS' : Structure (rooms db') (roomMembers db') (nextId db'))
    by now apply (Structure_replace_member _ _ _ HS m).
  assert (Hin' : In m' (roomMembers db'))
    by now apply (replaceAt_hit rm_id _ _ _ m).
  assert (Hmem' : RoomMember_findOne db' rid uid = Some m').
  { rewrite <- Hmr, <- Hmu. apply (findOne_unique db' HS' m' Hin'). }
  split; [|split; [|split; [|split; [|split]]]];
    [| | | | |unfold m', setStatus; now rewrite Hmr, Hmu].
  - unfold joinById. now rewrite Hfind.
  - intros code Hcode. unfold joinByCode. now rewrite Hcode, Hid.
  - apply (replaceAt_same rm_id memberKey). intros x Hx Heq.
    assert (x = m) by (apply (member_id_inj _ _ _ HS); auto). now subst x.
  - apply filter_singleton.
    + apply (members_NoDup _ _ _ HS').
    + exact Hin'.
    + unfold isMembership. simpl. now rewrite Hmr, Hmu, !Nat.eqb_refl.
    + intros x Hx Hp. unfold isMembership in Hp.
      apply andb_true_iff in Hp as [Hxr Hxu]. apply Nat.eqb_eq in Hxr, Hxu.
      apply (membership_unique _ _ _ HS'); simpl; solve [assumption | congruence].
  - unfold joinById. change (Room_findById db' rid) with (Room_findById db rid).
    rewrite Hfind. unfold joinFound. rewrite Hmem'.
    pose proof (count_replace db m m' rid HS Hin eq_refl) as Hcount.
    fold db' in Hcount. rewrite Hcount, Hfree.
    f_equal. unfold RoomMember_save at 1. change (setStatus m' online) with m'.
    replace (map (fun x => if rm_id x =? rm_id m' then m' else x) (roomMembers db'))
      with (roomMembers db'); [reflexivity|].
    rewrite <- (map_id (roomMembers db')) at 1. apply map_ext_in.
    intros x Hx. destruct (Nat.eqb_spec (rm_id x) (rm_id m')); [|reflexivity].
    now apply (member_id_inj _ _ _ HS').
Qed.

Lemma rejoin_idempotent_witness :
  reachable demoDb /\
  Room_findById demoDb 0 = Some demoRoom /\
  RoomMember_findOne demoDb 0 2
    = Some (mkRoomMember 2 0 2 member_role online 101%Z) /\
  (inject_Z (RoomMember_countDocuments demoDb 0) < maxMembers demoRoom)%Q /\
  joinById demoDb 0 2 200%Z
    = (RoomMember_save demoDb (mkRoomMember 2 0 2 member_role online 101%Z),
       Json 200 (demoRoom, mkRoomMember 2 0 2 member_role online 101%Z)).
Proof.
  split; [exact demoDb_reachable|]. split; [reflexivity|]. split; [reflexivity|].
  split; [reflexivity|].
  apply (rejoin_idempotent demoDb 0 2 demoRoom
           (mkRoomMember 2 0 2 member_role online 101%Z) 200%Z 201%Z
           demoDb_reachable eq_refl eq_refl eq_refl).
Defined.

(** ** Messages *)

(** C8, as stated, fails: a user without membership who sends a blank
    message is answered "Message content is required" (400), not the
    failure for non-members; the content is checked first. *)
Lemma sendMessage_validates_first :
  ~ (forall db rid uid body now,
       RoomMember_findOne db rid uid = None ->
       exists st, snd (sendMessage db rid uid body now) = NotMember st).
Proof.
  intros H. destruct (H demoDb 0 9 (Some "   ") 104%Z eq_refl) as (st & Hst).
  discriminate Hst.
Qed.

(** C8, amended. The message handler first answers 400 "Message content is
    required" when the content is absent or trims to the empty string; then
    404 when the room does not exist; then 403 "You are not a member of this
    room" when the author holds no membership in the room; otherwise it
    stores the message with the trimmed content and the server's date,
    emits it to the room, and answers 201 with the stored message, its
    author populated.  A failure leaves the store as it is. *)
Theorem sendMessage_contract (db : Db) (rid uid : nat) (body : option string) (now : Z) :
  (body = None \/ (exists c, body = Some c /\ trim c = EmptyString) ->
     sendMessage db rid uid body now
       = (db, ValidationError "Message content is required")) /\
  (forall c, body = Some c -> trim c <> EmptyString ->
     (Room_findById db rid = None ->
        sendMessage db rid uid body now = (db, NotFound)) /\
     (Room_findById db rid <> None -> RoomMember_findOne db rid uid = None ->
        sendMessage db rid uid body now = (db, NotMember 403)) /\
     (Room_findById db rid <> None -> RoomMember_findOne db rid uid <> None ->
        let doc := mkMessage (nextId db) rid uid (trim c) now in
        let message := mkPopulatedMessage doc (User_findById db uid) in
        sendMessage db rid uid body now
          = (mkDb (users db) (rooms db) (roomMembers db) (messages db ++ [doc])
                  (S (nextId db)) (emitted db ++ [(rid, message)]),
             Json 201 message))).
Proof.
  split.
  - intros [->|(c & -> & Hblank)]; [reflexivity|].
    unfold sendMessage. simpl. rewrite Hblank. now rewrite orb_true_r.
  - intros c -> Hc. unfold sendMessage.
    assert (Hfalsy : falsy (Some c) || falsy (option_map trim (Some c)) = false).
    { simpl. destruct c as [|a c]; [now elim Hc|].
      destruct (trim (String a c)); [now elim Hc|reflexivity]. }
    rewrite Hfalsy. repeat split.
    + intros ->. reflexivity.
    + intros Hroom Hmem. rewrite Hmem.
      destruct (Room_findById db rid); [reflexivity|now elim Hroom].
    + intros Hroom Hmem.
      destruct (Room_findById db rid); [|now elim Hroom].
      destruct (RoomMember_findOne db rid uid); [reflexivity|now elim Hmem].
Qed.

Lemma sendMessage_contract_witness :
  sendMessage demoDb 0 9 (Some "   ") 104%Z
    = (demoDb, ValidationError "Message content is required") /\
  sendMessage demoDb 7 1 (Some "hi") 104%Z = (demoDb, NotFound) /\
  sendMessage demoDb 0 9 (Some "hi") 104%Z = (demoDb, NotMember 403) /\
  snd (sendMessage demoDb 0 2 (Some " hi there ") 104%Z)
    = Json 201 (mkPopulatedMessage (mkMessage 5 0 2 "hi there" 104%Z) None).
Proof.
  split; [|split; [|split]].
  - apply (proj1 (sendMessage_contract demoDb 0 9 (Some "   ") 104%Z)).
    right. exists "   ". split; reflexivity.
  - apply (proj2 (sendMessage_contract demoDb 7 1 (Some "hi") 104%Z) "hi" eq_refl).
    + discriminate.
    + reflexivity.
  - apply (proj2 (sendMessage_contract demoDb 0 9 (Some "hi") 104%Z) "hi" eq_refl).
    + discriminate.
    + discriminate.
    + reflexivity.
  - destruct (proj2 (sendMessage_contract demoDb 0 2 (Some " hi there ") 104%Z)
                " hi there " eq_refl) as (_ & _ & Hok).
    + discriminate.
    + rewrite Hok; [reflexivity|discriminate|discriminate].
Defined.

(** ** Details *)

(** C9. For an existing room of a reachable state, the details handler
    answers 403 "You are not a member of this room" exactly when the
    requester holds no membership in the room; otherwise it answers 200 with
    the room, the list of the memberships stored for the room (every one of
    them, once, and no membership of another room) in ascending order of
    their joining dates, each with its user populated, and the membership of
    the requester. *)
Theorem details_contract (tie : TieOrder RoomMember) (db : Db) (rid uid : nat)
    (room : Room) :
  reachable db -> Room_findById db rid = Some room ->
  (details tie db rid uid = Forbidden <->
     (forall m, In m (roomMembers db) -> rm_room m = rid -> rm_user m <> uid)) /\
  (forall m, In m (roomMembers db) -> rm_room m = rid -> rm_user m = uid ->
     exists members,
       details tie db rid uid = Json 200 (room, map (populateUser db) members, m) /\
       Permutation members (RoomMember_find db rid) /\
       StronglySorted earlier members /\
       map pmem_doc (map (populateUser db) members) = members /\
       (forall x, In x members <-> In x (roomMembers db) /\ rm_room x = rid) /\
       NoDup members /\
       (forall x, In x members ->
          pmem_user (populateUser db x) =
            option_map (fun u => mkUser (user_id u) (user_name u) (user_email u) None)
                       (User_findById db (rm_user x)))).
Proof.
  intros Hreach Hfind. destruct (reachable_Inv _ Hreach) as [HS _].
  unfold details. rewrite Hfind. split.
  - split.
    + intros H. destruct (RoomMember_findOne db rid uid) eqn:E; [discriminate|].
      now apply findOne_none.
    + intros H. destruct (RoomMember_findOne db rid uid) as [m|] eqn:E; [|reflexivity].
      apply findOne_some in E as (Hin & Hr & Hu). now elim (H m Hin Hr).
  - intros m Hin Hr Hu.
    pose proof (findOne_unique db HS m Hin) as Hm. rewrite Hr, Hu in Hm. rewrite Hm.
    exists (sortByJoinedAt tie (RoomMember_find db rid)).
    split; [reflexivity|]. split; [apply sort_perm|]. split; [apply sort_sorted|].
    split; [|split; [|split]].
    + rewrite map_map. simpl. apply map_id.
    + intros x. rewrite sort_In. apply find_in_room.
    + apply sort_NoDup. unfold RoomMember_find.
      apply NoDup_filter, (members_NoDup _ _ _ HS).
    + intros x _. reflexivity.
Qed.

Lemma details_contract_witness :
  reachable demoDb /\ Room_findById demoDb 0 = Some demoRoom /\
  details collectionOrder demoDb 0 9 = Forbidden /\
  exists members,
    details collectionOrder demoDb 0 3
      = Json 200 (demoRoom, map (populateUser demoDb) members,
                  mkRoomMember 3 0 3 member_role online 102%Z) /\
    Permutation members (RoomMember_find demoDb 0) /\
    StronglySorted earlier members /\
    map pmem_doc (map (populateUser demoDb) members) = members /\
    (forall x, In x members <-> In x (roomMembers demoDb) /\ rm_room x = 0) /\
    NoDup members.
Proof.
  split; [exact demoDb_reachable|]. split; [reflexivity|].
  destruct (details_contract collectionOrder demoDb 0 9 demoRoom demoDb_reachable eq_refl)
    as [Hforbid _].
  destruct (details_contract collectionOrder demoDb 0 3 demoRoom demoDb_reachable eq_refl)
    as [_ Hok].
  split.
  - apply Hforbid. intros m Hm _. simpl in Hm.
    destruct Hm as [<-|[<-|[<-|[]]]]; discriminate.
  - destruct (Hok (mkRoomMember 3 0 3 member_role online 102%Z))
      as (members & H1 & H2 & H3 & H4 & H5 & H6 & _);
      [simpl; auto|reflexivity|reflexivity|].
    exists members.
    split; [exact H1|]. split; [exact H2|]. split; [exact H3|].
    split; [exact H4|]. split; [exact H5|exact H6].
Defined.

(** ** Join codes *)

Section Normalisation.

Lemma upperChar_whitespace (c : ascii) :
  isWhiteSpace (upperChar c) = isWhiteSpace c.
Proof.
  destruct c as [b0 b1 b2 b3 b4 b5 b6 b7].
  destruct b0, b1, b2, b3, b4, b5, b6, b7; reflexivity.
Qed.

Variable f : ascii -> ascii.
Hypothesis f_whitespace : forall c, isWhiteSpace (f c) = isWhiteSpace c.

Lemma trimStart_mapChars (s : string) :
  trimStart (mapChars f s) = mapChars f (trimStart s).
Proof.
  induction s as [|c s IH]; simpl; [reflexivity|].
  rewrite f_whitespace. now destruct (isWhiteSpace c).
Qed.

Lemma trimEnd_mapChars (s : string) :
  trimEnd (mapChars f s) = mapChars f (trimEnd s).
Proof.
  induction s as [|c s IH]; simpl; [reflexivity|].
  rewrite IH, f_whitespace.
  destruct (trimEnd s); simpl; [|reflexivity].
  now destruct (isWhiteSpace c).
Qed.

Lemma trim_mapChars (s : string) : trim (mapChars f s) = mapChars f (trim s).
Proof. unfold trim. now rewrite trimStart_mapChars, trimEnd_mapChars. Qed.

End Normalisation.

Lemma trim_toUpperCase (s : string) : trim (toUpperCase s) = toUpperCase (trim s).
Proof. apply trim_mapChars, upperChar_whitespace. Qed.

(** The lookup depends on the input only through its normal form. *)
Lemma lookupByCode_normal (db : Db) (c : string) :
  lookupByCode db (Some c) =
    match toUpperCase (trim c) with
    | EmptyString => ValidationError "Room code is required"
    | String a k =>
        match Room_findOneByCode (rooms db) (String a k) with
        | None => NotFound
        | Some room => Json 200 room
        end
    end.
Proof.
  unfold lookupByCode. simpl.
  destruct c as [|a c]; [reflexivity|].
  destruct (trim (String a c)) as [|b t]; reflexivity.
Qed.

Lemma wellFormedCode_fixed (code : string) :
  wellFormedCode code -> toUpperCase code = code /\ trim code = code.
Proof.
  intros [_ Hall]. split.
  - apply (mapChars_fixed _ (fun c => memChar c characters)); [|assumption].
    apply characters_upper.
  - apply trim_fixed. revert Hall. apply allChars_impl, characters_not_space.
Qed.

(** C10. The join-by-code handler trims and upper-cases the code before the
    lookup: for a room of a reachable state, an input resolves to the room
    if and only if its trimmed, upper-cased form is the room's code; the join
    then proceeds on that room.  Stored codes are their own upper-case form,
    and two inputs that differ by the case of their letters resolve alike. *)
Theorem joinByCode_normalises
    (db : Db) (room : Room) (c : string) (uid : nat) (now : Z) :
  reachable db -> In room (rooms db) ->
  (lookupByCode db (Some c) = Json 200 room <->
     toUpperCase (trim c) = roomCode room) /\
  (toUpperCase (trim c) = roomCode room ->
     joinByCode db uid (Some c) now = joinFound db room (room_id room) uid now) /\
  toUpperCase (roomCode room) = roomCode room /\
  (forall c', toUpperCase c' = toUpperCase c ->
     lookupByCode db (Some c') = lookupByCode db (Some c)).
Proof.
  intros Hreach Hroom. destruct (reachable_Inv _ Hreach) as [HS _].
  pose proof (codes_wellFormed _ _ _ HS room Hroom) as Hwf.
  assert (Hres : toUpperCase (trim c) = roomCode room ->
                 lookupByCode db (Some c) = Json 200 room).
  { intros Heq. rewrite lookupByCode_normal, Heq.
    destruct (roomCode room) as [|a k] eqn:Ecode.
    - destruct Hwf as [Hlen _]. discriminate Hlen.
    - rewrite <- Ecode. now rewrite (findOneByCode_unique db HS room Hroom). }
  split; [|split; [|split]].
  - split; [|exact Hres].
    intros H. apply lookupByCode_some in H as (c0 & Hc0 & _ & _ & Hcode).
    injection Hc0 as <-. now symmetry.
  - intros Heq. unfold joinByCode. now rewrite (Hres Heq).
  - apply (wellFormedCode_fixed _ Hwf).
  - intros c' Hc'. rewrite !lookupByCode_normal.
    now rewrite <- !trim_toUpperCase, Hc'.
Qed.

Lemma joinByCode_normalises_witness :
  reachable demoDb /\ In demoRoom (rooms demoDb) /\
  lookupByCode demoDb (Some "  sSsSss ") = Json 200 demoRoom /\
  toUpperCase (roomCode demoRoom) = roomCode demoRoom.
Proof.
  assert (Hin : In demoRoom (rooms demoDb)) by (simpl; auto).
  split; [exact demoDb_reachable|]. split; [exact Hin|].
  destruct (joinByCode_normalises demoDb demoRoom "  sSsSss " 4 104%Z
              demoDb_reachable Hin) as (Hiff & _ & Hup & _).
  split; [apply Hiff; reflexivity|exact Hup].
Defined.

(** * Further properties *)

(** ** Shape of one step *)

Lemma replaceAt_ids {A : Type} (f : A -> nat) (k : nat) (v : A) (l : list A) :
  f v = k -> map f (replaceAt f k v l) = map f l.
Proof.
  intros Hv. apply replaceAt_same. intros x _ Hx. congruence.
Qed.

(** What a request does to the rooms, the messages, the events and the
    counter: nothing but keep the room ids; or delete one room with its
    messages; or append one message and one event. *)
Lemma handle_shape (db : Db) (rq : Request) :
  (messages (handle db rq) = messages db /\
   emitted (handle db rq) = emitted db /\
   nextId db <= nextId (handle db rq) /\
   (map room_id (rooms (handle db rq)) = map room_id (rooms db) \/
    exists room, rooms (handle db rq) = (rooms db ++ [room])%list)) \/
  (exists rid,
     rooms (handle db rq) = filter (fun r => negb (room_id r =? rid)) (rooms db) /\
     messages (handle db rq) = filter (fun m => negb (msg_room m =? rid)) (messages db) /\
     emitted (handle db rq) = emitted db /\
     nextId (handle db rq) = nextId db) \/
  (exists rid uid c now,
     trim c <> EmptyString /\ Room_findById db rid <> None /\
     rooms (handle db rq) = rooms db /\
     messages (handle db rq)
       = (messages db ++ [mkMessage (nextId db) rid uid (trim c) now])%list /\
     emitted (handle db rq)
       = (emitted db ++
          [(rid, mkPopulatedMessage (mkMessage (nextId db) rid uid (trim c) now)
                                    (User_findById db uid))])%list /\
     nextId (handle db rq) = S (nextId db)).
Proof.
  destruct rq; simpl.
  - left. unfold createRoom.
    destruct name as [[|c nm]|]; try solve [simpl; auto].
    destruct (generateRoomCode fuel (rooms db) rnd 0); simpl; [|auto].
    repeat split; auto. eauto.
  - left. unfold joinByCode. destruct (lookupByCode db code); [|simpl; auto].
    unfold joinFound. destruct (Qle_bool _ _); [simpl; auto|].
    destruct (RoomMember_findOne db (room_id body) userId); simpl; auto.
  - left. unfold joinById. destruct (Room_findById db roomId); [|simpl; auto].
    unfold joinFound. destruct (Qle_bool _ _); [simpl; auto|].
    destruct (RoomMember_findOne db roomId userId); simpl; auto.
  - unfold leaveRoom.
    destruct (Room_findById db roomId) as [room|] eqn:Er; [|left; simpl; auto].
    destruct (RoomMember_findOne db roomId userId); [|left; simpl; auto].
    apply findById_some in Er as [_ Hid].
    destruct (_ =? 1).
    + right. left. exists roomId. simpl. auto.
    + left. destruct (owner room =? userId); [|simpl; auto].
      destruct (find _ _); simpl; auto.
      repeat split; auto. left. now apply (replaceAt_ids room_id).
  - left. unfold renameRoom.
    destruct name as [[|c nm]|]; try solve [simpl; auto].
    destruct (Room_findById db roomId) as [room|] eqn:Er; [|simpl; auto].
    destruct (negb _); simpl; auto.
    repeat split; auto. left. now apply (replaceAt_ids room_id).
  - unfold sendMessage.
    destruct (falsy body || falsy (option_map trim body)) eqn:F; [left; simpl; auto|].
    destruct body as [c|]; [|left; simpl; auto].
    destruct (Room_findById db roomId) eqn:Er; [|left; simpl; auto].
    destruct (RoomMember_findOne db roomId userId); [|left; simpl; auto].
    right. right. exists roomId, userId, c, now. simpl.
    repeat split; try reflexivity; try congruence.
    apply orb_false_iff in F as [_ F]. simpl in F. intros Hc. now rewrite Hc in F.
Qed.

(** ** Trimming twice *)

Lemma trimEnd_idempotent (s : string) : trimEnd (trimEnd s) = trimEnd s.
Proof.
  induction s as [|c s IH]; simpl; [reflexivity|].
  destruct (trimEnd s) as [|d t] eqn:E.
  - destruct (isWhiteSpace c) eqn:W; simpl; [reflexivity|]. now rewrite W.
  - cbn [trimEnd]. cbn [trimEnd] in IH. now rewrite IH.
Qed.

Lemma trimEnd_head (c : ascii) (s : string) :
  isWhiteSpace c = false ->
  exists t, trimEnd (String c s) = String c t.
Proof.
  intros W. simpl. destruct (trimEnd s); [rewrite W|]; eauto.
Qed.

Lemma trimStart_cases (s : string) :
  trimStart s = EmptyString \/
  exists c t, trimStart s = String c t /\ isWhiteSpace c = false.
Proof.
  induction s as [|c s IH]; simpl; [now left|].
  destruct (isWhiteSpace c) eqn:W; [assumption|]. right. eauto.
Qed.

Lemma trim_idempotent (s : string) : trim (trim s) = trim s.
Proof.
  unfold trim. destruct (trimStart_cases s) as [E|(c & t & E & W)]; rewrite E.
  - reflexivity.
  - destruct (trimEnd_head c t W) as (u & Hu). rewrite Hu.
    cbn [trimStart]. rewrite W, <- Hu. apply trimEnd_idempotent.
Qed.

(** ** Messages of reachable states *)

Lemma MessagesOk_handle (db : Db) (rq : Request) :
  MessagesOk db -> MessagesOk (handle db rq).
Proof.
  intros [Hfresh Hsorted Hroom Hcontent].
  destruct (handle_shape db rq)
    as [(Hm & He & Hn & Hr)|[(rid & Hr & Hm & He & Hn)
                            |(rid & uid & c & now & Hc & Hex & Hr & Hm & He & Hn)]].
  - constructor; rewrite ?Hm, ?He; auto.
    + intros m Hin. specialize (Hfresh m Hin). lia.
    + intros m Hin. destruct (Hroom m Hin) as (r & Hin' & Hid).
      destruct Hr as [Hids|(room & ->)].
      * apply (in_map room_id) in Hin'. rewrite <- Hids in Hin'.
        apply in_map_iff in Hin' as (r' & Hid' & Hr'). exists r'. split; congruence.
      * exists r. split; [apply in_or_app; now left|assumption].
  - constructor; rewrite ?Hm, ?He, ?Hn, ?Hr.
    + intros m Hin. apply filter_In in Hin as [Hin _]. auto.
    + now apply StronglySorted_map_filter.
    + intros m Hin. apply filter_In in Hin as [Hin Hne].
      destruct (Hroom m Hin) as (r & Hin' & Hid). exists r. split; [|assumption].
      apply filter_In. split; [assumption|]. now rewrite Hid.
    + intros m Hin. apply filter_In in Hin as [Hin _]. auto.
  - constructor; rewrite ?Hm, ?He, ?Hn, ?Hr.
    + intros m Hin. apply in_app_or in Hin as [Hin|[<-|[]]].
      * specialize (Hfresh m Hin). lia.
      * simpl. lia.
    + rewrite map_app. simpl. apply StronglySorted_lt_snoc; [assumption|].
      intros i Hi. apply in_map_iff in Hi as (m & <- & Hin). auto.
    + intros m Hin. apply in_app_or in Hin as [Hin|[<-|[]]]; [auto|]. simpl.
      destruct (Room_findById db rid) as [r|] eqn:E; [|now elim Hex].
      apply findById_some in E as [Hin Hid]. eauto.
    + intros m Hin. apply in_app_or in Hin as [Hin|[<-|[]]]; [auto|]. simpl.
      split; [assumption|apply trim_idempotent].
Qed.

Lemma MessagesOk_reachable (db : Db) : reachable db -> MessagesOk db.
Proof.
  intros (us & rqs & ->). unfold run.
  assert (H0 : MessagesOk (emptyDb us)).
  { constructor; simpl; intros; try contradiction; constructor. }
  revert H0. generalize (emptyDb us).
  induction rqs as [|rq rqs IH]; intros db H; simpl; [exact H|].
  apply IH. now apply MessagesOk_handle.
Qed.

(** ** Rooms, memberships and messages belong together *)

(** X1. In every reachable state each room has at least one membership, and
    every membership and every message belongs to a room of the store. *)
Theorem no_orphans (db : Db) :
  reachable db ->
  (forall r, In r (rooms db) -> (1 <= RoomMember_countDocuments db (room_id r))%Z) /\
  (forall m, In m (roomMembers db) -> exists r, Room_findById db (rm_room m) = Some r) /\
  (forall m, In m (messages db) -> exists r, Room_findById db (msg_room m) = Some r).
Proof.
  intros Hreach. destruct (reachable_Inv _ Hreach) as [HS HO].
  pose proof (MessagesOk_reachable _ Hreach) as HM.
  split; [|split].
  - intros r Hr. destruct (owner_exists _ _ HO r Hr) as (m & Hm & Hroom & _).
    assert (Hin : In m (RoomMember_find db (room_id r))) by (apply find_in_room; auto).
    unfold RoomMember_countDocuments.
    destruct (RoomMember_find db (room_id r)); [contradiction|simpl; lia].
  - intros m Hm. destruct (member_room_exists _ _ _ HS m Hm) as (r & Hr & <-).
    exists r. now apply findById_unique.
  - intros m Hm. destruct (message_room_exists _ HM m Hm) as (r & Hr & <-).
    exists r. now apply findById_unique.
Qed.

Lemma no_orphans_witness :
  reachable demoDb /\
  (forall r, In r (rooms demoDb) ->
     (1 <= RoomMember_countDocuments demoDb (room_id r))%Z) /\
  (forall m, In m (roomMembers demoDb) ->
     exists r, Room_findById demoDb (rm_room m) = Some r) /\
  (forall m, In m (messages demoDb) ->
     exists r, Room_findById demoDb (msg_room m) = Some r).
Proof.
  split; [exact demoDb_reachable|]. exact (no_orphans demoDb demoDb_reachable).
Defined.

(** X2. In every reachable state every stored message has a non-empty
    content that is its own trimmed form, and an id of its own. *)
Theorem stored_messages (db : Db) (m : Message) :
  reachable db -> In m (messages db) ->
  content m <> EmptyString /\ trim (content m) = content m /\
  (forall m', In m' (messages db) -> msg_id m' = msg_id m -> m' = m).
Proof.
  intros Hreach Hm. pose proof (MessagesOk_reachable _ Hreach) as HM.
  destruct (message_content _ HM m Hm) as [Hne Htrim].
  repeat split; auto.
  intros m' Hm' Hid.
  apply (NoDup_map_inj msg_id (messages db)); auto.
  apply StronglySorted_lt_NoDup, (message_ids_sorted _ HM).
Qed.

Lemma stored_messages_witness :
  reachable demoDb /\ In (mkMessage 4 0 1 "hi" 103%Z) (messages demoDb) /\
  content (mkMessage 4 0 1 "hi" 103%Z) <> EmptyString /\
  trim (content (mkMessage 4 0 1 "hi" 103%Z)) = content (mkMessage 4 0 1 "hi" 103%Z) /\
  (forall m', In m' (messages demoDb) -> msg_id m' = 4 -> m' = mkMessage 4 0 1 "hi" 103%Z).
Proof.
  assert (Hin : In (mkMessage 4 0 1 "hi" 103%Z) (messages demoDb)) by (simpl; auto).
  split; [exact demoDb_reachable|]. split; [exact Hin|].
  exact (stored_messages demoDb (mkMessage 4 0 1 "hi" 103%Z) demoDb_reachable Hin).
Defined.



(** ** What never changes in a room *)

Lemma handle_rooms_origin (db : Db) (rq : Request) (r' : Room) :
  In r' (rooms (handle db rq)) ->
  (exists r, In r (rooms db) /\ fixedFields r = fixedFields r') \/
  nextId db <= room_id r'.
Proof.
  assert (Hrep : forall room room' : Room,
            In room (rooms db) -> fixedFields room = fixedFields room' ->
            In r' (replaceAt room_id (room_id room') room' (rooms db)) ->
            exists r, In r (rooms db) /\ fixedFields r = fixedFields r').
  { intros room room' Hroom Hf Hin.
    apply replaceAt_In in Hin as [[-> _]|[Hin _]]; eauto. }
  assert (Hold : In r' (rooms db) ->
            (exists r, In r (rooms db) /\ fixedFields r = fixedFields r') \/
            nextId db <= room_id r') by eauto.
  destruct rq; simpl.
  - unfold createRoom. destruct name as [[|c nm]|]; try solve [simpl; exact Hold].
    destruct (generateRoomCode fuel (rooms db) rnd 0); simpl; [|exact Hold].
    intros Hin. apply in_app_or in Hin as [Hin|[<-|[]]]; [auto|]. right. simpl. lia.
  - unfold joinByCode. destruct (lookupByCode db code); [|simpl; exact Hold].
    unfold joinFound. destruct (Qle_bool _ _); [simpl; exact Hold|].
    destruct (RoomMember_findOne db (room_id body) userId); simpl; exact Hold.
  - unfold joinById. destruct (Room_findById db roomId); [|simpl; exact Hold].
    unfold joinFound. destruct (Qle_bool _ _); [simpl; exact Hold|].
    destruct (RoomMember_findOne db roomId userId); simpl; exact Hold.
  - unfold leaveRoom.
    destruct (Room_findById db roomId) as [room|] eqn:Er; [|simpl; exact Hold].
    destruct (RoomMember_findOne db roomId userId); [|simpl; exact Hold].
    apply findById_some in Er as [Hroom Hid].
    destruct (_ =? 1); simpl.
    + intros Hin. apply filter_In in Hin as [Hin _]. auto.
    + destruct (owner room =? userId); [|simpl; exact Hold].
      destruct (find _ _) as [new|]; simpl; [|exact Hold].
      intros Hin. left.
      exact (Hrep room (setOwner room (rm_user new)) Hroom eq_refl Hin).
  - unfold renameRoom. destruct name as [[|c nm]|]; try solve [simpl; exact Hold].
    destruct (Room_findById db roomId) as [room|] eqn:Er; [|simpl; exact Hold].
    apply findById_some in Er as [Hroom Hid].
    destruct (negb _); simpl; [exact Hold|].
    intros Hin. left.
    exact (Hrep room (setName room (String c nm)) Hroom eq_refl Hin).
  - unfold sendMessage.
    destruct (falsy body || falsy (option_map trim body)); [simpl; exact Hold|].
    destruct body; [|simpl; exact Hold].
    destruct (Room_findById db roomId); [|simpl; exact Hold].
    destruct (RoomMember_findOne db roomId userId); simpl; exact Hold.
Qed.

Lemma handle_nextId (db : Db) (rq : Request) : nextId db <= nextId (handle db rq).
Proof.
  destruct (handle_shape db rq)
    as [(_ & _ & Hn & _)|[(rid & _ & _ & _ & Hn)|(? & ? & ? & ? & _ & _ & _ & _ & _ & Hn)]];
    lia.
Qed.

Lemma run_nextId (rqs : list Request) (db : Db) : nextId db <= nextId (run db rqs).
Proof.
  revert db. induction rqs as [|rq rqs IH]; intros db; simpl; [lia|].
  etransitivity; [apply (handle_nextId db rq)|apply IH].
Qed.

Lemma run_rooms_origin (rqs : list Request) (db : Db) (r' : Room) :
  In r' (rooms (run db rqs)) ->
  (exists r, In r (rooms db) /\ fixedFields r = fixedFields r') \/
  nextId db <= room_id r'.
Proof.
  revert r'. induction rqs as [|rq rqs IH] using rev_ind; intros r' Hin.
  - simpl in Hin. left. eauto.
  - unfold run in Hin. rewrite fold_left_app in Hin. simpl in Hin.
    fold (run db rqs) in Hin. pose proof (run_nextId rqs db) as Hmid.
    destruct (handle_rooms_origin (run db rqs) rq r' Hin) as [(r & Hr & Hf)|Hnew];
      [|right; lia].
    destruct (IH r Hr) as [(r0 & Hr0 & Hf0)|Hge].
    + left. exists r0. split; [assumption|congruence].
    + right. unfold fixedFields in Hf. injection Hf as Hid _ _ _ _. lia.
Qed.

(** X4. Whatever requests follow, a room of a reachable state keeps its
    code, its capacity, its description and its privacy flag for as long as
    it exists: a room found later under the same id has the same values. *)
Theorem room_fields_immutable (db : Db) (rqs : list Request) (r r' : Room) :
  reachable db -> In r (rooms db) ->
  In r' (rooms (run db rqs)) -> room_id r' = room_id r ->
  roomCode r' = roomCode r /\ maxMembers r' = maxMembers r /\
  description r' = description r /\ isPrivate r' = isPrivate r.
Proof.
  intros Hreach Hr Hr' Hid. destruct (reachable_Inv _ Hreach) as [HS _].
  destruct (run_rooms_origin rqs db r' Hr') as [(r0 & Hr0 & Hf)|Hge].
  - unfold fixedFields in Hf. injection Hf as H1 H2 H3 H4 H5.
    assert (r0 = r) by (apply (room_id_inj _ _ _ HS); congruence). subst r0. auto.
  - pose proof (room_ids_fresh _ _ _ HS r Hr). lia.
Qed.

Lemma room_fields_immutable_witness :
  reachable demoDb /\ In demoRoom (rooms demoDb) /\
  In (setOwner (setName demoRoom "Renamed") 2)
     (rooms (run demoDb [Rename 0 1 (Some "Renamed"); Leave 0 1 collectionOrder])) /\
  roomCode (setOwner (setName demoRoom "Renamed") 2) = roomCode demoRoom /\
  maxMembers (setOwner (setName demoRoom "Renamed") 2) = maxMembers demoRoom /\
  description (setOwner (setName demoRoom "Renamed") 2) = description demoRoom /\
  isPrivate (setOwner (setName demoRoom "Renamed") 2) = isPrivate demoRoom.
Proof.
  assert (Hin : In demoRoom (rooms demoDb)) by (simpl; auto).
  assert (Hin' : In (setOwner (setName demoRoom "Renamed") 2)
                    (rooms (run demoDb [Rename 0 1 (Some "Renamed"); Leave 0 1 collectionOrder])))
    by (simpl; auto).
  split; [exact demoDb_reachable|]. split; [exact Hin|]. split; [exact Hin'|].
  exact (room_fields_immutable demoDb [Rename 0 1 (Some "Renamed"); Leave 0 1 collectionOrder]
           demoRoom _ demoDb_reachable Hin Hin' eq_refl).
Defined.

(** ** Failures *)

(** X5. A handler that answers with a failure has written nothing: the
    store after the request is the store before it. *)
Theorem failures_write_nothing (db : Db) :
  (forall u n d m rnd fuel now db' r,
     createRoom db u n d m rnd fuel now = Some (db', r) ->
     isFailure r = true -> db' = db) /\
  (forall u c now,
     isFailure (snd (joinByCode db u c now)) = true ->
     fst (joinByCode db u c now) = db) /\
  (forall rid u now,
     isFailure (snd (joinById db rid u now)) = true ->
     fst (joinById db rid u now) = db) /\
  (forall tie rid u,
     isFailure (snd (leaveRoom tie db rid u)) = true -> fst (leaveRoom tie db rid u) = db) /\
  (forall rid u n,
     isFailure (snd (renameRoom db rid u n)) = true ->
     fst (renameRoom db rid u n) = db) /\
  (forall rid u b now,
     isFailure (snd (sendMessage db rid u b now)) = true ->
     fst (sendMessage db rid u b now) = db).
Proof.
  assert (Hjoin : forall room rid u now,
            isFailure (snd (joinFound db room rid u now)) = true ->
            fst (joinFound db room rid u now) = db).
  { intros room rid u now. unfold joinFound.
    destruct (Qle_bool _ _); [reflexivity|].
    destruct (RoomMember_findOne db rid u); simpl; discriminate. }
  repeat split.
  - intros u n d m rnd fuel now db' r. unfold createRoom.
    destruct n as [[|c nm]|]; try (intros H _; now injection H as <- _).
    destruct (generateRoomCode fuel (rooms db) rnd 0); [|discriminate].
    intros H. injection H as <- <-. discriminate.
  - intros u c now. unfold joinByCode.
    destruct (lookupByCode db c); [apply Hjoin|reflexivity].
  - intros rid u now. unfold joinById.
    destruct (Room_findById db rid); [apply Hjoin|reflexivity].
  - intros tie rid u. unfold leaveRoom.
    destruct (Room_findById db rid) as [room|]; [|reflexivity].
    destruct (RoomMember_findOne db rid u); [|reflexivity].
    destruct (_ =? 1); [discriminate|].
    destruct (owner room =? u); [|discriminate].
    destruct (find _ _); discriminate.
  - intros rid u n. unfold renameRoom.
    destruct n as [[|c nm]|]; try reflexivity.
    destruct (Room_findById db rid); [|reflexivity].
    destruct (negb _); [reflexivity|discriminate].
  - intros rid u b now. unfold sendMessage.
    destruct (falsy b || falsy (option_map trim b)); [reflexivity|].
    destruct b; [|reflexivity].
    destruct (Room_findById db rid); [|reflexivity].
    destruct (RoomMember_findOne db rid u); [discriminate|reflexivity].
Qed.

Lemma failures_write_nothing_witness :
  isFailure (snd (joinById fullDb 0 2 101%Z)) = true /\
  fst (joinById fullDb 0 2 101%Z) = fullDb /\
  isFailure (snd (leaveRoom collectionOrder demoDb 0 9)) = true /\
  fst (leaveRoom collectionOrder demoDb 0 9) = demoDb.
Proof.
  destruct (failures_write_nothing fullDb) as (_ & _ & Hjoin & _).
  destruct (failures_write_nothing demoDb) as (_ & _ & _ & Hleave & _).
  split; [reflexivity|]. split; [apply Hjoin; reflexivity|].
  split; [reflexivity|]. apply Hleave. reflexivity.
Defined.

(** ** Renaming *)

Lemma findById_replace_other (db : Db) (room' : Room) (rid' : nat) :
  rid' <> room_id room' ->
  Room_findById (Room_save db room') rid' = Room_findById db rid'.
Proof.
  intros Hne. unfold Room_findById. simpl.
  induction (rooms db) as [|x l IH]; simpl; [reflexivity|].
  destruct (Nat.eqb_spec (room_id x) (room_id room')) as [Heq|Hx].
  - destruct (Nat.eqb_spec (room_id room') rid'); [congruence|].
    destruct (Nat.eqb_spec (room_id x) rid'); [congruence|]. exact IH.
  - destruct (room_id x =? rid'); [reflexivity|exact IH].
Qed.

(** X6. For an existing room of a reachable state, the rename handler first
    answers 400 when the name is absent or empty, then 403 unless the
    requester is the user in the room's owner field; otherwise it answers 200
    with the renamed room, after which the room is found under its id with
    the new name and nothing else changed: the other rooms, the memberships
    and the messages are as before. *)
Theorem renameRoom_contract
    (db : Db) (rid uid : nat) (room : Room) (name : option string) :
  reachable db -> Room_findById db rid = Some room ->
  (name = None \/ name = Some EmptyString ->
     renameRoom db rid uid name = (db, ValidationError "Invalid room data")) /\
  (forall nm, name = Some nm -> nm <> EmptyString ->
     (owner room <> uid ->
        renameRoom db rid uid name
          = (db, Failure 403 "Only the room creator can rename the room")) /\
     (owner room = uid ->
        snd (renameRoom db rid uid name)
          = Json 200 (mkRoom rid nm (description room) (roomCode room) uid
                             (maxMembers room) (isPrivate room)) /\
        Room_findById (fst (renameRoom db rid uid name)) rid
          = Some (mkRoom rid nm (description room) (roomCode room) uid
                         (maxMembers room) (isPrivate room)) /\
        (forall rid', rid' <> rid ->
           Room_findById (fst (renameRoom db rid uid name)) rid'
             = Room_findById db rid') /\
        roomMembers (fst (renameRoom db rid uid name)) = roomMembers db /\
        messages (fst (renameRoom db rid uid name)) = messages db)).
Proof.
  intros Hreach Hfind. pose proof (reachable_Inv _ Hreach) as HI.
  pose proof (findById_some _ _ _ Hfind) as [Hroom Hid].
  split.
  - intros [->| ->]; reflexivity.
  - intros nm -> Hnm. destruct nm as [|c nm]; [now elim Hnm|].
    pose proof (renameRoom_Inv db rid uid (Some (String c nm)) HI) as HI'.
    unfold renameRoom in *. rewrite Hfind in *. split.
    + intros Hown. apply Nat.eqb_neq in Hown. now rewrite Hown.
    + intros Hown.
      assert (Hnamed : mkRoom rid (String c nm) (description room) (roomCode room) uid
                              (maxMembers room) (isPrivate room)
                       = setName room (String c nm))
        by (unfold setName; now rewrite Hid, Hown).
      rewrite Hnamed.
      apply Nat.eqb_eq in Hown. rewrite Hown in *. simpl negb in *.
      cbv iota in *. simpl fst in *. simpl snd. destruct HI' as [HS' _].
      repeat split.
      * rewrite <- Hid at 1.
        apply (findById_unique _ HS' (setName room (String c nm))).
        now apply (replaceAt_hit room_id _ _ _ room).
      * intros rid' Hne. apply findById_replace_other. simpl. congruence.
Qed.

Lemma renameRoom_contract_witness :
  reachable demoDb /\ Room_findById demoDb 0 = Some demoRoom /\
  renameRoom demoDb 0 2 (Some "Mine")
    = (demoDb, Failure 403 "Only the room creator can rename the room") /\
  snd (renameRoom demoDb 0 1 (Some "Ours"))
    = Json 200 (mkRoom 0 "Ours" "" "SSSSSS" 1 50%Q false).
Proof.
  split; [exact demoDb_reachable|]. split; [reflexivity|].
  destruct (renameRoom_contract demoDb 0 2 demoRoom (Some "Mine")
              demoDb_reachable eq_refl) as [_ Hdenied].
  destruct (renameRoom_contract demoDb 0 1 demoRoom (Some "Ours")
              demoDb_reachable eq_refl) as [_ Hok].
  split.
  - apply (Hdenied "Mine" eq_refl); discriminate.
  - apply (Hok "Ours" eq_refl); [discriminate|reflexivity].
Defined.

(** ** Leaving and joining *)

Lemma filter_all_true {A : Type} (p : A -> bool) (l : list A) :
  (forall x, In x l -> p x = true) -> filter p l = l.
Proof.
  induction l as [|a l IH]; simpl; intros H; [reflexivity|].
  rewrite (H a (or_introl eq_refl)), IH; auto.
Qed.

Lemma filter_comm {A : Type} (p q : A -> bool) (l : list A) :
  filter p (filter q l) = filter q (filter p l).
Proof.
  induction l as [|a l IH]; simpl; [reflexivity|].
  destruct (q a) eqn:Q, (p a) eqn:P; simpl; rewrite ?Q, ?P, IH; reflexivity.
Qed.

Lemma filter_drop_one {A : Type} (f : A -> nat) (l : list A) (a : A) :
  NoDup (map f l) -> In a l ->
  S (List.length (filter (fun x => negb (f x =? f a)) l)) = List.length l.
Proof.
  induction l as [|b l IH]; simpl; intros Hnd Hin; [contradiction|].
  inversion Hnd as [|? ? Hnotin Hnd']; subst.
  destruct Hin as [->|Hin].
  - rewrite Nat.eqb_refl. simpl. f_equal. f_equal. apply filter_all_true.
    intros x Hx. apply negb_true_iff, Nat.eqb_neq. intros Heq.
    apply Hnotin. rewrite <- Heq. now apply in_map.
  - destruct (Nat.eqb_spec (f b) (f a)) as [Heq|Hne]; simpl.
    + exfalso. apply Hnotin. rewrite Heq. now apply in_map.
    + f_equal. now apply IH.
Qed.

(** After a leave that succeeded the user holds no membership in the room. *)
Lemma leave_removes (tie : TieOrder RoomMember) (db : Db) (rid uid : nat) :
  Inv db -> isFailure (snd (leaveRoom tie db rid uid)) = false ->
  RoomMember_findOne (fst (leaveRoom tie db rid uid)) rid uid = None.
Proof.
  intros [HS HO] Hok.
  destruct (RoomMember_findOne (fst (leaveRoom tie db rid uid)) rid uid) as [x|] eqn:E;
    [|reflexivity].
  exfalso. apply findOne_some in E as (Hx & Hxr & Hxu).
  unfold leaveRoom in Hok, Hx.
  destruct (Room_findById db rid) as [room|]; [|discriminate].
  destruct (RoomMember_findOne db rid uid) as [membership|] eqn:Em; [|discriminate].
  apply findOne_some in Em as (Hin & Hmr & Hmu).
  assert (Hold : In x (roomMembers db) -> rm_id x <> rm_id membership -> False).
  { intros Hx0 Hne. apply Hne. f_equal.
    apply (membership_unique _ _ _ HS); solve [assumption | congruence]. }
  destruct (_ =? 1).
  - simpl in Hx. apply filter_In in Hx as [_ Hx]. rewrite Hxr, Nat.eqb_refl in Hx.
    discriminate.
  - destruct (owner room =? uid); [destruct (find _ _) as [new|] eqn:Ef|];
      simpl in Hx; apply filter_In in Hx as [Hx Hne];
      apply negb_true_iff, Nat.eqb_neq in Hne; auto.
    apply find_some in Ef as [_ Hnu]. apply negb_true_iff, Nat.eqb_neq in Hnu.
    apply replaceAt_In in Hx as [[-> _]|[Hx _]]; auto.
Qed.

(** X7. When a member other than the owner leaves a room of a reachable
    state, the answer names the unchanged owner, exactly the membership of
    the leaver is removed, one membership less is counted in the room, and
    the rooms and messages stay as they are. *)
Theorem member_leaves (tie : TieOrder RoomMember)
    (db : Db) (rid uid : nat) (room : Room) (membership : RoomMember) :
  reachable db -> Room_findById db rid = Some room ->
  RoomMember_findOne db rid uid = Some membership -> owner room <> uid ->
  snd (leaveRoom tie db rid uid) = Json 200 (Remaining rid (owner room)) /\
  rooms (fst (leaveRoom tie db rid uid)) = rooms db /\
  messages (fst (leaveRoom tie db rid uid)) = messages db /\
  (forall m, In m (roomMembers (fst (leaveRoom tie db rid uid))) <->
             In m (roomMembers db) /\ m <> membership) /\
  (RoomMember_countDocuments (fst (leaveRoom tie db rid uid)) rid
     = RoomMember_countDocuments db rid - 1)%Z.
Proof.
  intros Hreach Hfind Hmem Hown. destruct (reachable_Inv _ Hreach) as [HS HO].
  pose proof (findById_some _ _ _ Hfind) as [Hroom Hid].
  pose proof (findOne_some _ _ _ _ Hmem) as (Hin & Hmr & Hmu).
  destruct (owner_exists _ _ HO room Hroom) as (m0 & Hm0 & Hm0r & _ & Hm0u).
  assert (Hmany : (List.length (sortByJoinedAt tie (RoomMember_find db rid)) =? 1) = false).
  { apply Nat.eqb_neq. rewrite sort_length. intros Hone.
    assert (H1 : In membership (RoomMember_find db rid)) by (apply find_in_room; auto).
    assert (H2 : In m0 (RoomMember_find db rid))
      by (apply find_in_room; split; congruence).
    destruct (RoomMember_find db rid) as [|a [|b l]]; try discriminate.
    destruct H1 as [<-|[]], H2 as [<-|[]]. congruence. }
  assert (Heq : leaveRoom tie db rid uid =
                (RoomMember_deleteOne db membership,
                 Json 200 (Remaining rid (owner room)))).
  { unfold leaveRoom. rewrite Hfind, Hmem, Hmany.
    apply Nat.eqb_neq in Hown. rewrite Hown. simpl. now rewrite Hid. }
  rewrite Heq. simpl. split; [reflexivity|]. split; [reflexivity|].
  split; [reflexivity|]. split.
  - intros m. rewrite filter_In, negb_true_iff, Nat.eqb_neq. split.
    + intros [Hm Hne]. split; [assumption|]. congruence.
    + intros [Hm Hne]. split; [assumption|]. intros Hids. apply Hne.
      now apply (member_id_inj _ _ _ HS).
  - unfold RoomMember_countDocuments, RoomMember_find. simpl.
    rewrite filter_comm.
    pose proof (filter_drop_one rm_id (filter (inRoom rid) (roomMembers db)) membership)
      as Hdrop.
    rewrite <- Hdrop.
    + lia.
    + apply NoDup_map_filter, (member_ids_unique _ _ _ HS).
    + apply filter_In. split; [assumption|]. unfold inRoom. now apply Nat.eqb_eq.
Qed.

Lemma member_leaves_witness :
  reachable demoDb /\ Room_findById demoDb 0 = Some demoRoom /\
  RoomMember_findOne demoDb 0 3
    = Some (mkRoomMember 3 0 3 member_role online 102%Z) /\
  owner demoRoom <> 3 /\
  snd (leaveRoom collectionOrder demoDb 0 3) = Json 200 (Remaining 0 1) /\
  (RoomMember_countDocuments (fst (leaveRoom collectionOrder demoDb 0 3)) 0
     = RoomMember_countDocuments demoDb 0 - 1)%Z.
Proof.
  assert (Hown : owner demoRoom <> 3) by discriminate.
  split; [exact demoDb_reachable|]. split; [reflexivity|]. split; [reflexivity|].
  split; [exact Hown|].
  destruct (member_leaves collectionOrder demoDb 0 3 demoRoom
              (mkRoomMember 3 0 3 member_role online 102%Z)
              demoDb_reachable eq_refl eq_refl Hown) as (Hresp & _ & _ & _ & Hcount).
  split; [exact Hresp|exact Hcount].
Defined.

(** X8. After a leave that succeeded, in any of its three forms, the user
    holds no membership in the room: a second leave, a message, a request
    for the details or for the history by that user all fail, and write
    nothing. *)
Theorem leave_ends_membership (tie : TieOrder RoomMember) (db : Db) (rid uid : nat) :
  reachable db -> isFailure (snd (leaveRoom tie db rid uid)) = false ->
  RoomMember_findOne (fst (leaveRoom tie db rid uid)) rid uid = None /\
  (forall tie',
     isFailure (snd (leaveRoom tie' (fst (leaveRoom tie db rid uid)) rid uid)) = true /\
     fst (leaveRoom tie' (fst (leaveRoom tie db rid uid)) rid uid)
       = fst (leaveRoom tie db rid uid)) /\
  (forall body now,
     isFailure (snd (sendMessage (fst (leaveRoom tie db rid uid)) rid uid body now)) = true /\
     fst (sendMessage (fst (leaveRoom tie db rid uid)) rid uid body now)
       = fst (leaveRoom tie db rid uid)) /\
  (forall tie', isFailure (details tie' (fst (leaveRoom tie db rid uid)) rid uid) = true) /\
  (forall tie', isFailure (getMessages tie' (fst (leaveRoom tie db rid uid)) rid uid) = true).
Proof.
  intros Hreach Hok.
  pose proof (leave_removes tie db rid uid (reachable_Inv _ Hreach) Hok) as Hnone.
  set (db' := fst (leaveRoom tie db rid uid)) in *.
  split; [exact Hnone|]. repeat split.
  - unfold leaveRoom. destruct (Room_findById db' rid); [|reflexivity].
    now rewrite Hnone.
  - unfold leaveRoom. destruct (Room_findById db' rid); [|reflexivity].
    now rewrite Hnone.
  - unfold sendMessage. destruct (falsy body || _); [reflexivity|].
    destruct body; [|reflexivity].
    destruct (Room_findById db' rid); [|reflexivity]. now rewrite Hnone.
  - unfold sendMessage. destruct (falsy body || _); [reflexivity|].
    destruct body; [|reflexivity].
    destruct (Room_findById db' rid); [|reflexivity]. now rewrite Hnone.
  - unfold details. destruct (Room_findById db' rid); [|reflexivity].
    now rewrite Hnone.
  - unfold getMessages. destruct (Room_findById db' rid); [|reflexivity].
    now rewrite Hnone.
Qed.

Lemma leave_ends_membership_witness :
  reachable demoDb /\ isFailure (snd (leaveRoom collectionOrder demoDb 0 1)) = false /\
  RoomMember_findOne (fst (leaveRoom collectionOrder demoDb 0 1)) 0 1 = None /\
  isFailure (details collectionOrder (fst (leaveRoom collectionOrder demoDb 0 1)) 0 1)
    = true.
Proof.
  split; [exact demoDb_reachable|]. split; [reflexivity|].
  destruct (leave_ends_membership collectionOrder demoDb 0 1 demoDb_reachable eq_refl)
    as (Hnone & _ & _ & Hdetails & _).
  split; [exact Hnone|apply Hdetails].
Defined.

Section NewMember.

Variables (db : Db) (rid uid : nat) (room : Room) (now : Z).
Hypothesis Hreach : reachable db.
Hypothesis Hfind : Room_findById db rid = Some room.
Hypothesis Hnone : RoomMember_findOne db rid uid = None.
Hypothesis Hcapacity :
  (inject_Z (RoomMember_countDocuments db rid) < maxMembers room)%Q.

Lemma joinById_new :
  joinById db rid uid now
    = (withMembership db (newMembership db rid uid now),
       Json 200 (room, newMembership db rid uid now)).
Proof.
  unfold joinById. rewrite Hfind. unfold joinFound. rewrite Hnone.
  now rewrite (proj2 (Qle_bool_false _ _) Hcapacity).
Qed.

Lemma joined_Inv : Inv (withMembership db (newMembership db rid uid now)).
Proof.
  pose proof (joinById_Inv db rid uid now (reachable_Inv _ Hreach)) as H.
  now rewrite joinById_new in H.
Qed.

Lemma joined_findOne :
  RoomMember_findOne (withMembership db (newMembership db rid uid now)) rid uid
    = Some (newMembership db rid uid now).
Proof.
  destruct joined_Inv as [HS _].
  apply (findOne_unique _ HS (newMembership db rid uid now)).
  simpl. apply in_or_app. right. now left.
Qed.

Lemma joined_count :
  RoomMember_countDocuments (withMembership db (newMembership db rid uid now)) rid
    = (RoomMember_countDocuments db rid + 1)%Z.
Proof.
  unfold RoomMember_countDocuments, RoomMember_find. simpl.
  rewrite filter_snoc, length_app. unfold inRoom at 2. simpl.
  rewrite Nat.eqb_refl. simpl. lia.
Qed.

Lemma newcomer_not_owner : owner room <> uid.
Proof.
  destruct (reachable_Inv _ Hreach) as [_ HO].
  apply findById_some in Hfind as [Hroom Hid].
  destruct (owner_exists _ _ HO room Hroom) as (m0 & Hm0 & Hm0r & _ & Hm0u).
  intros Hown. apply (findOne_none db rid uid Hnone m0 Hm0); congruence.
Qed.

Lemma room_not_empty : (1 <= RoomMember_countDocuments db rid)%Z.
Proof.
  destruct (reachable_Inv _ Hreach) as [_ HO].
  apply findById_some in Hfind as [Hroom Hid].
  destruct (owner_exists _ _ HO room Hroom) as (m0 & Hm0 & Hm0r & _).
  assert (Hin : In m0 (RoomMember_find db rid))
    by (apply find_in_room; split; congruence).
  unfold RoomMember_countDocuments.
  destruct (RoomMember_find db rid); [contradiction|simpl; lia].
Qed.

Lemma leave_after_join (tie : TieOrder RoomMember) :
  leaveRoom tie (withMembership db (newMembership db rid uid now)) rid uid
    = (mkDb (users db) (rooms db) (roomMembers db) (messages db)
            (S (nextId db)) (emitted db),
       Json 200 (Remaining rid (owner room))).
Proof.
  destruct (reachable_Inv _ Hreach) as [HS _].
  pose proof (findById_some _ _ _ Hfind) as [_ Hid].
  unfold leaveRoom.
  change (Room_findById (withMembership db (newMembership db rid uid now)) rid)
    with (Room_findById db rid).
  rewrite Hfind, joined_findOne.
  assert (Hmany :
    (List.length (sortByJoinedAt tie
       (RoomMember_find (withMembership db (newMembership db rid uid now)) rid)) =? 1)
    = false).
  { apply Nat.eqb_neq. rewrite sort_length.
    pose proof joined_count as Hc. pose proof room_not_empty as H1.
    unfold RoomMember_countDocuments in Hc, H1. lia. }
  rewrite Hmany. pose proof newcomer_not_owner as Hown.
  apply Nat.eqb_neq in Hown. rewrite Hown.
  unfold RoomMember_deleteOne, withMembership, newMembership. simpl.
  rewrite Hid. f_equal. f_equal.
  rewrite filter_app. simpl. rewrite Nat.eqb_refl. simpl. rewrite app_nil_r.
  apply filter_all_true. intros x Hx. apply negb_true_iff, Nat.eqb_neq.
  pose proof (member_ids_fresh _ _ _ HS x Hx). lia.
Qed.

End NewMember.

(** X9. In a reachable state, a user without membership who joins (by id, or
    by a code that resolves to the room) a room whose count is below its
    capacity gets a membership with the role member, marked online and
    dated by the server; the room counts one membership more, the earlier
    memberships are all kept, and the newcomer is then answered the details
    of the room with that membership. *)
Theorem join_creates_membership (tie : TieOrder RoomMember)
    (db : Db) (rid uid : nat) (room : Room) (now : Z) :
  reachable db -> Room_findById db rid = Some room ->
  RoomMember_findOne db rid uid = None ->
  (inject_Z (RoomMember_countDocuments db rid) < maxMembers room)%Q ->
  snd (joinById db rid uid now)
    = Json 200 (room, mkRoomMember (nextId db) rid uid member_role online now) /\
  (forall code, lookupByCode db code = Json 200 room ->
     joinByCode db uid code now = joinById db rid uid now) /\
  rooms (fst (joinById db rid uid now)) = rooms db /\
  (forall m, In m (roomMembers db) -> In m (roomMembers (fst (joinById db rid uid now)))) /\
  (RoomMember_countDocuments (fst (joinById db rid uid now)) rid
     = RoomMember_countDocuments db rid + 1)%Z /\
  exists members,
    details tie (fst (joinById db rid uid now)) rid uid
      = Json 200 (room, members,
                  mkRoomMember (nextId db) rid uid member_role online now) /\
    In (mkRoomMember (nextId db) rid uid member_role online now)
       (map pmem_doc members).
Proof.
  intros Hreach Hfind Hnone Hlt.
  rewrite (joinById_new db rid uid room now Hfind Hnone Hlt). simpl fst. simpl snd.
  split; [reflexivity|]. split; [|split; [reflexivity|split; [|split]]].
  - intros code Hcode. apply findById_some in Hfind as [_ Hid].
    unfold joinByCode. rewrite Hcode, Hid. unfold joinFound. rewrite Hnone.
    now rewrite (proj2 (Qle_bool_false _ _) Hlt).
  - intros m Hm. simpl. apply in_or_app. now left.
  - apply (joined_count db rid uid now).
  - eexists. unfold details.
    change (Room_findById _ rid) with (Room_findById db rid). rewrite Hfind.
    rewrite (joined_findOne db rid uid room now Hreach Hfind Hnone Hlt).
    split; [reflexivity|].
    rewrite map_map. simpl. rewrite map_id. apply sort_In, find_in_room. simpl.
    split; [apply in_or_app; right; now left|reflexivity].
Qed.

Lemma join_creates_membership_witness :
  reachable demoDb /\ Room_findById demoDb 0 = Some demoRoom /\
  RoomMember_findOne demoDb 0 7 = None /\
  (inject_Z (RoomMember_countDocuments demoDb 0) < maxMembers demoRoom)%Q /\
  snd (joinById demoDb 0 7 110%Z)
    = Json 200 (demoRoom, mkRoomMember 5 0 7 member_role online 110%Z) /\
  (RoomMember_countDocuments (fst (joinById demoDb 0 7 110%Z)) 0
     = RoomMember_countDocuments demoDb 0 + 1)%Z.
Proof.
  split; [exact demoDb_reachable|]. split; [reflexivity|]. split; [reflexivity|].
  split; [reflexivity|].
  destruct (join_creates_membership collectionOrder demoDb 0 7 demoRoom 110%Z
              demoDb_reachable eq_refl eq_refl eq_refl) as (Hresp & _ & _ & _ & Hcount & _).
  split; [exact Hresp|exact Hcount].
Defined.

(** X10. Joining and then leaving undoes the join: in a reachable state, when
    a user without membership joins a room with free capacity and then
    leaves it, the leave answers with the unchanged owner and the rooms,
    memberships, messages and events are exactly those before the join; only
    the id counter has advanced. *)
Theorem join_then_leave (tie : TieOrder RoomMember)
    (db : Db) (rid uid : nat) (room : Room) (now : Z) :
  reachable db -> Room_findById db rid = Some room ->
  RoomMember_findOne db rid uid = None ->
  (inject_Z (RoomMember_countDocuments db rid) < maxMembers room)%Q ->
  leaveRoom tie (fst (joinById db rid uid now)) rid uid
    = (mkDb (users db) (rooms db) (roomMembers db) (messages db)
            (S (nextId db)) (emitted db),
       Json 200 (Remaining rid (owner room))).
Proof.
  intros Hreach Hfind Hnone Hlt.
  rewrite (joinById_new db rid uid room now Hfind Hnone Hlt). simpl fst.
  now apply leave_after_join.
Qed.

Lemma join_then_leave_witness :
  reachable demoDb /\ Room_findById demoDb 0 = Some demoRoom /\
  RoomMember_findOne demoDb 0 7 = None /\
  (inject_Z (RoomMember_countDocuments demoDb 0) < maxMembers demoRoom)%Q /\
  leaveRoom collectionOrder (fst (joinById demoDb 0 7 110%Z)) 0 7
    = (mkDb (users demoDb) (rooms demoDb) (roomMembers demoDb) (messages demoDb)
            (S (nextId demoDb)) (emitted demoDb),
       Json 200 (Remaining 0 (owner demoRoom))).
Proof.
  split; [exact demoDb_reachable|]. split; [reflexivity|]. split; [reflexivity|].
  split; [reflexivity|].
  exact (join_then_leave collectionOrder demoDb 0 7 demoRoom 110%Z
           demoDb_reachable eq_refl eq_refl eq_refl).
Defined.

(** ** Creating *)

Lemma lookup_resolves (db : Db) (room : Room) (c : string) :
  Structure (rooms db) (roomMembers db) (nextId db) -> In room (rooms db) ->
  toUpperCase (trim c) = roomCode room ->
  lookupByCode db (Some c) = Json 200 room.
Proof.
  intros HS Hroom Heq. rewrite lookupByCode_normal, Heq.
  destruct (codes_wellFormed _ _ _ HS room Hroom) as [Hlen _].
  destruct (roomCode room) as [|a k] eqn:Ecode; [discriminate Hlen|].
  rewrite <- Ecode. now rewrite (findOneByCode_unique db HS room Hroom).
Qed.

Lemma generateRoomCode_returns (rs : list Room) (rnd : nat -> Random) (fuel pos k : nat) :
  k < fuel -> Room_findOneByCode rs (candidate rnd pos k) = None ->
  exists code, generateRoomCode fuel rs rnd pos = Some code.
Proof.
  revert pos k. induction fuel as [|fuel IH]; intros pos k Hk Hfree; [lia|].
  rewrite generateRoomCode_S.
  destruct (Room_findOneByCode rs (drawCode rnd pos length "")) eqn:E; [|eauto].
  destruct k as [|k].
  - unfold candidate in Hfree. rewrite Nat.mul_0_l, Nat.add_0_r in Hfree. congruence.
  - apply (IH (pos + length) k); [lia|].
    unfold candidate in *.
    now replace (pos + length + k * length) with (pos + S k * length)
      by (unfold length; lia).
Qed.

(** X11. The create handler answers 400 and writes nothing when the name is
    absent or empty.  When it answers for a non-empty name in a reachable
    state, the answer is 201 with the new room: its owner is the creator,
    its capacity is the number of the body, whatever it is, or 50 when that
    is absent or 0, its code is the code of no earlier room; the only
    membership of the room is the creator's, with the role owner; the
    earlier rooms and memberships are kept; and the room is found by its
    code, whatever the case and the surrounding blanks of the input. *)
Theorem createRoom_contract
    (db : Db) (u : nat) (name descr : option string) (maxM : option Q)
    (rnd : nat -> Random) (fuel : nat) (now : Z) :
  reachable db ->
  (name = None \/ name = Some EmptyString ->
     createRoom db u name descr maxM rnd fuel now
       = Some (db, ValidationError "Room name is required")) /\
  (forall nm db' resp,
     name = Some nm -> nm <> EmptyString ->
     createRoom db u name descr maxM rnd fuel now = Some (db', resp) ->
     exists room,
       resp = Json 201 room /\
       room_id room = nextId db /\ room_name room = nm /\ owner room = u /\
       maxMembers room = match maxM with
                         | Some q => if Qeq_bool q 0 then 50%Q else q
                         | None => 50%Q
                         end /\
       (forall r, In r (rooms db) -> roomCode r <> roomCode room) /\
       rooms db' = (rooms db ++ [room])%list /\
       RoomMember_find db' (room_id room)
         = [mkRoomMember (S (nextId db)) (nextId db) u owner_role online now] /\
       (forall m, In m (roomMembers db) -> In m (roomMembers db')) /\
       (forall c, toUpperCase (trim c) = roomCode room ->
          lookupByCode db' (Some c) = Json 200 room)).
Proof.
  intros Hreach. pose proof (reachable_Inv _ Hreach) as HI. split.
  - intros [->| ->]; reflexivity.
  - intros nm db' resp -> Hnm Hcreate.
    pose proof (createRoom_Inv _ _ _ _ _ _ _ _ _ _ HI Hcreate) as [HS' _].
    destruct HI as [HS _].
    unfold createRoom in Hcreate. destruct nm as [|c nm]; [now elim Hnm|].
    destruct (generateRoomCode fuel (rooms db) rnd 0) as [code|] eqn:E; [|discriminate].
    injection Hcreate as <- <-. eexists. split; [reflexivity|]. simpl.
    apply generateRoomCode_candidate in E as (k & _ & _ & Hfree).
    repeat split.
    + now apply findOneByCode_none.
    + unfold RoomMember_find. simpl. rewrite filter_snoc. unfold inRoom at 2. simpl.
      rewrite Nat.eqb_refl, filter_none; [reflexivity|].
      intros x Hx. unfold inRoom. apply Nat.eqb_neq.
      destruct (member_room_exists _ _ _ HS x Hx) as (r & Hr & <-).
      pose proof (room_ids_fresh _ _ _ HS r Hr). lia.
    + intros m Hm. apply in_or_app. now left.
    + intros c0 Hc0. apply lookup_resolves; [exact HS'| |exact Hc0].
      simpl. apply in_or_app. right. now left.
Qed.

Lemma createRoom_contract_witness :
  reachable demoDb /\
  createRoom demoDb 4 (Some "") None None (fun _ => zero) 1 120%Z
    = Some (demoDb, ValidationError "Room name is required") /\
  exists db' room,
    createRoom demoDb 4 (Some "Chess") None (Some 0%Q) (fun _ => zero) 1 120%Z
      = Some (db', Json 201 room) /\
    maxMembers room = 50%Q /\ owner room = 4 /\
    lookupByCode db' (Some " aaaaaa") = Json 200 room.
Proof.
  split; [exact demoDb_reachable|].
  destruct (createRoom_contract demoDb 4 (Some "") None None (fun _ => zero) 1 120%Z
              demoDb_reachable) as [Hbad _].
  split; [apply Hbad; now right|].
  destruct (createRoom_contract demoDb 4 (Some "Chess") None (Some 0%Q)
              (fun _ => zero) 1 120%Z demoDb_reachable) as [_ Hok].
  destruct (Hok "Chess" _ _ eq_refl ltac:(discriminate) eq_refl)
    as (room & Hresp & _ & _ & Hown & Hmax & _ & _ & _ & _ & Hlookup).
  eexists. exists room. split; [now rewrite <- Hresp|].
  split; [exact Hmax|]. split; [exact Hown|].
  injection Hresp as <-. apply Hlookup. reflexivity.
Defined.

(** X12. The create handler answers as soon as one of the first [fuel]
    candidates of the generator is free: for a non-empty name it then
    answers 201 with a room.  In particular it answers at the first
    candidate in a store without rooms. *)
Theorem createRoom_succeeds
    (db : Db) (u : nat) (nm : string) (descr : option string) (maxM : option Q)
    (rnd : nat -> Random) (fuel k : nat) (now : Z) :
  nm <> EmptyString -> k < fuel ->
  Room_findOneByCode (rooms db) (candidate rnd 0 k) = None ->
  exists db' room,
    createRoom db u (Some nm) descr maxM rnd fuel now = Some (db', Json 201 room).
Proof.
  intros Hnm Hk Hfree. unfold createRoom. destruct nm as [|c nm]; [now elim Hnm|].
  destruct (generateRoomCode_returns (rooms db) rnd fuel 0 k Hk Hfree) as (code & ->).
  eauto.
Qed.

Lemma createRoom_succeeds_witness :
  "Chess" <> EmptyString /\ 1 < 2 /\
  Room_findOneByCode (rooms demoDb)
    (candidate (fun i => if i <? 6 then half else zero) 0 1) = None /\
  exists db' room,
    createRoom demoDb 4 (Some "Chess") None None
               (fun i => if i <? 6 then half else zero) 2 120%Z
      = Some (db', Json 201 room).
Proof.
  assert (Hnm : "Chess" <> EmptyString) by discriminate.
  assert (Hk : 1 < 2) by lia.
  split; [exact Hnm|]. split; [exact Hk|]. split; [reflexivity|].
  exact (createRoom_succeeds demoDb 4 "Chess" None None
           (fun i => if i <? 6 then half else zero) 2 1 120%Z Hnm Hk eq_refl).
Defined.

(** ** The history of a room *)

Section SortByFacts.

Context {A : Type} (key : A -> Z) (tie : TieOrder A).

Lemma precedes_le (x y : A) : precedes key tie x y = true -> (key x <= key y)%Z.
Proof.
  unfold precedes. intros H.
  apply orb_true_iff in H as [H|H]; [apply Z.ltb_lt in H; lia|].
  apply andb_true_iff in H as [H _]. apply Z.eqb_eq in H. lia.
Qed.

Lemma not_precedes_le (x y : A) : precedes key tie x y = false -> (key y <= key x)%Z.
Proof.
  unfold precedes. intros H.
  apply orb_false_iff in H as [H _]. apply Z.ltb_ge in H. exact H.
Qed.

Lemma precedes_lt (x y : A) : (key x < key y)%Z -> precedes key tie x y = true.
Proof.
  intros H. unfold precedes. apply orb_true_iff. left. now apply Z.ltb_lt.
Qed.

Lemma insertBy_perm (x : A) (l : list A) :
  Permutation (insertBy key tie x l) (x :: l).
Proof.
  induction l as [|y t IH]; simpl; [reflexivity|].
  destruct (precedes key tie x y); [reflexivity|].
  rewrite IH. apply perm_swap.
Qed.

Lemma sortBy_perm (l : list A) : Permutation (sortBy key tie l) l.
Proof.
  induction l as [|x t IH]; simpl; [reflexivity|].
  rewrite insertBy_perm. now constructor.
Qed.

Lemma insertBy_sorted (x : A) (l : list A) :
  StronglySorted (fun a b => (key a <= key b)%Z) l ->
  StronglySorted (fun a b => (key a <= key b)%Z) (insertBy key tie x l).
Proof.
  induction l as [|y t IH]; simpl; intros Hs.
  - constructor; constructor.
  - inversion Hs as [|? ? Hs' Hall]; subst.
    destruct (precedes key tie x y) eqn:Hb.
    + apply precedes_le in Hb.
      constructor; [assumption|]. constructor; [assumption|].
      rewrite Forall_forall in *. intros z Hz. specialize (Hall z Hz). lia.
    + apply not_precedes_le in Hb.
      constructor; [auto|].
      rewrite Forall_forall in *. intros z Hz.
      apply (Permutation_in _ (insertBy_perm x t)) in Hz as [<-|Hz]; [assumption|auto].
Qed.

Lemma sortBy_sorted (l : list A) :
  StronglySorted (fun a b => (key a <= key b)%Z) (sortBy key tie l).
Proof.
  induction l as [|x t IH]; simpl; [constructor|]. now apply insertBy_sorted.
Qed.

Lemma insertBy_snoc (a x : A) (l : list A) :
  (key a < key x)%Z ->
  insertBy key tie a (l ++ [x]) = (insertBy key tie a l ++ [x])%list.
Proof.
  intros Hlt. induction l as [|y t IH]; simpl.
  - now rewrite precedes_lt.
  - destruct (precedes key tie a y); [reflexivity|]. now rewrite IH.
Qed.

(** A document dated after all the others sorts last, whatever the order
    of equal keys. *)
Lemma sortBy_snoc (x : A) (l : list A) :
  (forall y, In y l -> (key y < key x)%Z) ->
  sortBy key tie (l ++ [x]) = (sortBy key tie l ++ [x])%list.
Proof.
  induction l as [|a l IH]; simpl; intros H; [reflexivity|].
  rewrite IH by auto. apply insertBy_snoc. auto.
Qed.

(** The last document of a sorted list has the greatest key. *)
Lemma sorted_last (l : list A) (x : A) :
  StronglySorted (fun a b => (key a <= key b)%Z) (l ++ [x])%list ->
  forall y, In y l -> (key y <= key x)%Z.
Proof.
  induction l as [|a l IH]; simpl; intros Hs y Hy; [contradiction|].
  inversion Hs as [|? ? Hs' Hall]; subst. destruct Hy as [<-|Hy]; [|auto].
  rewrite Forall_forall in Hall. apply Hall, in_or_app. right. now left.
Qed.

End SortByFacts.

(** ** Every ascending order is the order of some store *)

Lemma StronglySorted_in_impl {A : Type} (R R' : A -> A -> Prop) (l : list A) :
  (forall a b, In a l -> In b l -> R a b -> R' a b) ->
  StronglySorted R l -> StronglySorted R' l.
Proof.
  intros Himp Hs. induction Hs as [|a l Hs IH Hall]; constructor.
  - apply IH. intros x y Hx Hy. apply Himp; now right.
  - rewrite Forall_forall in *. intros x Hx. apply Himp; [now left|now right|auto].
Qed.

Lemma StronglySorted_map {A B : Type} (f : A -> B) (R : B -> B -> Prop) (l : list A) :
  StronglySorted (fun a b => R (f a) (f b)) l <-> StronglySorted R (map f l).
Proof.
  induction l as [|a l IH]; simpl; split; intros Hs; try constructor;
    inversion Hs as [|? ? Hs' Hall]; subst.
  - now apply IH.
  - rewrite Forall_forall in *. intros y Hy.
    apply in_map_iff in Hy as (x & <- & Hx). auto.
  - now apply IH.
  - rewrite Forall_forall in *. intros x Hx. apply Hall. now apply in_map.
Qed.

Lemma StronglySorted_and {A : Type} (R R' : A -> A -> Prop) (l : list A) :
  StronglySorted R l -> StronglySorted R' l ->
  StronglySorted (fun a b => R a b /\ R' a b) l.
Proof.
  induction l as [|a l IH]; intros H1 H2; constructor;
    inversion H1 as [|? ? H1' Hall1]; inversion H2 as [|? ? H2' Hall2]; subst; auto.
  rewrite Forall_forall in *. auto.
Qed.

Lemma StronglySorted_compare {A : Type} (R : A -> A -> Prop) (l : list A) (x y : A) :
  StronglySorted R l -> In x l -> In y l -> x = y \/ R x y \/ R y x.
Proof.
  induction 1 as [|a l Hs IH Hall]; simpl; intros Hx Hy; [contradiction|].
  rewrite Forall_forall in Hall.
  destruct Hx as [<-|Hx], Hy as [<-|Hy]; auto.
Qed.

(** Two lists with the same elements, sorted for an order in which no two
    elements precede each other, are the same list. *)
Lemma sorted_unique {A : Type} (R : A -> A -> Prop) (l1 l2 : list A) :
  (forall a b, R a b -> R b a -> False) ->
  StronglySorted R l1 -> StronglySorted R l2 -> Permutation l1 l2 -> l1 = l2.
Proof.
  intros Hasym. revert l2. induction l1 as [|a t1 IH]; intros l2 H1 H2 Hperm.
  - apply Permutation_nil in Hperm. now subst.
  - destruct l2 as [|b t2].
    + symmetry in Hperm. apply Permutation_nil in Hperm. discriminate.
    + inversion H1 as [|? ? H1' Hall1]; inversion H2 as [|? ? H2' Hall2]; subst.
      rewrite Forall_forall in Hall1, Hall2.
      assert (a = b).
      { assert (Ha : In a (b :: t2)) by (apply (Permutation_in _ Hperm); now left).
        assert (Hb : In b (a :: t1))
          by (apply (Permutation_in _ (Permutation_sym Hperm)); now left).
        destruct Ha as [Ha|Ha]; [now symmetry|].
        destruct Hb as [Hb|Hb]; [assumption|].
        exfalso. apply (Hasym a b); auto. }
      subst b. f_equal. apply IH; auto. now apply Permutation_cons_inv in Hperm.
Qed.

Lemma indexOf_sorted (ns : list nat) :
  NoDup ns -> StronglySorted (fun a b => indexOf a ns < indexOf b ns) ns.
Proof.
  induction ns as [|m t IH]; intros Hnd; [constructor|].
  inversion Hnd as [|? ? Hnotin Hnd']; subst.
  assert (Hshift : forall a, In a t -> indexOf a (m :: t) = S (indexOf a t)).
  { intros a Ha. simpl. destruct (Nat.eqb_spec m a); [now subst|reflexivity]. }
  constructor.
  - apply (StronglySorted_in_impl (fun a b => indexOf a t < indexOf b t)); [|auto].
    intros a b Ha Hb Hlt. rewrite !Hshift by assumption. lia.
  - rewrite Forall_forall. intros b Hb. rewrite (Hshift b Hb). simpl.
    rewrite Nat.eqb_refl. lia.
Qed.

Section SortComplete.

Context {A : Type} (key : A -> Z) (idf : A -> nat) (l' : list A).
Hypothesis ids_unique : NoDup (map idf l').
Hypothesis ascending : StronglySorted (fun a b => (key a <= key b)%Z) l'.

Lemma rank_sorted :
  StronglySorted (fun x y => rankIn idf l' x < rankIn idf l' y) l'.
Proof.
  unfold rankIn.
  apply (StronglySorted_map idf (fun a b => indexOf a (map idf l') < indexOf b (map idf l'))).
  now apply indexOf_sorted.
Qed.

Lemma rank_compare (x y : A) :
  In x l' -> In y l' ->
  x = y \/
  (rankIn idf l' x < rankIn idf l' y /\ (key x <= key y)%Z) \/
  (rankIn idf l' y < rankIn idf l' x /\ (key y <= key x)%Z).
Proof.
  intros Hx Hy.
  destruct (StronglySorted_compare _ l' x y
              (StronglySorted_and _ _ l' rank_sorted ascending) Hx Hy)
    as [H|[H|H]]; auto.
Qed.

Lemma precedes_rank (x y : A) :
  In x l' -> In y l' ->
  precedes key (orderOf idf l') x y = (rankIn idf l' x <? rankIn idf l' y).
Proof.
  intros Hx Hy. unfold precedes, orderOf.
  destruct (rank_compare x y Hx Hy) as [->|[[Hr Hk]|[Hr Hk]]].
  - rewrite Z.ltb_irrefl, Nat.ltb_irrefl. now rewrite andb_false_r.
  - rewrite (proj2 (Nat.ltb_lt _ _) Hr), andb_true_r.
    destruct (Z.ltb_spec (key x) (key y)); [reflexivity|].
    simpl. apply Z.eqb_eq. lia.
  - assert (Hf : (rankIn idf l' x <? rankIn idf l' y) = false)
      by (apply Nat.ltb_ge; lia).
    rewrite Hf, andb_false_r, orb_false_r. apply Z.ltb_ge. exact Hk.
Qed.

Lemma insertBy_rank_sorted (x : A) (s : list A) :
  In x l' -> (forall y, In y s -> In y l') ->
  (forall y, In y s -> rankIn idf l' y <> rankIn idf l' x) ->
  StronglySorted (fun a b => rankIn idf l' a < rankIn idf l' b) s ->
  StronglySorted (fun a b => rankIn idf l' a < rankIn idf l' b)
                 (insertBy key (orderOf idf l') x s).
Proof.
  intros Hx. induction s as [|y t IH]; simpl; intros Hin Hne Hs.
  - constructor; constructor.
  - inversion Hs as [|? ? Hs' Hall]; subst. rewrite Forall_forall in Hall.
    rewrite precedes_rank by auto.
    destruct (Nat.ltb_spec (rankIn idf l' x) (rankIn idf l' y)) as [Hlt|Hge].
    + constructor; [assumption|]. rewrite Forall_forall.
      intros z [<-|Hz]; [assumption|]. specialize (Hall z Hz). lia.
    + constructor; [apply IH; auto|]. rewrite Forall_forall. intros z Hz.
      apply (Permutation_in _ (insertBy_perm key _ x t)) in Hz as [<-|Hz]; [|auto].
      specialize (Hne y (or_introl eq_refl)). lia.
Qed.

Lemma sortBy_rank_sorted (l : list A) :
  (forall y, In y l -> In y l') -> NoDup (map (rankIn idf l') l) ->
  StronglySorted (fun a b => rankIn idf l' a < rankIn idf l' b)
                 (sortBy key (orderOf idf l') l).
Proof.
  induction l as [|x t IH]; simpl; intros Hin Hnd; [constructor|].
  inversion Hnd as [|? ? Hnotin Hnd']; subst.
  apply insertBy_rank_sorted; auto.
  - intros y Hy. apply (Permutation_in _ (sortBy_perm key _ t)) in Hy. auto.
  - intros y Hy Heq. apply (Permutation_in _ (sortBy_perm key _ t)) in Hy.
    apply Hnotin. rewrite <- Heq. now apply in_map.
Qed.

(** Every ascending arrangement [l'] of the documents [l] is what the sort
    returns for some order of equal keys. *)
Lemma sortBy_complete (l : list A) :
  Permutation l l' -> sortBy key (orderOf idf l') l = l'.
Proof.
  intros Hperm.
  assert (Hranks : NoDup (map (rankIn idf l') l')).
  { apply StronglySorted_lt_NoDup.
    apply (StronglySorted_map (rankIn idf l') lt). exact rank_sorted. }
  apply (sorted_unique (fun a b => rankIn idf l' a < rankIn idf l' b)).
  - intros a b. lia.
  - apply sortBy_rank_sorted.
    + intros y. apply (Permutation_in _ Hperm).
    + apply (Permutation_NoDup (Permutation_map _ (Permutation_sym Hperm)) Hranks).
  - exact rank_sorted.
  - rewrite sortBy_perm. exact Hperm.
Qed.

End SortComplete.

Lemma insertByJoinedAt_insertBy (tie : TieOrder RoomMember) (m : RoomMember)
    (l : list RoomMember) :
  insertByJoinedAt tie m l = insertBy joinedAt tie m l.
Proof.
  induction l as [|x s IH]; [reflexivity|].
  cbn [insertByJoinedAt insertBy]. rewrite IH. reflexivity.
Qed.

Lemma sortByJoinedAt_sortBy (tie : TieOrder RoomMember) (l : list RoomMember) :
  sortByJoinedAt tie l = sortBy joinedAt tie l.
Proof.
  induction l as [|m t IH]; [reflexivity|].
  cbn [sortByJoinedAt sortBy]. rewrite IH. apply insertByJoinedAt_insertBy.
Qed.

(** Every arrangement of the memberships in ascending order of their dates
    is what the sort returns for some order of equal dates. *)
Lemma every_ascending_order (l l' : list RoomMember) :
  NoDup (map rm_id l') -> StronglySorted earlier l' -> Permutation l l' ->
  sortByJoinedAt (orderOf rm_id l') l = l'.
Proof.
  intros Hnd Hs Hperm. rewrite sortByJoinedAt_sortBy.
  now apply sortBy_complete.
Qed.

(** X13. For an existing room, the history handler answers 403 exactly when
    the requester holds no membership in the room; otherwise it answers 200
    with all the stored messages of that room and no other, in ascending
    order of their dates, each with its author populated. *)
Theorem getMessages_contract (tie : TieOrder Message) (db : Db) (rid uid : nat)
    (room : Room) :
  Room_findById db rid = Some room ->
  (getMessages tie db rid uid = Forbidden <-> RoomMember_findOne db rid uid = None) /\
  (RoomMember_findOne db rid uid <> None ->
     exists msgs,
       getMessages tie db rid uid = Json 200 (map (populateAuthor db) msgs) /\
       Permutation msgs (Message_find db rid) /\
       (forall m, In m msgs <-> In m (messages db) /\ msg_room m = rid) /\
       StronglySorted (fun a b => (createdAt a <= createdAt b)%Z) msgs /\
       map pm_doc (map (populateAuthor db) msgs) = msgs).
Proof.
  intros Hfind. unfold getMessages. rewrite Hfind. split.
  - destruct (RoomMember_findOne db rid uid); split; try discriminate; reflexivity.
  - intros Hmem. destruct (RoomMember_findOne db rid uid); [|now elim Hmem].
    exists (sortBy createdAt tie (Message_find db rid)).
    split; [reflexivity|]. split; [apply sortBy_perm|]. split; [|split].
    + intros m. split.
      * intros Hm. apply (Permutation_in _ (sortBy_perm createdAt tie _)) in Hm.
        unfold Message_find in Hm. apply filter_In in Hm as [Hm Hr].
        now apply Nat.eqb_eq in Hr.
      * intros [Hm Hr].
        apply (Permutation_in _ (Permutation_sym (sortBy_perm createdAt tie _))).
        unfold Message_find. apply filter_In. split; [assumption|].
        now apply Nat.eqb_eq.
    + apply sortBy_sorted.
    + rewrite map_map. simpl. apply map_id.
Qed.

Lemma getMessages_contract_witness :
  Room_findById demoDb 0 = Some demoRoom /\
  getMessages collectionOrder demoDb 0 9 = Forbidden /\
  exists msgs,
    getMessages collectionOrder demoDb 0 2 = Json 200 (map (populateAuthor demoDb) msgs) /\
    Permutation msgs (Message_find demoDb 0).
Proof.
  split; [reflexivity|].
  destruct (getMessages_contract collectionOrder demoDb 0 9 demoRoom eq_refl)
    as [Hforbid _].
  destruct (getMessages_contract collectionOrder demoDb 0 2 demoRoom eq_refl)
    as [_ Hok].
  split; [apply Hforbid; reflexivity|].
  destruct Hok as (msgs & Heq & Hperm & _); [discriminate|].
  exists msgs. split; assumption.
Defined.

(** X14. A message that was sent is in the history: after a member's message
    with non-blank content was accepted, the history of the room read by
    that member holds the stored message (trimmed content, server date)
    and, besides it, exactly the messages of the room stored before; the new
    message is the last one when every stored message of the room is dated
    strictly before it; and the history of every other room is what it
    was. *)
Theorem send_then_history (tie : TieOrder Message)
    (db : Db) (rid uid : nat) (c : string) (now : Z) :
  Room_findById db rid <> None -> RoomMember_findOne db rid uid <> None ->
  trim c <> EmptyString ->
  (exists msgs,
     getMessages tie (fst (sendMessage db rid uid (Some c) now)) rid uid
       = Json 200 (map (populateAuthor db) msgs) /\
     In (mkMessage (nextId db) rid uid (trim c) now) msgs /\
     (forall m, In m msgs <->
        m = mkMessage (nextId db) rid uid (trim c) now \/
        In m (Message_find db rid)) /\
     StronglySorted (fun a b => (createdAt a <= createdAt b)%Z) msgs /\
     ((forall m, In m (Message_find db rid) -> (createdAt m < now)%Z) ->
      msgs = (sortBy createdAt tie (Message_find db rid)
                ++ [mkMessage (nextId db) rid uid (trim c) now])%list)) /\
  (forall tie' rid' uid', rid' <> rid ->
     getMessages tie' (fst (sendMessage db rid uid (Some c) now)) rid' uid'
       = getMessages tie' db rid' uid').
Proof.
  intros Hroom Hmem Hc.
  assert (Hsend : fst (sendMessage db rid uid (Some c) now) =
    mkDb (users db) (rooms db) (roomMembers db)
         (messages db ++ [mkMessage (nextId db) rid uid (trim c) now])
         (S (nextId db))
         (emitted db ++
          [(rid, mkPopulatedMessage (mkMessage (nextId db) rid uid (trim c) now)
                                    (User_findById db uid))])).
  { unfold sendMessage.
    assert (F : falsy (Some c) || falsy (option_map trim (Some c)) = false).
    { simpl. destruct c as [|a c]; [now elim Hc|].
      destruct (trim (String a c)); [now elim Hc|reflexivity]. }
    rewrite F. destruct (Room_findById db rid); [|now elim Hroom].
    destruct (RoomMember_findOne db rid uid); [reflexivity|now elim Hmem]. }
  rewrite Hsend. split.
  - unfold getMessages.
    change (Room_findById (mkDb _ _ _ _ _ _) rid) with (Room_findById db rid).
    change (RoomMember_findOne (mkDb _ _ _ _ _ _) rid uid)
      with (RoomMember_findOne db rid uid).
    destruct (Room_findById db rid); [|now elim Hroom].
    destruct (RoomMember_findOne db rid uid); [|now elim Hmem].
    eexists. split; [reflexivity|].
    assert (Hfind : Message_find
              (mkDb (users db) (rooms db) (roomMembers db)
                 (messages db ++ [mkMessage (nextId db) rid uid (trim c) now])
                 (S (nextId db))
                 (emitted db ++
                  [(rid, mkPopulatedMessage
                           (mkMessage (nextId db) rid uid (trim c) now)
                           (User_findById db uid))])) rid
            = (Message_find db rid ++ [mkMessage (nextId db) rid uid (trim c) now])%list).
    { unfold Message_find. simpl. rewrite filter_snoc. simpl.
      now rewrite Nat.eqb_refl. }
    rewrite Hfind.
    assert (Hin : forall m,
              In m (sortBy createdAt tie
                      (Message_find db rid
                         ++ [mkMessage (nextId db) rid uid (trim c) now])%list) <->
              m = mkMessage (nextId db) rid uid (trim c) now \/
              In m (Message_find db rid)).
    { intros m. split.
      - intros H. apply (Permutation_in _ (sortBy_perm createdAt tie _)) in H.
        apply in_app_or in H as [H|[<-|[]]]; auto.
      - intros H.
        apply (Permutation_in _ (Permutation_sym (sortBy_perm createdAt tie _))).
        apply in_or_app. destruct H as [->|H]; [right; now left|now left]. }
    split; [apply Hin; now left|]. split; [exact Hin|].
    split; [apply sortBy_sorted|].
    intros Hlast. now apply sortBy_snoc.
  - intros tie' rid' uid' Hne. unfold getMessages.
    change (Room_findById (mkDb _ _ _ _ _ _) rid') with (Room_findById db rid').
    change (RoomMember_findOne (mkDb _ _ _ _ _ _) rid' uid')
      with (RoomMember_findOne db rid' uid').
    destruct (Room_findById db rid'); [|reflexivity].
    destruct (RoomMember_findOne db rid' uid'); [|reflexivity].
    unfold Message_find. simpl. rewrite filter_snoc. simpl.
    apply Nat.eqb_neq in Hne. rewrite Nat.eqb_sym, Hne, app_nil_r. reflexivity.
Qed.

Lemma send_then_history_witness :
  Room_findById demoDb 0 <> None /\ RoomMember_findOne demoDb 0 2 <> None /\
  trim " see you " <> EmptyString /\
  exists msgs,
    getMessages reverseOrder (fst (sendMessage demoDb 0 2 (Some " see you ") 130%Z)) 0 2
      = Json 200 (map (populateAuthor demoDb) msgs) /\
    In (mkMessage (nextId demoDb) 0 2 (trim " see you ") 130%Z) msgs /\
    msgs = [mkMessage 4 0 1 "hi" 103%Z; mkMessage 5 0 2 "see you" 130%Z].
Proof.
  assert (H1 : Room_findById demoDb 0 <> None) by discriminate.
  assert (H2 : RoomMember_findOne demoDb 0 2 <> None) by discriminate.
  assert (H3 : trim " see you " <> EmptyString) by discriminate.
  split; [exact H1|]. split; [exact H2|]. split; [exact H3|].
  destruct (send_then_history reverseOrder demoDb 0 2 " see you " 130%Z H1 H2 H3)
    as [(msgs & Heq & Hin & _ & _ & Hlast) _].
  exists msgs. split; [exact Heq|]. split; [exact Hin|].
  apply Hlast. intros m Hm. simpl in Hm. destruct Hm as [<-|[]]. reflexivity.
Defined.

(** ** The list of rooms *)

Lemma filter_implied {A : Type} (p q : A -> bool) (l : list A) :
  (forall x, In x l -> p x = true -> q x = true) ->
  filter p (filter q l) = filter p l.
Proof.
  induction l as [|a l IH]; simpl; intros H; [reflexivity|].
  destruct (q a) eqn:Hq; simpl.
  - rewrite IH by auto. reflexivity.
  - destruct (p a) eqn:Hp.
    + rewrite (H a (or_introl eq_refl) Hp) in Hq. discriminate.
    + now rewrite IH by auto.
Qed.

Lemma find_tabulated {B : Type} (g : nat -> B) (l : list nat) (k : nat) :
  In k l -> find (fun c => fst c =? k) (map (fun x => (x, g x)) l) = Some (k, g k).
Proof.
  induction l as [|a l IH]; simpl; intros Hin; [contradiction|].
  destruct (Nat.eqb_spec a k) as [->|Hne]; [reflexivity|].
  destruct Hin as [Heq|Hin]; [contradiction|auto].
Qed.

Lemma StronglySorted_weaken {A : Type} (R R' : A -> A -> Prop) (l : list A) :
  (forall a b, R a b -> R' a b) -> StronglySorted R l -> StronglySorted R' l.
Proof.
  intros Himp. induction 1 as [|a l Hs IH Hall]; constructor; auto.
  rewrite Forall_forall in *. auto.
Qed.

Lemma existsb_roomIds (db : Db) (uid rid : nat) :
  existsb (Nat.eqb rid)
          (map rm_room (filter (fun m => rm_user m =? uid) (roomMembers db)))
  = isMember db rid uid.
Proof.
  unfold isMember. destruct (RoomMember_findOne db rid uid) as [m|] eqn:E.
  - apply findOne_some in E as (Hin & Hr & Hu). apply existsb_exists.
    exists rid. split; [|apply Nat.eqb_refl].
    apply in_map_iff. exists m. split; [assumption|].
    apply filter_In. split; [assumption|]. now apply Nat.eqb_eq.
  - destruct (existsb _ _) eqn:Ex; [|reflexivity]. exfalso.
    apply existsb_exists in Ex as (k & Hk & Heq). apply Nat.eqb_eq in Heq. subst k.
    apply in_map_iff in Hk as (m & Hr & Hm). apply filter_In in Hm as [Hm Hu].
    apply Nat.eqb_eq in Hu. now apply (findOne_none db rid uid E m Hm).
Qed.

(** X15. The room list of a user holds exactly the rooms in which the user
    has a membership, each once, newest first, and each with the number of
    memberships of the room as its [membersCount]; for a user without
    membership it is empty. *)
Theorem listRooms_contract (roomCreatedAt : Room -> Z) (tie : TieOrder Room)
    (db : Db) (uid : nat) :
  exists listed,
    listRooms roomCreatedAt tie db uid = Json 200 listed /\
    Permutation (map fst listed)
      (filter (fun r => isMember db (room_id r) uid)
              (rooms db)) /\
    (forall r n, In (r, n) listed ->
       n = RoomMember_countDocuments db (room_id r)) /\
    StronglySorted (fun a b => (roomCreatedAt b <= roomCreatedAt a)%Z)
                   (map fst listed).
Proof.
  unfold listRooms.
  set (roomIds := map rm_room (filter (fun m => rm_user m =? uid) (roomMembers db))).
  assert (Hfilter :
    filter (fun r => existsb (Nat.eqb (room_id r)) roomIds) (rooms db) =
    filter (fun r => isMember db (room_id r) uid)
           (rooms db)).
  { apply filter_ext. intros r. apply existsb_roomIds. }
  destruct (Nat.eqb_spec (List.length roomIds) 0) as [Hzero|Hsome].
  - exists []. split; [reflexivity|]. split; [|split].
    + rewrite <- Hfilter. apply length_zero_iff_nil in Hzero. rewrite Hzero. simpl.
      rewrite filter_none; [constructor|reflexivity].
    + intros r n [].
    + constructor.
  - eexists. split; [reflexivity|]. rewrite map_map. simpl. rewrite map_id.
    split; [|split].
    + rewrite <- Hfilter. apply sortBy_perm.
    + intros r n Hin. apply in_map_iff in Hin as (r0 & Heq & Hr0).
      injection Heq as -> <-.
      apply (Permutation_in _ (sortBy_perm _ _ _)) in Hr0.
      apply filter_In in Hr0 as [_ Hex].
      unfold membersCount, countsByRoom. rewrite find_tabulated.
      * unfold RoomMember_countDocuments, RoomMember_find. f_equal. f_equal.
        apply filter_implied. intros x _ Hx. unfold inRoom in Hx.
        apply Nat.eqb_eq in Hx. now rewrite Hx.
      * apply nodup_In. fold roomIds in Hex. fold roomIds.
        apply existsb_exists in Hex as (k & Hk & Heq). apply Nat.eqb_eq in Heq. subst k.
        pose proof Hk as Hk'. unfold roomIds in Hk'.
        apply in_map_iff in Hk' as (m & Hr & Hm). apply filter_In in Hm as [Hm _].
        apply in_map_iff. exists m. split; [assumption|].
        apply filter_In. split; [assumption|]. apply existsb_exists.
        exists (room_id r). split; [assumption|]. rewrite Hr. apply Nat.eqb_refl.
    + apply (StronglySorted_weaken
               (fun a b => (- roomCreatedAt a <= - roomCreatedAt b)%Z)).
      * intros a b. lia.
      * apply (sortBy_sorted (fun r => (- roomCreatedAt r)%Z) tie).
Qed.

Lemma listRooms_contract_witness :
  listRooms (fun r => Z.of_nat (room_id r)) collectionOrder demoDb 3
    = Json 200 [(demoRoom, 3%Z)] /\
  listRooms (fun r => Z.of_nat (room_id r)) collectionOrder demoDb 9 = Json 200 [] /\
  exists listed,
    listRooms (fun r => Z.of_nat (room_id r)) collectionOrder demoDb 3 = Json 200 listed /\
    (forall r n, In (r, n) listed ->
       n = RoomMember_countDocuments demoDb (room_id r)).
Proof.
  split; [reflexivity|]. split; [reflexivity|].
  destruct (listRooms_contract (fun r => Z.of_nat (room_id r)) collectionOrder demoDb 3)
    as (listed & Heq & _ & Hcount & _).
  exists listed. split; assumption.
Defined.

(** ** Accounts *)

Lemma trimStart_length (s : string) : String.length (trimStart s) <= String.length s.
Proof.
  induction s as [|c s IH]; simpl; [lia|].
  destruct (isWhiteSpace c); simpl; lia.
Qed.

Lemma trimEnd_length (s : string) : String.length (trimEnd s) <= String.length s.
Proof.
  induction s as [|c s IH]; simpl; [lia|].
  destruct (trimEnd s); [destruct (isWhiteSpace c)|]; simpl in *; lia.
Qed.

Lemma trim_length (s : string) : String.length (trim s) <= String.length s.
Proof.
  unfold trim. etransitivity; [apply trimEnd_length|apply trimStart_length].
Qed.

Section ReplaceFacts.

Context {A B : Type} (idf : A -> nat) (f : A -> B).

Lemma replaceAt_absent (k : nat) (v : A) (l : list A) :
  (forall y, In y l -> idf y <> k) -> replaceAt idf k v l = l.
Proof.
  intros H. unfold replaceAt. rewrite <- (map_id l) at 2. apply map_ext_in.
  intros y Hy. destruct (Nat.eqb_spec (idf y) k); [now elim (H y Hy)|reflexivity].
Qed.

Lemma NoDup_map_replace (k : nat) (v x : A) (l : list A) :
  NoDup (map idf l) -> NoDup (map f l) -> In x l -> idf x = k ->
  (forall y, In y l -> y <> x -> f y <> f v) ->
  NoDup (map f (replaceAt idf k v l)).
Proof.
  induction l as [|b t IH]; simpl; intros Hid Hf Hin Hk Hv; [contradiction|].
  inversion Hid as [|? ? Hidb Hid']; subst. inversion Hf as [|? ? Hfb Hf']; subst.
  destruct (Nat.eqb_spec (idf b) (idf x)) as [Heq|Hne].
  - assert (b = x).
    { destruct Hin as [Hin|Hin]; [assumption|]. exfalso. apply Hidb.
      rewrite Heq. now apply in_map. }
    subst b. fold (replaceAt idf (idf x) v t). rewrite replaceAt_absent.
    + constructor; [|assumption]. intros Hin'.
      apply in_map_iff in Hin' as (y & Hy & Hyt). apply (Hv y); auto.
      intros ->. apply Hidb. now apply in_map.
    + intros y Hy Hyk. apply Hidb. rewrite <- Hyk. now apply in_map.
  - destruct Hin as [Hin|Hin]; [congruence|].
    fold (replaceAt idf (idf x) v t). constructor.
    + intros Hin'. apply in_map_iff in Hin' as (y & Hy & Hyt).
      apply replaceAt_In in Hyt as [[-> _]|[Hyt _]].
      * apply (Hv b); auto. intros ->. now apply Hne.
      * apply Hfb. rewrite <- Hy. now apply in_map.
    + apply IH; auto.
Qed.

End ReplaceFacts.

Lemma findByEmail_none (a : Accounts) (e : string) :
  User_findOneByEmail a e = None ->
  forall x, In x (accounts a) -> user_email (acc_user x) <> e.
Proof.
  unfold User_findOneByEmail. intros H x Hx Heq.
  apply (find_none _ _ H) in Hx. simpl in Hx. apply String.eqb_neq in Hx. contradiction.
Qed.

Lemma findByName_none (a : Accounts) (n : string) :
  User_findOneByName a n = None ->
  forall x, In x (accounts a) -> user_name (acc_user x) <> n.
Proof.
  unfold User_findOneByName. intros H x Hx Heq.
  apply (find_none _ _ H) in Hx. simpl in Hx. apply String.eqb_neq in Hx. contradiction.
Qed.

Lemma findByName_some (a : Accounts) (n : string) (x : Account) :
  User_findOneByName a n = Some x ->
  In x (accounts a) /\ user_name (acc_user x) = n.
Proof.
  unfold User_findOneByName. intros H. apply find_some in H as [Hin Heq].
  now apply String.eqb_eq in Heq.
Qed.

Lemma accountById_some (a : Accounts) (uid : nat) (x : Account) :
  Account_findById a uid = Some x ->
  In x (accounts a) /\ user_id (acc_user x) = uid.
Proof.
  unfold Account_findById. intros H. apply find_some in H as [Hin Heq].
  now apply Nat.eqb_eq in Heq.
Qed.

Lemma signupSchema_some (lib : Libraries) (name email password : option string)
    (n e p : string) :
  signupSchema lib name email password = Some (n, e, p) ->
  name = Some n /\ email = Some e /\ password = Some p /\
  1 <= String.length n /\ zodEmail lib e = true /\ 6 <= String.length p.
Proof.
  unfold signupSchema. destruct name as [n0|], email as [e0|], password as [p0|];
    try discriminate.
  destruct ((1 <=? String.length n0) && zodEmail lib e0 && (6 <=? String.length p0))
    eqn:E; [|discriminate].
  intros H. injection H as -> -> ->.
  apply andb_true_iff in E as [E E3]. apply andb_true_iff in E as [E1 E2].
  apply Nat.leb_le in E1, E3. auto 10.
Qed.

Lemma signup_AccountsOk (lib : Libraries) (a : Accounts)
    (name email password : option string) (salt : string) :
  AccountsOk a -> AccountsOk (fst (signup lib a name email password salt)).
Proof.
  intros HA. unfold signup.
  destruct (signupSchema lib name email password) as [[[n e] p]|] eqn:Es; [|exact HA].
  apply signupSchema_some in Es as (_ & _ & _ & Hn & _ & _).
  destruct (User_findOneByEmail a e) eqn:Ee; [exact HA|].
  destruct (User_findOneByName a n) eqn:En; [exact HA|].
  destruct HA as [Hfresh Hids Hemails Hnames Hnonempty Havatars].
  constructor; simpl.
  - intros x Hx. apply in_app_or in Hx as [Hx|[<-|[]]]; simpl; [|lia].
    specialize (Hfresh x Hx). lia.
  - apply NoDup_map_snoc; [assumption|]. simpl. intros x Hx.
    specialize (Hfresh x Hx). lia.
  - apply NoDup_map_snoc; [assumption|]. simpl. now apply findByEmail_none.
  - apply NoDup_map_snoc; [assumption|]. simpl. now apply findByName_none.
  - intros x Hx. apply in_app_or in Hx as [Hx|[<-|[]]]; simpl; [auto|].
    intros ->. simpl in Hn. lia.
  - intros x Hx. apply in_app_or in Hx as [Hx|[<-|[]]]; simpl; auto.
Qed.

(** The successful profile update, spelled out. *)
Lemma updateProfile_success (a : Accounts) (uid : nat) (name avatar : option string) :
  AccountsOk a -> isFailure (snd (updateProfile a uid name avatar)) = false ->
  exists x user',
    Account_findById a uid = Some x /\
    updateProfile a uid name avatar
      = (Account_save a (mkAccount user' (passwordHash x)), Json 200 (profile user')) /\
    user_id user' = uid /\ user_email user' = user_email (acc_user x) /\
    user_name user' = match name with
                      | Some n => n
                      | None => user_name (acc_user x)
                      end /\
    (forall y, In y (accounts a) -> y <> x ->
       user_name (acc_user y) <> user_name user') /\
    user_avatar user' = match avatar with
                        | Some av => match trim av with
                                     | EmptyString => None
                                     | t => Some t
                                     end
                        | None => user_avatar (acc_user x)
                        end /\
    updateProfileSchema name avatar = true.
Proof.
  intros HA Hok. unfold updateProfile in *.
  destruct (updateProfileSchema name avatar) eqn:Es; [|discriminate]. simpl negb in *.
  cbv iota in *.
  destruct (Account_findById a uid) as [x|] eqn:Ex; [|discriminate].
  pose proof (accountById_some _ _ _ Ex) as [Hx Hid].
  assert (Hothers : forall y, In y (accounts a) -> y <> x ->
            user_name (acc_user y) <> user_name (acc_user x)).
  { intros y Hy Hne Heq. apply Hne.
    now apply (NoDup_map_inj (fun z => user_name (acc_user z)) (accounts a));
      [apply (account_names_unique _ HA)| | |]. }
  assert (Hname : match name with Some n => 1 <= String.length n | None => True end).
  { unfold updateProfileSchema in Es. apply andb_true_iff in Es as [Es _].
    destruct name; [now apply Nat.leb_le|exact I]. }
  exists x.
  destruct name as [[|c n]|].
  - simpl in Hname. lia.
  - destruct (String.eqb_spec (String c n) (user_name (acc_user x))) as [Heq|Hne];
      simpl negb in *; cbv iota in *.
    + eexists. split; [reflexivity|]. split; [reflexivity|].
      destruct avatar; simpl; repeat split; auto; rewrite <- Heq; auto.
    + destruct (User_findOneByName a (String c n)) as [y|] eqn:En.
      * apply findByName_some in En as [Hy Hyn].
        destruct (Nat.eqb_spec (user_id (acc_user y)) (user_id (acc_user x))) as [Hsame|Hdiff];
          simpl negb in *; cbv iota in *; [|discriminate].
        exfalso. apply Hne. rewrite <- Hyn. f_equal. f_equal.
        now apply (NoDup_map_inj (fun z => user_id (acc_user z)) (accounts a));
          [apply (account_ids_unique _ HA)| | |].
      * eexists. split; [reflexivity|]. split; [reflexivity|].
        pose proof (findByName_none _ _ En) as Hfree.
        destruct avatar; simpl; repeat split; auto.
  - eexists. split; [reflexivity|]. split; [reflexivity|].
    destruct avatar; simpl; repeat split; auto.
Qed.

Lemma updateProfile_failure (a : Accounts) (uid : nat) (name avatar : option string) :
  isFailure (snd (updateProfile a uid name avatar)) = true ->
  fst (updateProfile a uid name avatar) = a.
Proof.
  unfold updateProfile. destruct (negb _); [reflexivity|].
  destruct (Account_findById a uid) as [x|]; [|reflexivity].
  destruct name as [[|c n]|]; try (destruct avatar; discriminate).
  destruct (negb (String.eqb _ _)); [|destruct avatar; discriminate].
  destruct (User_findOneByName a (String c n)) as [y|];
    [destruct (negb (_ =? _)); [reflexivity|]|]; destruct avatar; discriminate.
Qed.

Lemma updateProfile_AccountsOk (a : Accounts) (uid : nat) (name avatar : option string) :
  AccountsOk a -> AccountsOk (fst (updateProfile a uid name avatar)).
Proof.
  intros HA.
  destruct (isFailure (snd (updateProfile a uid name avatar))) eqn:F.
  - now rewrite updateProfile_failure.
  - destruct (updateProfile_success a uid name avatar HA F)
      as (x & u' & Hfind & -> & Hid & Hemail & Hname & Hfree & Havatar & Hschema).
    apply accountById_some in Hfind as [Hx Hxid]. simpl fst.
    pose proof HA as [Hfresh Hids Hemails Hnames Hnonempty Havatars].
    assert (Hsame : forall {B} (key : Account -> B),
              key (mkAccount u' (passwordHash x)) = key x ->
              map key (replaceAt (fun y => user_id (acc_user y)) uid
                         (mkAccount u' (passwordHash x)) (accounts a))
              = map key (accounts a)).
    { intros B key Hk. apply replaceAt_same. intros y Hy Hyid. rewrite Hk. f_equal.
      apply (NoDup_map_inj (fun z => user_id (acc_user z)) (accounts a)); auto.
      simpl. congruence. }
    assert (Hin' : forall y,
              In y (replaceAt (fun y => user_id (acc_user y)) uid
                      (mkAccount u' (passwordHash x)) (accounts a)) ->
              y = mkAccount u' (passwordHash x) \/ In y (accounts a)).
    { intros y Hy. apply replaceAt_In in Hy as [[-> _]|[Hy _]]; auto. }
    unfold Account_save. simpl. rewrite Hid.
    constructor; simpl.
    + intros y Hy. apply Hin' in Hy as [->|Hy]; [simpl|auto].
      rewrite Hid, <- Hxid. auto.
    + rewrite Hsame; [assumption|simpl; congruence].
    + rewrite Hsame; [assumption|simpl; congruence].
    + apply (NoDup_map_replace (fun y => user_id (acc_user y))
               (fun y => user_name (acc_user y)) uid _ x); auto.
    + intros y Hy. apply Hin' in Hy as [->|Hy]; [simpl|auto]. rewrite Hname.
      destruct name as [n|]; [|auto]. unfold updateProfileSchema in Hschema.
      apply andb_true_iff in Hschema as [Hn _]. apply Nat.leb_le in Hn.
      intros ->. simpl in Hn. lia.
    + intros y Hy. apply Hin' in Hy as [->|Hy]; [simpl|auto]. rewrite Havatar.
      destruct avatar as [av|]; [|auto].
      unfold updateProfileSchema in Hschema.
      apply andb_true_iff in Hschema as [_ Hav]. apply Nat.leb_le in Hav.
      destruct (trim av) as [|c t] eqn:Et; [exact I|].
      unfold avatarOk. rewrite <- Et. repeat split.
      * rewrite Et. discriminate.
      * apply trim_idempotent.
      * pose proof (trim_length av). lia.
Qed.

Lemma runAccounts_Ok (lib : Libraries) (rqs : list AccountRequest) :
  AccountsOk (runAccounts lib rqs).
Proof.
  unfold runAccounts.
  assert (H0 : AccountsOk (mkAccounts [] 0)).
  { constructor; simpl; intros; try contradiction; constructor. }
  revert H0. generalize (mkAccounts [] 0).
  induction rqs as [|rq rqs IH]; intros a HA; simpl; [exact HA|].
  apply IH. destruct rq; simpl.
  - now apply signup_AccountsOk.
  - now apply updateProfile_AccountsOk.
Qed.



Section Credentials.

Variable lib : Libraries.
Variables (uid : nat) (e h : string).

Lemma holds_handle (a : Accounts) (rq : AccountRequest) :
  AccountsOk a -> holds uid e h a -> holds uid e h (handleAccount lib a rq).
Proof.
  intros HA (x & Hx & Hid & He & Hh). destruct rq; simpl.
  - unfold signup. destruct (signupSchema lib name email password) as [[[n e0] p]|];
      [|exists x; auto].
    destruct (User_findOneByEmail a e0); [exists x; auto|].
    destruct (User_findOneByName a n); [exists x; auto|].
    exists x. simpl. split; [apply in_or_app; now left|auto].
  - destruct (isFailure (snd (updateProfile a userId name avatar))) eqn:F.
    + rewrite updateProfile_failure by assumption. exists x. auto.
    + destruct (updateProfile_success a userId name avatar HA F)
        as (x0 & u' & Hfind & -> & Hid0 & Hemail0 & _).
      apply accountById_some in Hfind as [Hx0 Hx0id]. simpl.
      destruct (Nat.eq_dec (user_id (acc_user x)) userId) as [Heq|Hne].
      * assert (x0 = x).
        { apply (NoDup_map_inj (fun z => user_id (acc_user z)) (accounts a)); auto.
          - apply (account_ids_unique _ HA).
          - simpl. congruence. }
        subst x0. exists (mkAccount u' (passwordHash x)).
        split; [|simpl; repeat split; congruence].
        unfold Account_save. simpl. rewrite Hid0.
        now apply (replaceAt_hit _ _ _ _ x).
      * exists x. split; [|auto]. unfold Account_save. simpl. rewrite Hid0.
        now apply replaceAt_keep.
Qed.

Lemma holds_run (rqs : list AccountRequest) (a : Accounts) :
  AccountsOk a -> holds uid e h a ->
  AccountsOk (fold_left (handleAccount lib) rqs a) /\
  holds uid e h (fold_left (handleAccount lib) rqs a).
Proof.
  revert a. induction rqs as [|rq rqs IH]; intros a HA Hh; simpl; [auto|].
  apply IH.
  - destruct rq; simpl; [now apply signup_AccountsOk|now apply updateProfile_AccountsOk].
  - now apply holds_handle.
Qed.

End Credentials.

Lemma findByEmail_found (a : Accounts) (x : Account) :
  AccountsOk a -> In x (accounts a) ->
  User_findOneByEmail a (user_email (acc_user x)) = Some x.
Proof.
  intros HA Hx. destruct (User_findOneByEmail a (user_email (acc_user x))) as [y|] eqn:E.
  - unfold User_findOneByEmail in E. apply find_some in E as [Hy Heq].
    apply String.eqb_eq in Heq. f_equal.
    now apply (NoDup_map_inj (fun z => user_email (acc_user z)) (accounts a));
      [apply (account_emails_unique _ HA)| | |].
  - exfalso. now apply (findByEmail_none a _ E x Hx).
Qed.

(** X17. With a bcrypt whose [compare] accepts a password against its own
    hash: once a signup was answered 201, the same email and password sign
    in, with the same user id, whatever signups and profile updates were
    handled in between; and no later signup with that email succeeds. *)
Theorem signup_then_signin
    (lib : Libraries) (rqs0 rqs : list AccountRequest)
    (name email password : option string) (salt msg token : string)
    (ident : Identity) :
  (forall p s, bcryptCompare lib p (bcryptHash lib p s) = true) ->
  snd (signup lib (runAccounts lib rqs0) name email password salt)
    = Json 201 (msg, ident, token) ->
  (exists ident',
     signin lib (runAccounts lib (rqs0 ++ Signup name email password salt :: rqs))
            email password
       = Json 200 ("Signed in", ident', jwtSign lib ident') /\
     id_id ident' = id_id ident /\ id_email ident' = id_email ident) /\
  (forall name' password' salt',
     isFailure
       (snd (signup lib
               (runAccounts lib (rqs0 ++ Signup name email password salt :: rqs))
               name' email password' salt')) = true).
Proof.
  intros Hbcrypt Hsignup.
  pose proof (runAccounts_Ok lib rqs0) as HA0.
  pose proof (signup_AccountsOk lib _ name email password salt HA0) as HA1.
  assert (Hrun : runAccounts lib (rqs0 ++ Signup name email password salt :: rqs)
                 = fold_left (handleAccount lib) rqs
                     (fst (signup lib (runAccounts lib rqs0) name email password salt))).
  { unfold runAccounts. rewrite fold_left_app. reflexivity. }
  rewrite Hrun. clear Hrun.
  set (a0 := runAccounts lib rqs0) in *.
  unfold signup in Hsignup, HA1 |- *.
  destruct (signupSchema lib name email password) as [[[n e] p]|] eqn:Es;
    [|discriminate].
  apply signupSchema_some in Es as (-> & -> & -> & Hn & He & Hp).
  destruct (User_findOneByEmail a0 e); [discriminate|].
  destruct (User_findOneByName a0 n); [discriminate|].
  simpl in Hsignup. injection Hsignup as <- <- <-. simpl fst in *.
  set (user := mkUser (nextUserId a0) n e None) in *.
  set (a1 := mkAccounts _ _) in *.
  assert (Hholds : holds (nextUserId a0) e (bcryptHash lib p salt) a1).
  { exists (mkAccount user (bcryptHash lib p salt)). simpl.
    split; [apply in_or_app; right; now left|auto]. }
  destruct (holds_run lib _ _ _ rqs a1 HA1 Hholds) as [HA (x & Hx & Hid & Hemail & Hhash)].
  set (later := fold_left (handleAccount lib) rqs a1) in *.
  pose proof (findByEmail_found later x HA Hx) as Hfound. rewrite Hemail in Hfound.
  split.
  - exists (identity (acc_user x)). unfold signin, signinSchema.
    rewrite He. destruct (Nat.leb_spec 1 (String.length p)); [|lia]. simpl.
    rewrite Hfound, Hhash, Hbcrypt. simpl.
    split; [reflexivity|]. simpl. auto.
  - intros name' password' salt'. unfold signup.
    destruct (signupSchema lib name' (Some e) password') as [[[n' e'] p']|] eqn:Es';
      [|reflexivity].
    apply signupSchema_some in Es' as (_ & He' & _). injection He' as <-.
    now rewrite Hfound.
Qed.

Lemma signup_then_signin_witness :
  (forall p s, bcryptCompare demoLib p (bcryptHash demoLib p s) = true) /\
  exists ident',
    signin demoLib
      (runAccounts demoLib
         ([Signup (Some "ann") (Some "ann@example.org") (Some "secret1") "s1"] ++
          Signup (Some "bob") (Some "bob@example.org") (Some "secret2") "s2"
            :: [UpdateProfile 1 (Some "bobby") None]))
      (Some "bob@example.org") (Some "secret2")
      = Json 200 ("Signed in", ident', jwtSign demoLib ident') /\
    id_id ident' = 1.
Proof.
  assert (Hbcrypt : forall p s, bcryptCompare demoLib p (bcryptHash demoLib p s) = true)
    by (intros p s; apply String.eqb_refl).
  split; [exact Hbcrypt|].
  destruct (signup_then_signin demoLib
              [Signup (Some "ann") (Some "ann@example.org") (Some "secret1") "s1"]
              [UpdateProfile 1 (Some "bobby") None]
              (Some "bob") (Some "bob@example.org") (Some "secret2") "s2"
              "User created" "bob@example.org" (mkIdentity 1 "bob" "bob@example.org")
              Hbcrypt eq_refl) as [(ident' & Heq & Hid & _) _].
  exists ident'. split; assumption.
Defined.

Lemma accountById_found (a : Accounts) (x : Account) :
  AccountsOk a -> In x (accounts a) ->
  Account_findById a (user_id (acc_user x)) = Some x.
Proof.
  intros HA Hx. unfold Account_findById.
  destruct (find _ (accounts a)) as [y|] eqn:E.
  - apply find_some in E as [Hy Heq]. apply Nat.eqb_eq in Heq. f_equal.
    now apply (NoDup_map_inj (fun z => user_id (acc_user z)) (accounts a));
      [apply (account_ids_unique _ HA)| | |].
  - apply (find_none _ _ E) in Hx. simpl in Hx. now rewrite Nat.eqb_refl in Hx.
Qed.

Lemma accountById_save_other (a : Accounts) (acc : Account) (uid' : nat) :
  uid' <> user_id (acc_user acc) ->
  Account_findById (Account_save a acc) uid' = Account_findById a uid'.
Proof.
  intros Hne. unfold Account_findById, Account_save, replaceAt. simpl.
  induction (accounts a) as [|x l IH]; simpl; [reflexivity|].
  destruct (Nat.eqb_spec (user_id (acc_user x)) (user_id (acc_user acc))) as [Heq|Hx].
  - destruct (Nat.eqb_spec (user_id (acc_user acc)) uid'); [congruence|].
    destruct (Nat.eqb_spec (user_id (acc_user x)) uid'); [congruence|]. exact IH.
  - destruct (user_id (acc_user x) =? uid'); [reflexivity|exact IH].
Qed.

Lemma profile_fixed (u : User) : avatarOk (user_avatar u) -> profile u = u.
Proof.
  destruct u as [i n e [[|c t]|]]; simpl; intros H; try reflexivity.
  destruct H as [H _]. now elim H.
Qed.

(** X18. A profile update of an existing user, with fields that pass the
    schema, is refused with 409 and writes nothing when another user has the
    requested name.  When it succeeds it answers the profile that GET /me
    then returns: the id and the email are those of before, the name is the
    requested one if any, the avatar is the trimmed text of the request, or
    none when that text is blank; the password hash and the profiles of all
    other users are untouched. *)
Theorem updateProfile_contract
    (lib : Libraries) (rqs : list AccountRequest) (a : Accounts)
    (uid : nat) (name avatar : option string) (x : Account) :
  a = runAccounts lib rqs ->
  Account_findById a uid = Some x ->
  updateProfileSchema name avatar = true ->
  (forall n y, name = Some n -> In y (accounts a) ->
     user_name (acc_user y) = n -> user_id (acc_user y) <> uid ->
     updateProfile a uid name avatar = (a, Failure 409 "Username already in use")) /\
  (isFailure (snd (updateProfile a uid name avatar)) = false ->
   exists v,
     snd (updateProfile a uid name avatar) = Json 200 v /\
     getMe (fst (updateProfile a uid name avatar)) uid = Json 200 v /\
     user_id v = uid /\ user_email v = user_email (acc_user x) /\
     user_name v = match name with
                   | Some n => n
                   | None => user_name (acc_user x)
                   end /\
     user_avatar v = match avatar with
                     | Some av => match trim av with
                                  | EmptyString => None
                                  | t => Some t
                                  end
                     | None => user_avatar (acc_user x)
                     end /\
     (exists x', Account_findById (fst (updateProfile a uid name avatar)) uid = Some x' /\
                 passwordHash x' = passwordHash x) /\
     (forall uid', uid' <> uid ->
        getMe (fst (updateProfile a uid name avatar)) uid' = getMe a uid')).
Proof.
  intros -> Hfind Hschema. pose proof (runAccounts_Ok lib rqs) as HA.
  set (a := runAccounts lib rqs) in *.
  pose proof (accountById_some _ _ _ Hfind) as [Hx Hxid]. split.
  - intros n y -> Hy Hyn Hyid. unfold updateProfile. rewrite Hschema, Hfind. simpl negb.
    cbv iota.
    assert (Hne : n <> EmptyString).
    { unfold updateProfileSchema in Hschema. apply andb_true_iff in Hschema as [Hn _].
      apply Nat.leb_le in Hn. intros ->. simpl in Hn. lia. }
    destruct n as [|c n]; [now elim Hne|].
    destruct (String.eqb_spec (String c n) (user_name (acc_user x))) as [Heq|Hdiff].
    + exfalso. apply Hyid. rewrite <- Hxid. f_equal. f_equal.
      now apply (NoDup_map_inj (fun z => user_name (acc_user z)) (accounts a));
        [apply (account_names_unique _ HA)| | |congruence].
    + simpl negb. cbv iota.
      destruct (User_findOneByName a (String c n)) as [y'|] eqn:En.
      * apply findByName_some in En as [Hy' Hy'n].
        assert (y' = y).
        { now apply (NoDup_map_inj (fun z => user_name (acc_user z)) (accounts a));
            [apply (account_names_unique _ HA)| | |congruence]. }
        subst y'. rewrite Hxid. apply Nat.eqb_neq in Hyid. now rewrite Hyid.
      * exfalso. now apply (findByName_none a _ En y Hy).
  - intros Hok.
    pose proof (updateProfile_AccountsOk a uid name avatar HA) as HA'.
    destruct (updateProfile_success a uid name avatar HA Hok)
      as (x0 & u' & Hfind0 & Heq & Hid & Hemail & Hname & _ & Havatar & _).
    rewrite Hfind in Hfind0. injection Hfind0 as <-.
    rewrite Heq in *. simpl fst in *. simpl snd.
    assert (Hin : In (mkAccount u' (passwordHash x))
                     (accounts (Account_save a (mkAccount u' (passwordHash x))))).
    { unfold Account_save. simpl. now apply (replaceAt_hit _ _ _ _ x); [|congruence]. }
    pose proof (accountById_found _ _ HA' Hin) as Hfound. simpl in Hfound.
    rewrite Hid in Hfound.
    assert (Hfixed : profile u' = u').
    { apply profile_fixed. apply (account_avatars _ HA' _ Hin). }
    exists u'. rewrite Hfixed. repeat split; auto.
    + unfold getMe. rewrite Hfound. simpl. now rewrite Hfixed.
    + eexists. split; [exact Hfound|reflexivity].
    + intros uid' Hne. unfold getMe. rewrite accountById_save_other; [reflexivity|].
      simpl. congruence.
Qed.

Lemma updateProfile_contract_witness :
  demoAccounts = runAccounts demoLib
    [Signup (Some "ann") (Some "ann@example.org") (Some "secret1") "s1";
     Signup (Some "bob") (Some "bob@example.org") (Some "secret2") "s2";
     UpdateProfile 1 None (Some "  BK ")] /\
  updateProfile demoAccounts 1 (Some "ann") None
    = (demoAccounts, Failure 409 "Username already in use") /\
  exists v,
    snd (updateProfile demoAccounts 1 (Some "bobby") (Some "   ")) = Json 200 v /\
    getMe (fst (updateProfile demoAccounts 1 (Some "bobby") (Some "   "))) 1
      = Json 200 v /\
    user_name v = "bobby" /\ user_avatar v = None.
Proof.
  split; [reflexivity|].
  destruct (updateProfile_contract demoLib _ demoAccounts 1 (Some "ann") None
              (mkAccount (mkUser 1 "bob" "bob@example.org" (Some "BK")) "secret2")
              eq_refl eq_refl eq_refl) as [Hconflict _].
  destruct (updateProfile_contract demoLib _ demoAccounts 1 (Some "bobby") (Some "   ")
              (mkAccount (mkUser 1 "bob" "bob@example.org" (Some "BK")) "secret2")
              eq_refl eq_refl eq_refl) as [_ Hok].
  split.
  - apply (Hconflict "ann"
             (mkAccount (mkUser 0 "ann" "ann@example.org" None) "secret1"));
      [reflexivity|simpl; auto|reflexivity|discriminate].
  - destruct (Hok eq_refl) as (v & Hresp & Hme & _ & _ & Hname & Havatar & _).
    exists v. repeat split; assumption.
Defined.

(** ** Authentication *)

Lemma split_noSpace (s : string) : noSpace s -> split " " s = [s].
Proof.
  unfold noSpace. induction s as [|c s IH]; simpl; intros H; [reflexivity|].
  apply andb_true_iff in H as [Hc Hs]. apply negb_true_iff in Hc.
  now rewrite Hc, (IH Hs).
Qed.

Lemma split_field (s t : string) :
  noSpace s -> split " " (s ++ String " " t) = s :: split " " t.
Proof.
  unfold noSpace. induction s as [|c s IH]; simpl; intros H; [reflexivity|].
  apply andb_true_iff in H as [Hc Hs]. apply negb_true_iff in Hc.
  now rewrite Hc, (IH Hs).
Qed.

Lemma append_not_falsy (s t : string) : falsy (Some (s ++ String " " t)) = false.
Proof. destruct s; reflexivity. Qed.

(** X19. The authentication middleware rejects with 401 a request without
    Authorization header, or with an empty one; it rejects with 401 a header
    without a space, and a header whose first space is followed by another
    space.  Otherwise it verifies the text between the first and the second
    space, and only that: the word before the first space (the scheme) and
    anything after the second space play no part in the decision. *)
Theorem authMiddleware_contract (lib : Libraries) :
  authMiddleware lib None = Reject 401 "Missing Authorization header" /\
  authMiddleware lib (Some EmptyString) = Reject 401 "Missing Authorization header" /\
  (forall h, h <> EmptyString -> noSpace h ->
     authMiddleware lib (Some h) = Reject 401 "Invalid Authorization header") /\
  (forall scheme rest, noSpace scheme ->
     authMiddleware lib (Some (scheme ++ String " " (String " " rest)))
       = Reject 401 "Invalid Authorization header") /\
  (forall scheme tok, noSpace scheme -> noSpace tok -> tok <> EmptyString ->
     authMiddleware lib (Some (scheme ++ String " " tok))
       = match jwtVerify lib tok with
         | Some payload => Next payload
         | None => Reject 401 "Invalid or expired token"
         end) /\
  (forall scheme tok rest, noSpace scheme -> noSpace tok -> tok <> EmptyString ->
     authMiddleware lib (Some (scheme ++ String " " (tok ++ String " " rest)))
       = authMiddleware lib (Some (scheme ++ String " " tok))).
Proof.
  assert (Htok : forall scheme tok tail, noSpace scheme -> tok <> EmptyString ->
            split " " (scheme ++ String " " tail) = scheme :: tok :: nil \/
            (exists more, split " " (scheme ++ String " " tail) = scheme :: tok :: more) ->
            authMiddleware lib (Some (scheme ++ String " " tail))
              = match jwtVerify lib tok with
                | Some payload => Next payload
                | None => Reject 401 "Invalid or expired token"
                end).
  { intros scheme tok tail Hs Ht Hsplit. unfold authMiddleware.
    rewrite append_not_falsy.
    assert (Hnth : nth_error (split " " (scheme ++ String " " tail)) 1 = Some tok).
    { destruct Hsplit as [->|(more & ->)]; reflexivity. }
    rewrite Hnth. destruct tok; [now elim Ht|reflexivity]. }
  split; [reflexivity|]. split; [reflexivity|]. split; [|split; [|split]].
  - intros h Hne Hh. unfold authMiddleware.
    destruct h as [|c h]; [now elim Hne|]. simpl falsy. cbv iota.
    now rewrite (split_noSpace _ Hh).
  - intros scheme rest Hs. unfold authMiddleware. rewrite append_not_falsy.
    rewrite (split_field _ _ Hs). simpl. reflexivity.
  - intros scheme tok Hs Ht Hne. apply Htok; auto. left.
    now rewrite (split_field _ _ Hs), (split_noSpace _ Ht).
  - intros scheme tok rest Hs Ht Hne.
    rewrite (Htok scheme tok (tok ++ String " " rest) Hs Hne).
    + symmetry. apply Htok; auto. left.
      now rewrite (split_field _ _ Hs), (split_noSpace _ Ht).
    + right. rewrite (split_field _ _ Hs), (split_field _ _ Ht). eauto.
Qed.

Lemma authMiddleware_contract_witness :
  authMiddleware demoLib (Some "Bearer") = Reject 401 "Invalid Authorization header" /\
  authMiddleware demoLib (Some "Basic ann@example.org")
    = Next (mkIdentity 0 "ann" "ann@example.org") /\
  authMiddleware demoLib (Some "Bearer ann@example.org and more")
    = authMiddleware demoLib (Some "Bearer ann@example.org").
Proof.
  destruct (authMiddleware_contract demoLib) as (_ & _ & Hbare & _ & Htok & Hrest).
  split; [apply Hbare; [discriminate|reflexivity]|]. split.
  - apply (Htok "Basic" "ann@example.org"); [reflexivity|reflexivity|discriminate].
  - apply (Hrest "Bearer" "ann@example.org" "and more");
      [reflexivity|reflexivity|discriminate].
Defined.

(** ** What changes a room, and what deletes it *)

Lemma replaced_room (db : Db) (room room' r r' : Room) :
  Inv db -> In room (rooms db) -> room_id room' = room_id room ->
  In r (rooms db) ->
  In r' (replaceAt room_id (room_id room) room' (rooms db)) ->
  room_id r' = room_id r ->
  (r' = room' /\ r = room) \/ r' = r.
Proof.
  intros [HS _] Hroom Hid Hr Hr' Hsame.
  apply replaceAt_In in Hr' as [[-> _]|[Hr' _]].
  - left. split; [reflexivity|]. apply (room_id_inj _ _ _ HS); congruence.
  - right. now apply (room_id_inj _ _ _ HS).
Qed.

(** X20. One request changes the owner field of a room only if it is the
    leave of that owner, and changes the name of a room only if it is a
    rename by its owner, to the name of the request; no other request of a
    reachable state touches either field. *)
Theorem owner_and_name_changes (db : Db) (rq : Request) (r r' : Room) :
  reachable db -> In r (rooms db) ->
  In r' (rooms (handle db rq)) -> room_id r' = room_id r ->
  (owner r' <> owner r -> exists tie, rq = Leave (room_id r) (owner r) tie) /\
  (room_name r' <> room_name r ->
     rq = Rename (room_id r) (owner r) (Some (room_name r'))).
Proof.
  intros Hreach Hr Hr' Hid. pose proof (reachable_Inv _ Hreach) as HI.
  pose proof HI as [HS _].
  assert (Hsame : In r' (rooms db) ->
            (owner r' <> owner r -> exists tie, rq = Leave (room_id r) (owner r) tie) /\
            (room_name r' <> room_name r ->
               rq = Rename (room_id r) (owner r) (Some (room_name r')))).
  { intros Hin. assert (r' = r) by now apply (room_id_inj _ _ _ HS).
    subst r'. split; intros H; now elim H. }
  destruct rq; simpl in Hr'.
  - unfold createRoom in Hr'. destruct name as [[|c nm]|]; try (apply Hsame; exact Hr').
    destruct (generateRoomCode fuel (rooms db) rnd 0); [|apply Hsame; exact Hr'].
    simpl in Hr'. apply in_app_or in Hr' as [Hr'|[<-|[]]]; [now apply Hsame|].
    simpl in Hid. pose proof (room_ids_fresh _ _ _ HS r Hr). lia.
  - apply Hsame. unfold joinByCode in Hr'.
    destruct (lookupByCode db code); [|exact Hr'].
    unfold joinFound in Hr'. destruct (Qle_bool _ _); [exact Hr'|].
    destruct (RoomMember_findOne db (room_id body) userId); exact Hr'.
  - apply Hsame. unfold joinById in Hr'.
    destruct (Room_findById db roomId); [|exact Hr'].
    unfold joinFound in Hr'. destruct (Qle_bool _ _); [exact Hr'|].
    destruct (RoomMember_findOne db roomId userId); exact Hr'.
  - unfold leaveRoom in Hr'.
    destruct (Room_findById db roomId) as [room|] eqn:Er; [|now apply Hsame].
    destruct (RoomMember_findOne db roomId userId); [|now apply Hsame].
    apply findById_some in Er as [Hroom Hrid].
    destruct (_ =? 1).
    + simpl in Hr'. apply filter_In in Hr' as [Hr' _]. now apply Hsame.
    + destruct (Nat.eqb_spec (owner room) userId) as [Hown|Hown]; [|now apply Hsame].
      destruct (find _ _) as [new|]; [|now apply Hsame].
      simpl in Hr'.
      destruct (replaced_room db room (setOwner room (rm_user new)) r r' HI Hroom
                  eq_refl Hr Hr' Hid) as [[-> ->] | ->].
      * split; [intros _; exists tie; congruence|intros H; now elim H].
      * split; intros H; now elim H.
  - unfold renameRoom in Hr'. destruct name as [[|c nm]|]; try (apply Hsame; exact Hr').
    destruct (Room_findById db roomId) as [room|] eqn:Er; [|now apply Hsame].
    apply findById_some in Er as [Hroom Hrid].
    destruct (Nat.eqb_spec (owner room) userId) as [Hown|Hown]; [|now apply Hsame].
    simpl in Hr'.
    destruct (replaced_room db room (setName room (String c nm)) r r' HI Hroom
                eq_refl Hr Hr' Hid) as [[-> ->] | ->].
    + split; [intros H; now elim H|intros _; simpl; congruence].
    + split; intros H; now elim H.
  - apply Hsame. unfold sendMessage in Hr'.
    destruct (falsy body || falsy (option_map trim body)); [exact Hr'|].
    destruct body; [|exact Hr'].
    destruct (Room_findById db roomId); [|exact Hr'].
    destruct (RoomMember_findOne db roomId userId); exact Hr'.
Qed.

Lemma owner_and_name_changes_witness :
  reachable demoDb /\ In demoRoom (rooms demoDb) /\
  In (setOwner demoRoom 2) (rooms (handle demoDb (Leave 0 1 collectionOrder))) /\
  owner (setOwner demoRoom 2) <> owner demoRoom /\
  exists tie, Leave 0 1 collectionOrder = Leave (room_id demoRoom) (owner demoRoom) tie.
Proof.
  assert (Hin : In demoRoom (rooms demoDb)) by (simpl; auto).
  assert (Hin' : In (setOwner demoRoom 2)
                     (rooms (handle demoDb (Leave 0 1 collectionOrder))))
    by (simpl; auto).
  assert (Hne : owner (setOwner demoRoom 2) <> owner demoRoom) by discriminate.
  split; [exact demoDb_reachable|]. split; [exact Hin|]. split; [exact Hin'|].
  split; [exact Hne|].
  exact (proj1 (owner_and_name_changes demoDb (Leave 0 1 collectionOrder) demoRoom
                  (setOwner demoRoom 2) demoDb_reachable Hin Hin' eq_refl) Hne).
Defined.

(** X21. A room disappears from a reachable store only by the leave of its
    last member: when a room of the state before a request has no room of
    the same id after it, the request is a leave of that room by the user
    of its only membership. *)
Theorem room_deleted_only_when_empty (db : Db) (rq : Request) (r : Room) :
  reachable db -> In r (rooms db) ->
  (forall r', In r' (rooms (handle db rq)) -> room_id r' <> room_id r) ->
  exists u m tie,
    rq = Leave (room_id r) u tie /\
    RoomMember_find db (room_id r) = [m] /\ rm_user m = u.
Proof.
  intros Hreach Hr Hgone.
  assert (Hkept : In (room_id r) (map room_id (rooms (handle db rq))) -> False).
  { intros Hin. apply in_map_iff in Hin as (r' & Hid & Hr'). now apply (Hgone r'). }
  assert (Hids : map room_id (rooms (handle db rq)) = map room_id (rooms db) -> False).
  { intros Heq. apply Hkept. rewrite Heq. now apply in_map. }
  destruct rq; simpl in Hkept, Hids.
  - exfalso. unfold createRoom in *. destruct name as [[|c nm]|]; try now apply Hids.
    destruct (generateRoomCode fuel (rooms db) rnd 0); [|now apply Hids].
    apply Hkept. simpl. rewrite map_app. apply in_or_app. left. now apply in_map.
  - exfalso. apply Hids. unfold joinByCode. destruct (lookupByCode db code); [|reflexivity].
    unfold joinFound. destruct (Qle_bool _ _); [reflexivity|].
    destruct (RoomMember_findOne db (room_id body) userId); reflexivity.
  - exfalso. apply Hids. unfold joinById. destruct (Room_findById db roomId); [|reflexivity].
    unfold joinFound. destruct (Qle_bool _ _); [reflexivity|].
    destruct (RoomMember_findOne db roomId userId); reflexivity.
  - unfold leaveRoom in *.
    destruct (Room_findById db roomId) as [room|] eqn:Er; [|exfalso; now apply Hids].
    destruct (RoomMember_findOne db roomId userId) as [membership|] eqn:Em;
      [|exfalso; now apply Hids].
    apply findById_some in Er as [Hroom Hrid].
    apply findOne_some in Em as (Hm & Hmr & Hmu).
    destruct (Nat.eqb_spec (List.length (sortByJoinedAt tie (RoomMember_find db roomId))) 1)
      as [Hone|Hmany].
    + simpl in Hkept.
      destruct (Nat.eq_dec (room_id r) roomId) as [Heq|Hne].
      * rewrite sort_length in Hone.
        assert (Hin : In membership (RoomMember_find db roomId))
          by (apply find_in_room; auto).
        exists userId, membership, tie. rewrite Heq. split; [reflexivity|].
        split; [|assumption].
        destruct (RoomMember_find db roomId) as [|a [|b l]]; try discriminate.
        now destruct Hin as [->|[]].
      * exfalso. apply Hkept. apply in_map. apply filter_In. split; [assumption|].
        now apply negb_true_iff, Nat.eqb_neq.
    + exfalso. apply Hids.
      destruct (owner room =? userId); [|reflexivity].
      destruct (find _ _); [|reflexivity]. simpl.
      now apply (replaceAt_ids room_id).
  - exfalso. apply Hids. unfold renameRoom. destruct name as [[|c nm]|]; try reflexivity.
    destruct (Room_findById db roomId) as [room|] eqn:Er; [|reflexivity].
    apply findById_some in Er as [_ Hrid].
    destruct (negb _); [reflexivity|]. simpl. now apply (replaceAt_ids room_id).
  - exfalso. apply Hids. unfold sendMessage.
    destruct (falsy body || falsy (option_map trim body)); [reflexivity|].
    destruct body; [|reflexivity].
    destruct (Room_findById db roomId); [|reflexivity].
    destruct (RoomMember_findOne db roomId userId); reflexivity.
Qed.

Lemma room_deleted_only_when_empty_witness :
  reachable soloDb /\ In demoRoom (rooms soloDb) /\
  (forall r', In r' (rooms (handle soloDb (Leave 0 1 collectionOrder))) ->
     room_id r' <> room_id demoRoom) /\
  exists u m tie,
    Leave 0 1 collectionOrder = Leave (room_id demoRoom) u tie /\
    RoomMember_find soloDb (room_id demoRoom) = [m] /\ rm_user m = u.
Proof.
  assert (Hreach : reachable soloDb) by (exists demoUsers; eexists; reflexivity).
  assert (Hin : In demoRoom (rooms soloDb)) by (simpl; auto).
  assert (Hgone : forall r', In r' (rooms (handle soloDb (Leave 0 1 collectionOrder))) ->
                    room_id r' <> room_id demoRoom) by (intros r' []).
  split; [exact Hreach|]. split; [exact Hin|]. split; [exact Hgone|].
  exact (room_deleted_only_when_empty soloDb (Leave 0 1 collectionOrder) demoRoom
           Hreach Hin Hgone).
Defined.
